(** * SimpleMultithreader: fork-join [parallel_for] over Pthreads

    Verification of [simple-multithreader.h] (functions [sm_split_range],
    [sm_thread_entry_1d], [sm_thread_entry_2d] and the two overloads of
    [parallel_for]) and of its namespaced twin [simple_mt::*].

    Modelling conventions.
    - A C++ [int] is a [Z] in [[INT_MIN, INT_MAX]]; every [int] operation
      is written with its two's-complement wrap-around ([wrap_int]), which
      is what the usual targets compute where the standard leaves signed
      overflow undefined.  [long long] is the same at 64 bits.
    - [/] and [%] on [int] truncate towards zero ([Z.quot], [Z.rem]).
    - Code that runs on a thread is a computation in the monad [M]: it
      emits the events of that thread in program order and ends with a
      value, a C++ exception, or a fault (division by zero, vector index
      out of bounds).
    - The user's lambda is a function from the index to [None] (it
      returns) or [Some e] (it throws [e]); [pthread_create] is an oracle
      telling, for the loop counter [t], whether the creation succeeds.
    - A thread created for an argument block runs the entry function on
      that block; its own event sequence is obtained by running the entry
      function, so the interleaving of threads is not fixed by the model. *)

From Stdlib Require Import ZArith List Lia Bool String Sorted.
Import ListNotations.
Local Open Scope Z_scope.

(** ** Machine integers *)

Definition INT_MAX : Z := 2147483647.
Definition INT_MIN : Z := -2147483648.
Definition LLONG_MAX : Z := 9223372036854775807.

(** Two's-complement reduction to 32 and to 64 bits. *)
Definition wrap_int (z : Z) : Z := (z + 2147483648) mod 4294967296 - 2147483648.
Definition wrap_ll (z : Z) : Z :=
  (z + 9223372036854775808) mod 18446744073709551616 - 9223372036854775808.

Definition is_int (z : Z) : Prop := INT_MIN <= z <= INT_MAX.

Definition int_add (a b : Z) : Z := wrap_int (a + b).
Definition int_sub (a b : Z) : Z := wrap_int (a - b).
(** [a / b] and [a % b] for a non-zero divisor. *)
Definition int_quot (a b : Z) : Z := wrap_int (Z.quot a b).
Definition int_rem (a b : Z) : Z := wrap_int (Z.rem a b).
Definition ll_mul (a b : Z) : Z := wrap_ll (a * b).

(** The values [s, s+1, ..., e-1] taken by the counter of
    [for (int i = s; i < e; ++i)]; the counter stays below [e], so [++i]
    never wraps. *)
Definition int_range (s e : Z) : list Z :=
  map (fun k => s + Z.of_nat k) (seq 0 (Z.to_nat (e - s))).

(** ** The partitioner *)

(** One iteration of the loop of [sm_split_range]: the state is
    [(cur, parts)], [t] the loop counter. *)
Definition split_step (base rem : Z) (st : Z * list (Z * Z)) (t : Z)
  : Z * list (Z * Z) :=
  let '(cur, parts) := st in
  let add := int_add base (if t <? rem then 1 else 0) in
  let s := cur in
  let e := int_add cur add in
  (e, parts ++ [(s, e)]).

Definition sm_split_range (low high numPieces : Z) : list (Z * Z) :=
  if numPieces <=? 0 then []
  else if low >=? high then
    map (fun _ => (low, low)) (int_range 0 numPieces)
  else
    let total := int_sub high low in
    let base := int_quot total numPieces in
    let rem := int_rem total numPieces in
    let cur := low in
    snd (fold_left (split_step base rem) (int_range 0 numPieces) (cur, [])).

(** ** Threads as event-emitting computations *)

(** What a thread can throw: [std::runtime_error(what)], or anything else
    the user's lambda throws. *)
Inductive exn : Type :=
| runtime_error (what : string)
| other_exn (id : Z).

(** Faults are not C++ exceptions: [catch (...)] does not stop them. *)
Inductive fault : Type :=
| DivByZero
| DivOverflow
| OutOfBounds.

Inductive result (A : Type) : Type :=
| Ok (a : A)
| Throw (e : exn)
| Fault (f : fault).
Arguments Ok {A} a.
Arguments Throw {A} e.
Arguments Fault {A} f.

(** [SM_ThreadArg<LambdaType>]; the [lambda] field is the one shared
    callback of the call and is passed alongside. *)
Record SM_ThreadArg : Type := mkArg {
  start_idx : Z;
  end_idx : Z;
  low1 : Z;
  low2 : Z;
  width2 : Z
}.

(** The constructor [SM_ThreadArg(l, s, e)]. *)
Definition SM_ThreadArg_new (s e : Z) : SM_ThreadArg := mkArg s e 0 0 0.

(** Thread handles: the worker created at loop counter [t] has handle [t]. *)
Definition pthread_t : Type := Z.

Inductive event : Type :=
| EvCall1 (i : Z)                            (* lambda(i) *)
| EvCall2 (i j : Z)                          (* lambda(i, j) *)
| EvCreate (tid : pthread_t) (arg : SM_ThreadArg) (* pthread_create == 0 *)
| EvCreateFailed (t : Z)                     (* pthread_create != 0 *)
| EvJoin (tid : pthread_t)                   (* pthread_join *)
| EvPrint (line : string).                   (* std::cout, elapsed time left out *)

Definition M (A : Type) : Type := (list event * result A)%type.

Definition ret {A} (a : A) : M A := ([], Ok a).

Definition bind {A B} (m : M A) (k : A -> M B) : M B :=
  match m with
  | (tr, Ok a) => let '(tr', r) := k a in (tr ++ tr', r)
  | (tr, Throw e) => (tr, Throw e)
  | (tr, Fault f) => (tr, Fault f)
  end.

Notation "x <- c1 ;; c2" := (bind c1 (fun x => c2))
  (at level 61, c1 at next level, right associativity).
Notation "c1 ;; c2" := (bind c1 (fun _ => c2))
  (at level 61, right associativity).

Definition emit (ev : event) : M unit := ([ev], Ok tt).
Definition throw {A} (e : exn) : M A := ([], Throw e).
Definition trap {A} (f : fault) : M A := ([], Fault f).

(** [try { m } catch (...) { }] *)
Definition try_catch_all (m : M unit) : M unit :=
  match m with
  | (tr, Throw _) => (tr, Ok tt)
  | other => other
  end.

(** Range-for over a container, and the counted [for] loop. *)
Fixpoint for_each {X} (xs : list X) (body : X -> M unit) : M unit :=
  match xs with
  | [] => ret tt
  | x :: xs' => body x ;; for_each xs' body
  end.

Definition for_int (s e : Z) (body : Z -> M unit) : M unit :=
  for_each (int_range s e) body.

(** A counted loop that carries a state (here: the vector [tids]). *)
Fixpoint fold_for {S X} (xs : list X) (body : S -> X -> M S) (s : S) : M S :=
  match xs with
  | [] => ret s
  | x :: xs' => s' <- body s x ;; fold_for xs' body s'
  end.

(** [a / b] and [a % b] as the machine executes them. *)
Definition int_div (a b : Z) : M Z :=
  if b =? 0 then trap DivByZero
  else if (a =? INT_MIN) && (b =? -1) then trap DivOverflow
  else ret (int_quot a b).

Definition int_mod (a b : Z) : M Z :=
  if b =? 0 then trap DivByZero
  else if (a =? INT_MIN) && (b =? -1) then trap DivOverflow
  else ret (int_rem a b).

(** [parts[t]] on a [std::vector]. *)
Definition vec_at {X} (v : list X) (t : Z) : M X :=
  if t <? 0 then trap OutOfBounds
  else match nth_error v (Z.to_nat t) with
       | Some x => ret x
       | None => trap OutOfBounds
       end.

(** [(int)parts.size()] *)
Definition vec_size {X} (v : list X) : Z := wrap_int (Z.of_nat (List.length v)).

(** Invoking the shared callback. *)
Definition call1 (f : Z -> option exn) (i : Z) : M unit :=
  emit (EvCall1 i) ;;
  match f i with Some e => throw e | None => ret tt end.

Definition call2 (f : Z -> Z -> option exn) (i j : Z) : M unit :=
  emit (EvCall2 i j) ;;
  match f i j with Some e => throw e | None => ret tt end.

(** ** Worker entry points *)

Definition sm_thread_entry_1d (f : Z -> option exn)
    (arg_void : option SM_ThreadArg) : M unit :=
  match arg_void with
  | None => ret tt
  | Some arg =>
      try_catch_all
        (for_int (start_idx arg) (end_idx arg) (fun i => call1 f i))
  end.

(** The body of the flat loop, shared by the worker and the caller. *)
Definition flat_body (f : Z -> Z -> option exn) (low1 low2 w flat : Z)
  : M unit :=
  q <- int_div flat w ;;
  let i := int_add q low1 in
  r <- int_mod flat w ;;
  let j := int_add r low2 in
  call2 f i j.

Definition sm_thread_entry_2d (f : Z -> Z -> option exn)
    (arg_void : option SM_ThreadArg) : M unit :=
  match arg_void with
  | None => ret tt
  | Some arg =>
      try_catch_all
        (let s := start_idx arg in
         let e := end_idx arg in
         let low1 := low1 arg in
         let low2 := low2 arg in
         let w := width2 arg in
         for_int s e (flat_body f low1 low2 w))
  end.

(** ** The public entry points *)

Definition join_all (tids : list pthread_t) : M unit :=
  for_each tids (fun pt => emit (EvJoin pt)).

(** The 1-D overload [parallel_for(low, high, lambda, numThreads)]. *)
Definition parallel_for_1d (pthread_create_ok : Z -> bool)
    (low high : Z) (lambda : Z -> option exn) (numThreads : Z) : M unit :=
  let numThreads := if numThreads <=? 0 then 1 else numThreads in
  if low >=? high then ret tt
  else
    let parts := sm_split_range low high numThreads in
    let '(parts, numThreads) :=
      if negb (vec_size parts =? numThreads)
      then (sm_split_range low high 1, 1)
      else (parts, numThreads) in
    let to_create := int_sub numThreads 1 in
    tids <- fold_for (int_range 0 to_create)
              (fun tids t =>
                 p <- vec_at parts t ;;
                 let arg := SM_ThreadArg_new (fst p) (snd p) in
                 if pthread_create_ok t then
                   emit (EvCreate t arg) ;;
                   ret (tids ++ [t])
                 else
                   emit (EvCreateFailed t) ;;
                   join_all tids ;;
                   throw (runtime_error "pthread_create failed (1D)"%string))
              [] ;;
    let main_idx := to_create in
    p <- vec_at parts main_idx ;;
    for_int (fst p) (snd p) (fun i => call1 lambda i) ;;
    join_all tids ;;
    emit (EvPrint "[SimpleMultithreader] parallel_for(1D) time = "%string).

(** The 2-D overload
    [parallel_for(low1, high1, low2, high2, lambda, numThreads)]. *)
Definition parallel_for_2d (pthread_create_ok : Z -> bool)
    (low1 high1 low2 high2 : Z) (lambda : Z -> Z -> option exn)
    (numThreads : Z) : M unit :=
  let numThreads := if numThreads <=? 0 then 1 else numThreads in
  if (low1 >=? high1) || (low2 >=? high2) then ret tt
  else
    let rows := int_sub high1 low1 in
    let cols := int_sub high2 low2 in
    let total := ll_mul rows cols in
    if total <=? 0 then ret tt
    else if total >? INT_MAX then throw (runtime_error "2D range too large"%string)
    else
      let total_int := wrap_int total in
      let parts := sm_split_range 0 total_int numThreads in
      let '(parts, numThreads) :=
        if negb (vec_size parts =? numThreads)
        then (sm_split_range 0 total_int 1, 1)
        else (parts, numThreads) in
      let to_create := int_sub numThreads 1 in
      tids <- fold_for (int_range 0 to_create)
                (fun tids t =>
                   p <- vec_at parts t ;;
                   let arg :=
                     mkArg (fst p) (snd p) low1 low2 (wrap_int cols) in
                   if pthread_create_ok t then
                     emit (EvCreate t arg) ;;
                     ret (tids ++ [t])
                   else
                     emit (EvCreateFailed t) ;;
                     join_all tids ;;
                     throw (runtime_error "pthread_create failed (2D)"%string))
                [] ;;
      let main_idx := to_create in
      let w := wrap_int cols in
      p <- vec_at parts main_idx ;;
      for_int (fst p) (snd p) (flat_body lambda low1 low2 w) ;;
      join_all tids ;;
      emit (EvPrint "[SimpleMultithreader] parallel_for(2D) time = "%string).

(** ** The namespaced twin

    The second copy of the library keeps everything in [namespace
    simple_mt] and forwards the unqualified [parallel_for] overloads to
    it.  It differs from the first copy in the names of locals, in
    computing the number of workers before the split, and in the texts of
    the error messages.  [ThreadArg] has the fields of [SM_ThreadArg]. *)
Module simple_mt.

Definition split_range (low high numPieces : Z) : list (Z * Z) :=
  if numPieces <=? 0 then []
  else if low >=? high then
    map (fun _ => (low, low)) (int_range 0 numPieces)
  else
    let total := int_sub high low in
    let base := int_quot total numPieces in
    let rem := int_rem total numPieces in
    let cursor := low in
    snd (fold_left (split_step base rem) (int_range 0 numPieces) (cursor, [])).

Definition thread_entry_1d (lambda : Z -> option exn)
    (arg_void : option SM_ThreadArg) : M unit :=
  match arg_void with
  | None => ret tt
  | Some arg =>
      try_catch_all
        (for_int (start_idx arg) (end_idx arg) (fun idx => call1 lambda idx))
  end.

Definition thread_entry_2d (lambda : Z -> Z -> option exn)
    (arg_void : option SM_ThreadArg) : M unit :=
  match arg_void with
  | None => ret tt
  | Some arg =>
      try_catch_all
        (let start := start_idx arg in
         let end_ := end_idx arg in
         let low1 := low1 arg in
         let low2 := low2 arg in
         let width2 := width2 arg in
         for_int start end_ (flat_body lambda low1 low2 width2))
  end.

Definition parallel_for_1d (pthread_create_ok : Z -> bool)
    (low high : Z) (lambda : Z -> option exn) (numThreads : Z) : M unit :=
  let numThreads := if numThreads <=? 0 then 1 else numThreads in
  if low >=? high then ret tt
  else
    let create_count := int_sub numThreads 1 in
    let parts := split_range low high numThreads in
    let '(parts, create_count, numThreads) :=
      if negb (vec_size parts =? numThreads)
      then (split_range low high 1, 0, 1)
      else (parts, create_count, numThreads) in
    tids <- fold_for (int_range 0 create_count)
              (fun tids t =>
                 p <- vec_at parts t ;;
                 let arg := SM_ThreadArg_new (fst p) (snd p) in
                 if pthread_create_ok t then
                   emit (EvCreate t arg) ;;
                   ret (tids ++ [t])
                 else
                   emit (EvCreateFailed t) ;;
                   join_all tids ;;
                   throw (runtime_error
                            "pthread_create failed in parallel_for (1D)"%string))
              [] ;;
    let main_part_idx := create_count in
    p <- vec_at parts main_part_idx ;;
    let s := fst p in
    let e := snd p in
    for_int s e (fun idx => call1 lambda idx) ;;
    join_all tids ;;
    emit (EvPrint "[SimpleMultithreader] parallel_for(1D) time = "%string).

Definition parallel_for_2d (pthread_create_ok : Z -> bool)
    (low1 high1 low2 high2 : Z) (lambda : Z -> Z -> option exn)
    (numThreads : Z) : M unit :=
  let numThreads := if numThreads <=? 0 then 1 else numThreads in
  if (low1 >=? high1) || (low2 >=? high2) then ret tt
  else
    let rows := int_sub high1 low1 in
    let cols := int_sub high2 low2 in
    let total := ll_mul rows cols in
    if total <=? 0 then ret tt
    else if total >? INT_MAX then
      throw (runtime_error
        "2D range too large to handle (exceeds INT_MAX flattened size)."%string)
    else
      let total_int := wrap_int total in
      let parts_flat := split_range 0 total_int numThreads in
      let '(parts_flat, numThreads) :=
        if negb (vec_size parts_flat =? numThreads)
        then (split_range 0 total_int 1, 1)
        else (parts_flat, numThreads) in
      let create_count := int_sub numThreads 1 in
      tids <- fold_for (int_range 0 create_count)
                (fun tids t =>
                   p <- vec_at parts_flat t ;;
                   let arg :=
                     mkArg (fst p) (snd p) low1 low2 (wrap_int cols) in
                   if pthread_create_ok t then
                     emit (EvCreate t arg) ;;
                     ret (tids ++ [t])
                   else
                     emit (EvCreateFailed t) ;;
                     join_all tids ;;
                     throw (runtime_error
                              "pthread_create failed in parallel_for (2D)"%string))
                [] ;;
      let main_idx := create_count in
      p <- vec_at parts_flat main_idx ;;
      let s := fst p in
      let e := snd p in
      let cols_int := wrap_int cols in
      for_int s e (flat_body lambda low1 low2 cols_int) ;;
      join_all tids ;;
      emit (EvPrint "[SimpleMultithreader] parallel_for(2D) time = "%string).

End simple_mt.

(** Two results that differ at most in the text of a [runtime_error]. *)
Definition same_up_to_message (r1 r2 : result unit) : Prop :=
  r1 = r2
  \/ exists m1 m2, r1 = Throw (runtime_error m1) /\ r2 = Throw (runtime_error m2).

(** ** Observations on a run *)

Definition trace {A} (m : M A) : list event := fst m.
Definition outcome {A} (m : M A) : result A := snd m.

(** Argument blocks of the workers created, in creation order. *)
Fixpoint created (tr : list event) : list SM_ThreadArg :=
  match tr with
  | [] => []
  | EvCreate _ arg :: tr' => arg :: created tr'
  | _ :: tr' => created tr'
  end.

Fixpoint created_tids (tr : list event) : list pthread_t :=
  match tr with
  | [] => []
  | EvCreate tid _ :: tr' => tid :: created_tids tr'
  | _ :: tr' => created_tids tr'
  end.

Fixpoint joined_tids (tr : list event) : list pthread_t :=
  match tr with
  | [] => []
  | EvJoin tid :: tr' => tid :: joined_tids tr'
  | _ :: tr' => joined_tids tr'
  end.

(** Loop counters at which [pthread_create] failed. *)
Fixpoint failed (tr : list event) : list Z :=
  match tr with
  | [] => []
  | EvCreateFailed t :: tr' => t :: failed tr'
  | _ :: tr' => failed tr'
  end.

(** Indices on which a thread invoked the callback, in order. *)
Fixpoint calls1 (tr : list event) : list Z :=
  match tr with
  | [] => []
  | EvCall1 i :: tr' => i :: calls1 tr'
  | _ :: tr' => calls1 tr'
  end.

Fixpoint calls2 (tr : list event) : list (Z * Z) :=
  match tr with
  | [] => []
  | EvCall2 i j :: tr' => (i, j) :: calls2 tr'
  | _ :: tr' => calls2 tr'
  end.

(** Every invocation of the callback caused by a call: those of each
    created worker (partition order), then those of the calling thread. *)
Definition all_calls1 (f : Z -> option exn) (run : M unit) : list Z :=
  flat_map (fun arg => calls1 (trace (sm_thread_entry_1d f (Some arg))))
           (created (trace run))
  ++ calls1 (trace run).

Definition all_calls2 (f : Z -> Z -> option exn) (run : M unit)
  : list (Z * Z) :=
  flat_map (fun arg => calls2 (trace (sm_thread_entry_2d f (Some arg))))
           (created (trace run))
  ++ calls2 (trace run).

Definition always_ok (_ : Z) : bool := true.
Definition never_throws1 (_ : Z) : option exn := None.
Definition never_throws2 (_ _ : Z) : option exn := None.

(** ** Vocabulary of the specification *)

(** The partitions lie end to end from [cur] up to [high]: each starts
    where the previous one ended and none is reversed. *)
Fixpoint contiguous_from (cur : Z) (parts : list (Z * Z)) (high : Z) : Prop :=
  match parts with
  | [] => cur = high
  | (s, e) :: ps => s = cur /\ s <= e /\ contiguous_from e ps high
  end.

(** The partitions that contain index [i]. *)
Definition covering (i : Z) (parts : list (Z * Z)) : list (Z * Z) :=
  filter (fun p => (fst p <=? i) && (i <? snd p)) parts.

Definition part_size (p : Z * Z) : Z := snd p - fst p.

(** Start of partition number [t] in the balanced layout of the spec:
    the first [rem] partitions have [base + 1] elements. *)
Definition part_offset (low base rem t : Z) : Z := low + t * base + Z.min t rem.

(** The index mapper of the 2-D loops as a function: what [flat_body]
    passes to the callback for the flat index [flat]. *)
Definition unflatten (low1 low2 w flat : Z) : Z * Z :=
  (int_add (int_quot flat w) low1, int_add (int_rem flat w) low2).

(** Its inverse according to the spec. *)
Definition flatten (low1 low2 cols : Z) (c : Z * Z) : Z :=
  (fst c - low1) * cols + (snd c - low2).

Definition is_prefix {A} (l1 l2 : list A) : Prop := exists m, l1 = firstn m l2.

(** ** The fork-join skeleton

    Both overloads run the same steps once the partitions are fixed; the
    skeleton below names those steps so that they are analysed once.  The
    argument block [mk], the message [msg], the loop body [work] of the
    calling thread and the report [line] are what differs. *)

Definition coerce (numThreads : Z) : Z :=
  if numThreads <=? 0 then 1 else numThreads.

Definition fallback (low high numThreads : Z) : list (Z * Z) * Z :=
  let parts := sm_split_range low high numThreads in
  if negb (vec_size parts =? numThreads)
  then (sm_split_range low high 1, 1)
  else (parts, numThreads).

Definition spawn_body (ok : Z -> bool) (mk : Z * Z -> SM_ThreadArg)
    (msg : string) (parts : list (Z * Z))
    (tids : list pthread_t) (t : Z) : M (list pthread_t) :=
  p <- vec_at parts t ;;
  let arg := mk p in
  if ok t then
    emit (EvCreate t arg) ;;
    ret (tids ++ [t])
  else
    emit (EvCreateFailed t) ;;
    join_all tids ;;
    throw (runtime_error msg).

Definition fork_join (ok : Z -> bool) (mk : Z * Z -> SM_ThreadArg)
    (msg : string) (work : Z -> M unit) (line : string)
    (parts : list (Z * Z)) (numThreads : Z) : M unit :=
  let to_create := int_sub numThreads 1 in
  tids <- fold_for (int_range 0 to_create) (spawn_body ok mk msg parts) [] ;;
  let main_idx := to_create in
  p <- vec_at parts main_idx ;;
  for_int (fst p) (snd p) work ;;
  join_all tids ;;
  emit (EvPrint line).

(** The event of the flat loop at flat index [x]. *)
Definition flat_event (low1 low2 w x : Z) : event :=
  EvCall2 (fst (unflatten low1 low2 w x)) (snd (unflatten low1 low2 w x)).

(** [total_int] of the 2-D overload, as the code computes it. *)
Definition total_int (low1 high1 low2 high2 : Z) : Z :=
  wrap_int (ll_mul (int_sub high1 low1) (int_sub high2 low2)).

(** The creation events of workers [0 .. k-1]. *)
Definition create_events (mk : Z * Z -> SM_ThreadArg) (parts : list (Z * Z))
    (k : Z) : list event :=
  map (fun t => EvCreate t (mk (nth (Z.to_nat t) parts (0, 0))))
      (int_range 0 k).

Definition mk_arg_1d (p : Z * Z) : SM_ThreadArg :=
  SM_ThreadArg_new (fst p) (snd p).

Definition mk_arg_2d (low1 low2 w : Z) (p : Z * Z) : SM_ThreadArg :=
  mkArg (fst p) (snd p) low1 low2 w.

(** ** Further observations and the forwarding overloads *)

(** The unqualified [parallel_for] overloads that the second copy defines
    after its namespace: each forwards its arguments to the function of
    the same signature in [simple_mt]. *)
Definition forward_parallel_for_1d (pthread_create_ok : Z -> bool)
    (low high : Z) (lambda : Z -> option exn) (numThreads : Z) : M unit :=
  simple_mt.parallel_for_1d pthread_create_ok low high lambda numThreads.

Definition forward_parallel_for_2d (pthread_create_ok : Z -> bool)
    (low1 high1 low2 high2 : Z) (lambda : Z -> Z -> option exn)
    (numThreads : Z) : M unit :=
  simple_mt.parallel_for_2d pthread_create_ok low1 high1 low2 high2 lambda
    numThreads.

(** Lines written to [std::cout], in order. *)
Fixpoint printed (tr : list event) : list string :=
  match tr with
  | [] => []
  | EvPrint line :: tr' => line :: printed tr'
  | _ :: tr' => printed tr'
  end.

Definition is_fault {A} (r : result A) : Prop :=
  match r with Fault _ => True | _ => False end.

(** The cells in the order of the nested sequential loops
    [for i in [low1, high1) { for j in [low2, high2) { ... } }]. *)
Definition grid (low1 high1 low2 high2 : Z) : list (Z * Z) :=
  flat_map (fun i => map (fun j => (i, j)) (int_range low2 high2))
           (int_range low1 high1).

(** * Proofs *)

(** ** The model on concrete calls *)

Example split_0_10_3 : sm_split_range 0 10 3 = [(0, 4); (4, 7); (7, 10)].
Proof. reflexivity. Qed.

Example split_empty_range : sm_split_range 5 5 3 = [(5, 5); (5, 5); (5, 5)].
Proof. reflexivity. Qed.

Example split_more_pieces_than_indices :
  sm_split_range 0 2 4 = [(0, 1); (1, 2); (2, 2); (2, 2)].
Proof. reflexivity. Qed.

Example run_0_10_3 :
  parallel_for_1d always_ok 0 10 never_throws1 3
  = ([EvCreate 0 (SM_ThreadArg_new 0 4); EvCreate 1 (SM_ThreadArg_new 4 7);
      EvCall1 7; EvCall1 8; EvCall1 9; EvJoin 0; EvJoin 1;
      EvPrint "[SimpleMultithreader] parallel_for(1D) time = "], Ok tt).
Proof. reflexivity. Qed.

Example run_empty_range :
  parallel_for_1d always_ok 0 0 never_throws1 4 = ([], Ok tt).
Proof. reflexivity. Qed.

Example worker_swallows :
  sm_thread_entry_1d (fun i => if i =? 1 then Some (other_exn 7) else None)
                     (Some (SM_ThreadArg_new 0 4))
  = ([EvCall1 0; EvCall1 1], Ok tt).
Proof. reflexivity. Qed.

Example run_3x4_2 :
  parallel_for_2d always_ok 0 3 0 4 never_throws2 2
  = ([EvCreate 0 (mkArg 0 6 0 0 4);
      EvCall2 1 2; EvCall2 1 3; EvCall2 2 0; EvCall2 2 1; EvCall2 2 2;
      EvCall2 2 3; EvJoin 0;
      EvPrint "[SimpleMultithreader] parallel_for(2D) time = "], Ok tt).
Proof. reflexivity. Qed.

Example run_2d_too_large :
  parallel_for_2d always_ok 0 65536 0 65536 never_throws2 4
  = ([], Throw (runtime_error "2D range too large")).
Proof. reflexivity. Qed.

(** ** Integers and ranges *)

Lemma wrap_int_small (z : Z) : is_int z -> wrap_int z = z.
Proof. unfold is_int, wrap_int, INT_MIN, INT_MAX. intros H. rewrite Z.mod_small; lia. Qed.

Lemma wrap_int_is_int (z : Z) : is_int (wrap_int z).
Proof.
  unfold is_int, wrap_int, INT_MIN, INT_MAX.
  pose proof (Z.mod_pos_bound (z + 2147483648) 4294967296). lia.
Qed.

Lemma wrap_int_idem (z : Z) : wrap_int (wrap_int z) = wrap_int z.
Proof. apply wrap_int_small, wrap_int_is_int. Qed.

Lemma wrap_int_add_l (a b : Z) : wrap_int (wrap_int a + b) = wrap_int (a + b).
Proof.
  unfold wrap_int. f_equal.
  replace ((a + 2147483648) mod 4294967296 - 2147483648 + b + 2147483648)
    with ((a + 2147483648) mod 4294967296 + b) by lia.
  rewrite Z.add_mod_idemp_l by lia. f_equal. lia.
Qed.

Lemma wrap_ll_small (z : Z) :
  - LLONG_MAX - 1 <= z <= LLONG_MAX -> wrap_ll z = z.
Proof. unfold wrap_ll, LLONG_MAX. intros H. rewrite Z.mod_small; lia. Qed.

Lemma int_range_nil (s e : Z) : e <= s -> int_range s e = [].
Proof.
  intros H. unfold int_range. replace (Z.to_nat (e - s)) with O by lia. reflexivity.
Qed.

Lemma int_range_cons (s e : Z) :
  s < e -> int_range s e = s :: int_range (s + 1) e.
Proof.
  intros H. unfold int_range.
  replace (Z.to_nat (e - s)) with (S (Z.to_nat (e - (s + 1)))) by lia.
  cbn [seq map]. f_equal; [lia|].
  rewrite <- seq_shift, map_map. apply map_ext. intros k. lia.
Qed.

Lemma int_range_snoc (s e : Z) :
  s <= e -> int_range s (e + 1) = int_range s e ++ [e].
Proof.
  intros H. unfold int_range.
  replace (Z.to_nat (e + 1 - s)) with (S (Z.to_nat (e - s))) by lia.
  rewrite seq_S, map_app. cbn [map Nat.add]. do 2 f_equal. lia.
Qed.

Lemma int_range_In (s e i : Z) : In i (int_range s e) <-> s <= i < e.
Proof.
  unfold int_range. rewrite in_map_iff. split.
  - intros [k [<- Hk]]. apply in_seq in Hk. lia.
  - intros H. exists (Z.to_nat (i - s)). split; [lia|]. apply in_seq. lia.
Qed.

Lemma int_range_length (s e : Z) :
  List.length (int_range s e) = Z.to_nat (e - s).
Proof. unfold int_range. now rewrite length_map, length_seq. Qed.

Lemma int_range_app (s m e : Z) :
  s <= m <= e -> int_range s m ++ int_range m e = int_range s e.
Proof.
  intros H. remember (Z.to_nat (m - s)) as n eqn:Hn.
  revert s H Hn. induction n as [|n IH]; intros s H Hn.
  - assert (s = m) by lia. subst. now rewrite int_range_nil by lia.
  - rewrite (int_range_cons s m), (int_range_cons s e) by lia.
    cbn [app]. f_equal. apply IH; lia.
Qed.

Lemma int_range_sorted (s e : Z) : StronglySorted Z.lt (int_range s e).
Proof.
  remember (Z.to_nat (e - s)) as n eqn:Hn.
  revert s Hn. induction n as [|n IH]; intros s Hn.
  - rewrite int_range_nil by lia. constructor.
  - rewrite int_range_cons by lia. constructor.
    + apply IH. lia.
    + apply Forall_forall. intros x Hx. apply int_range_In in Hx. lia.
Qed.

Lemma sorted_lt_NoDup (l : list Z) : StronglySorted Z.lt l -> NoDup l.
Proof.
  induction 1 as [|a l Hl IH Ha]; constructor; auto.
  intros Hin. rewrite Forall_forall in Ha. specialize (Ha a Hin). lia.
Qed.

Lemma int_range_NoDup (s e : Z) : NoDup (int_range s e).
Proof. apply sorted_lt_NoDup, int_range_sorted. Qed.

Lemma firstn_In_l {A} (m : nat) (l : list A) (x : A) :
  In x (firstn m l) -> In x l.
Proof.
  rewrite <- (firstn_skipn m l) at 2. intros H. apply in_or_app. now left.
Qed.

Lemma firstn_sorted {A} (R : A -> A -> Prop) (m : nat) (l : list A) :
  StronglySorted R l -> StronglySorted R (firstn m l).
Proof.
  intros H. revert m. induction H as [|a l Hl IH Ha]; intros [|m]; cbn; try constructor.
  - apply IH.
  - apply Forall_forall. intros x Hx.
    rewrite Forall_forall in Ha. apply Ha. revert Hx. apply firstn_In_l.
Qed.

(** ** The partitioner *)

Section SplitTheory.
Variables low high n : Z.
Hypothesis Hlow : is_int low.
Hypothesis Hhigh : is_int high.
Hypothesis Hlt : low < high.
Hypothesis Hfit : high - low <= INT_MAX.
Hypothesis Hn : 1 <= n.

Let total := high - low.
Let base := total / n.
Let rem := total mod n.
Let off := part_offset low base rem.

Lemma split_base_rem : total = n * base + rem /\ 0 <= base /\ 0 <= rem < n.
Proof.
  subst base rem. split; [apply Z.div_mod; lia|].
  split; [apply Z.div_pos; subst total; lia | apply Z.mod_pos_bound; lia].
Qed.

Lemma off_0 : off 0 = low.
Proof. subst off. unfold part_offset. pose proof split_base_rem. lia. Qed.

Lemma off_n : off n = high.
Proof. subst off. unfold part_offset. pose proof split_base_rem. subst total. lia. Qed.

Lemma off_succ (t : Z) :
  off (t + 1) = off t + (base + if t <? rem then 1 else 0).
Proof. subst off. unfold part_offset. destruct (Z.ltb_spec t rem); lia. Qed.

Lemma off_range (t : Z) : 0 <= t <= n -> low <= off t <= high.
Proof.
  intros Ht. rewrite <- off_n. subst off. unfold part_offset.
  pose proof split_base_rem as (_ & Hb & Hr). nia.
Qed.

Lemma split_add_is_int (t : Z) :
  0 <= t -> is_int (base + if t <? rem then 1 else 0).
Proof.
  intros Ht0.
  pose proof split_base_rem as (Ht & Hb & Hr).
  unfold is_int, INT_MIN, INT_MAX in *. subst total.
  assert (base <= n * base) by nia.
  destruct (Z.ltb_spec t rem); [|lia].
  assert (2 * base <= n * base) by nia. lia.
Qed.

Lemma split_step_off (t : Z) (acc : list (Z * Z)) :
  0 <= t < n ->
  split_step base rem (off t, acc) t = (off (t + 1), acc ++ [(off t, off (t + 1))]).
Proof.
  intros Ht. unfold split_step, int_add.
  assert (Hadd : wrap_int (base + (if t <? rem then 1 else 0))
                 = base + if t <? rem then 1 else 0).
  { destruct (t <? rem) eqn:E.
    - apply wrap_int_small. pose proof (split_add_is_int t) as H. rewrite E in H. apply H; lia.
    - apply wrap_int_small. pose proof (split_add_is_int t) as H. rewrite E in H. apply H; lia. }
  rewrite Hadd, <- off_succ.
  rewrite wrap_int_small; [reflexivity|].
  pose proof (off_range (t + 1)). unfold is_int, INT_MIN, INT_MAX in *. lia.
Qed.

Lemma split_loop_off (k : nat) :
  Z.of_nat k <= n ->
  fold_left (split_step base rem) (int_range 0 (Z.of_nat k)) (low, [])
  = (off (Z.of_nat k),
     map (fun t => (off t, off (t + 1))) (int_range 0 (Z.of_nat k))).
Proof.
  induction k as [|k IH]; intros Hk.
  - cbn. now rewrite off_0.
  - replace (Z.of_nat (S k)) with (Z.of_nat k + 1) by lia.
    rewrite int_range_snoc by lia.
    rewrite fold_left_app, IH by lia. cbn [fold_left].
    rewrite split_step_off by lia. now rewrite map_app.
Qed.

(** The loop computes the balanced layout. *)
Lemma sm_split_range_closed_form :
  sm_split_range low high n
  = map (fun t => (off t, off (t + 1))) (int_range 0 n).
Proof.
  pose proof split_base_rem as (Ht & Hb & Hr).
  unfold sm_split_range.
  destruct (Z.leb_spec n 0); [lia|].
  destruct (Z.geb_spec low high); [lia|].
  assert (Htot : int_sub high low = total).
  { unfold int_sub. apply wrap_int_small. unfold is_int, INT_MIN, INT_MAX in *. lia. }
  assert (Hq : int_quot total n = base).
  { unfold int_quot. rewrite Z.quot_div_nonneg by (subst total; lia).
    apply wrap_int_small. unfold is_int, INT_MIN, INT_MAX in *. subst total. nia. }
  assert (Hr' : int_rem total n = rem).
  { unfold int_rem. rewrite Z.rem_mod_nonneg by (subst total; lia).
    apply wrap_int_small. unfold is_int, INT_MIN, INT_MAX in *. subst total. nia. }
  rewrite Htot, Hq, Hr'.
  pose proof (split_loop_off (Z.to_nat n)) as Hloop.
  rewrite Z2Nat.id in Hloop by lia.
  rewrite Hloop by lia. reflexivity.
Qed.

Lemma contiguous_from_off (k : nat) (a : Z) :
  0 <= a -> a + Z.of_nat k <= n ->
  contiguous_from (off a)
    (map (fun t => (off t, off (t + 1))) (int_range a (a + Z.of_nat k)))
    (off (a + Z.of_nat k)).
Proof.
  revert a. induction k as [|k IH]; intros a Ha Hk.
  - rewrite int_range_nil by lia. cbn. f_equal. lia.
  - rewrite int_range_cons by lia. cbn [map contiguous_from].
    split; [reflexivity|]. split.
    + rewrite off_succ. pose proof split_base_rem.
      destruct (a <? rem); lia.
    + replace (a + Z.of_nat (S k)) with (a + 1 + Z.of_nat k) by lia.
      apply IH; lia.
Qed.

Lemma sm_split_range_contiguous :
  contiguous_from low (sm_split_range low high n) high.
Proof.
  rewrite sm_split_range_closed_form, <- off_0, <- off_n.
  pose proof (contiguous_from_off (Z.to_nat n) 0) as H.
  replace (0 + Z.of_nat (Z.to_nat n)) with n in H by lia.
  apply H; lia.
Qed.

Lemma sm_split_range_nth (t : Z) :
  0 <= t < n ->
  nth_error (sm_split_range low high n) (Z.to_nat t)
  = Some (off t, off (t + 1)).
Proof.
  intros Ht. rewrite sm_split_range_closed_form.
  unfold int_range. rewrite map_map.
  rewrite nth_error_map, nth_error_seq.
  destruct (Nat.ltb_spec (Z.to_nat t) (Z.to_nat (n - 0))); [|lia].
  cbn [option_map Nat.add].
  replace (0 + Z.of_nat (Z.to_nat t)) with t by lia.
  reflexivity.
Qed.
End SplitTheory.

(** ** The skeleton is what the entry points execute *)

Lemma parallel_for_1d_eq ok low high f n :
  parallel_for_1d ok low high f n
  = if low >=? high then ret tt
    else fork_join ok mk_arg_1d "pthread_create failed (1D)"
           (call1 f)
           "[SimpleMultithreader] parallel_for(1D) time = "
           (fst (fallback low high (coerce n)))
           (snd (fallback low high (coerce n))).
Proof.
  unfold parallel_for_1d, fallback, coerce.
  destruct (low >=? high); [reflexivity|].
  destruct (negb _); reflexivity.
Qed.

Lemma parallel_for_2d_eq ok low1 high1 low2 high2 f n :
  parallel_for_2d ok low1 high1 low2 high2 f n
  = if (low1 >=? high1) || (low2 >=? high2) then ret tt
    else
      let cols := int_sub high2 low2 in
      let total := ll_mul (int_sub high1 low1) cols in
      if total <=? 0 then ret tt
      else if total >? INT_MAX then throw (runtime_error "2D range too large")
      else fork_join ok (mk_arg_2d low1 low2 (wrap_int cols))
             "pthread_create failed (2D)"
             (flat_body f low1 low2 (wrap_int cols))
             "[SimpleMultithreader] parallel_for(2D) time = "
             (fst (fallback 0 (wrap_int total) (coerce n)))
             (snd (fallback 0 (wrap_int total) (coerce n))).
Proof.
  unfold parallel_for_2d, fallback, coerce. cbv zeta.
  destruct (_ || _); [reflexivity|].
  destruct (_ <=? 0); [reflexivity|].
  destruct (_ >? INT_MAX); [reflexivity|].
  destruct (negb _); reflexivity.
Qed.

(** ** Partitions that lie end to end *)

Lemma contiguous_from_le cur parts high :
  contiguous_from cur parts high -> cur <= high.
Proof.
  revert cur. induction parts as [|[s e] ps IH]; cbn; intros cur H.
  - lia.
  - destruct H as (-> & Hle & H). apply IH in H. lia.
Qed.

Lemma contiguous_from_flat cur parts high :
  contiguous_from cur parts high ->
  flat_map (fun p => int_range (fst p) (snd p)) parts = int_range cur high.
Proof.
  revert cur. induction parts as [|[s e] ps IH]; cbn; intros cur H.
  - subst. now rewrite int_range_nil by lia.
  - destruct H as (-> & Hle & H). rewrite (IH _ H).
    apply int_range_app. apply contiguous_from_le in H. lia.
Qed.

Lemma contiguous_from_cover cur parts high i :
  contiguous_from cur parts high ->
  List.length (covering i parts)
  = if (cur <=? i) && (i <? high) then 1%nat else 0%nat.
Proof.
  revert cur. induction parts as [|[s e] ps IH]; cbn; intros cur H.
  - subst. destruct (Z.leb_spec high i), (Z.ltb_spec i high); cbn; lia.
  - destruct H as (-> & Hle & H). pose proof (contiguous_from_le _ _ _ H) as Hh.
    specialize (IH _ H). unfold covering in IH.
    destruct (Z.leb_spec cur i), (Z.ltb_spec i e); cbn [andb List.length];
      rewrite IH;
      destruct (Z.leb_spec e i), (Z.ltb_spec i high); cbn; lia.
Qed.

Lemma contiguous_from_bounds cur parts high p :
  contiguous_from cur parts high -> In p parts ->
  cur <= fst p /\ fst p <= snd p /\ snd p <= high.
Proof.
  revert cur. induction parts as [|[s e] ps IH]; cbn; intros cur H Hin.
  - contradiction.
  - destruct H as (-> & Hle & H). pose proof (contiguous_from_le _ _ _ H).
    destruct Hin as [<- | Hin]; cbn; [lia|].
    specialize (IH _ H Hin). lia.
Qed.

(** The vector always has [numPieces] entries, whatever the arithmetic
    did. *)
Lemma split_loop_length base rem xs cur acc :
  List.length (snd (fold_left (split_step base rem) xs (cur, acc)))
  = (List.length acc + List.length xs)%nat.
Proof.
  revert cur acc. induction xs as [|x xs IH]; intros cur acc; cbn [fold_left].
  - cbn. lia.
  - unfold split_step at 2. rewrite IH, length_app. cbn. lia.
Qed.

Lemma sm_split_range_length low high n :
  1 <= n -> List.length (sm_split_range low high n) = Z.to_nat n.
Proof.
  intros Hn. unfold sm_split_range.
  destruct (Z.leb_spec n 0); [lia|].
  destruct (low >=? high).
  - rewrite length_map, int_range_length. lia.
  - rewrite split_loop_length, int_range_length. cbn. lia.
Qed.

Lemma fallback_shape low high n :
  1 <= n ->
  let parts := fst (fallback low high n) in
  let n' := snd (fallback low high n) in
  1 <= n' <= INT_MAX /\ List.length parts = Z.to_nat n'
  /\ (is_int n -> n' = n /\ parts = sm_split_range low high n).
Proof.
  intros Hn. unfold fallback, vec_size.
  rewrite sm_split_range_length by lia. rewrite Z2Nat.id by lia.
  destruct (Z.eqb_spec (wrap_int n) n) as [E|E]; cbn [negb fst snd].
  - pose proof (wrap_int_is_int n) as Hi. rewrite E in Hi.
    unfold is_int, INT_MAX in *.
    split; [lia|]. split; [now apply sm_split_range_length|]. auto.
  - unfold INT_MAX.
    split; [lia|]. split; [now rewrite sm_split_range_length by lia|].
    intros Hi. now apply wrap_int_small in Hi.
Qed.

Lemma coerce_pos n : 1 <= coerce n.
Proof. unfold coerce. destruct (Z.leb_spec n 0); lia. Qed.

(** ** Computing in the monad *)

Lemma bind_ret_l {A B} (a : A) (k : A -> M B) : bind (ret a) k = k a.
Proof. unfold bind, ret. now destruct (k a). Qed.

Lemma bind_emit {B} (ev : event) (k : unit -> M B) :
  bind (emit ev) k = (ev :: trace (k tt), outcome (k tt)).
Proof. unfold bind, emit, trace, outcome. now destruct (k tt). Qed.

Lemma bind_pair {A B} (m : M A) (k : A -> M B) :
  bind m k
  = match outcome m with
    | Ok a => (trace m ++ trace (k a), outcome (k a))
    | Throw e => (trace m, Throw e)
    | Fault f => (trace m, Fault f)
    end.
Proof.
  destruct m as [tr [a|e|f]]; cbn; try reflexivity. now destruct (k a).
Qed.

Lemma join_all_eq tids : join_all tids = (map EvJoin tids, Ok tt).
Proof.
  unfold join_all. induction tids as [|t tids IH]; [reflexivity|].
  cbn [for_each map]. now rewrite bind_emit, IH.
Qed.

Lemma vec_at_nth {X} (v : list X) (t : Z) (d : X) :
  0 <= t < Z.of_nat (List.length v) ->
  vec_at v t = ret (nth (Z.to_nat t) v d).
Proof.
  intros Ht. unfold vec_at. destruct (Z.ltb_spec t 0); [lia|].
  destruct (nth_error v (Z.to_nat t)) eqn:E.
  - now rewrite (nth_error_nth _ _ d E).
  - apply nth_error_None in E. lia.
Qed.

(** ** Trace projections *)

Lemma created_app tr1 tr2 : created (tr1 ++ tr2) = created tr1 ++ created tr2.
Proof. induction tr1 as [|[] tr1 IH]; cbn; congruence. Qed.

Lemma created_tids_app tr1 tr2 :
  created_tids (tr1 ++ tr2) = created_tids tr1 ++ created_tids tr2.
Proof. induction tr1 as [|[] tr1 IH]; cbn; congruence. Qed.

Lemma joined_tids_app tr1 tr2 :
  joined_tids (tr1 ++ tr2) = joined_tids tr1 ++ joined_tids tr2.
Proof. induction tr1 as [|[] tr1 IH]; cbn; congruence. Qed.

Lemma calls1_app tr1 tr2 : calls1 (tr1 ++ tr2) = calls1 tr1 ++ calls1 tr2.
Proof. induction tr1 as [|[] tr1 IH]; cbn; congruence. Qed.

Lemma calls2_app tr1 tr2 : calls2 (tr1 ++ tr2) = calls2 tr1 ++ calls2 tr2.
Proof. induction tr1 as [|[] tr1 IH]; cbn; congruence. Qed.

Lemma create_events_created mk parts k :
  created (create_events mk parts k)
  = map (fun t => mk (nth (Z.to_nat t) parts (0, 0))) (int_range 0 k).
Proof.
  unfold create_events. induction (int_range 0 k) as [|x l IH]; cbn [map created created_tids joined_tids calls1 calls2];
    [reflexivity | now rewrite ?IH].
Qed.

Lemma create_events_tids mk parts k :
  created_tids (create_events mk parts k) = int_range 0 k.
Proof.
  unfold create_events. induction (int_range 0 k) as [|x l IH]; cbn [map created created_tids joined_tids calls1 calls2];
    [reflexivity | now rewrite ?IH].
Qed.

Lemma create_events_no_join mk parts k :
  joined_tids (create_events mk parts k) = [].
Proof.
  unfold create_events. induction (int_range 0 k) as [|x l IH]; cbn [map created created_tids joined_tids calls1 calls2];
    [reflexivity | now rewrite ?IH].
Qed.

Lemma create_events_no_call1 mk parts k :
  calls1 (create_events mk parts k) = [].
Proof.
  unfold create_events. induction (int_range 0 k) as [|x l IH]; cbn [map created created_tids joined_tids calls1 calls2];
    [reflexivity | now rewrite ?IH].
Qed.

Lemma create_events_no_call2 mk parts k :
  calls2 (create_events mk parts k) = [].
Proof.
  unfold create_events. induction (int_range 0 k) as [|x l IH]; cbn [map created created_tids joined_tids calls1 calls2];
    [reflexivity | now rewrite ?IH].
Qed.

Lemma joins_created tids : created (map EvJoin tids) = [].
Proof. induction tids; cbn; congruence. Qed.

Lemma joins_created_tids tids : created_tids (map EvJoin tids) = [].
Proof. induction tids; cbn; congruence. Qed.

Lemma joins_joined tids : joined_tids (map EvJoin tids) = tids.
Proof. induction tids as [|t tids IH]; cbn; [reflexivity | now rewrite IH]. Qed.

Lemma joins_no_call1 tids : calls1 (map EvJoin tids) = [].
Proof. induction tids; cbn; congruence. Qed.

Lemma joins_no_call2 tids : calls2 (map EvJoin tids) = [].
Proof. induction tids; cbn; congruence. Qed.

(** ** The creation loop *)

Section SpawnLoop.
Variable ok : Z -> bool.
Variable mk : Z * Z -> SM_ThreadArg.
Variable msg : string.
Variable parts : list (Z * Z).

Let cr (t : Z) : event := EvCreate t (mk (nth (Z.to_nat t) parts (0, 0))).
Let in_bounds (t : Z) : Prop := 0 <= t < Z.of_nat (List.length parts).

Lemma spawn_loop_ok (xs : list Z) (tids0 : list pthread_t) :
  (forall t, In t xs -> ok t = true /\ in_bounds t) ->
  fold_for xs (spawn_body ok mk msg parts) tids0
  = (map cr xs, Ok (tids0 ++ xs)).
Proof.
  revert tids0. induction xs as [|x xs IH]; intros tids0 H.
  - cbn. now rewrite app_nil_r.
  - cbn [fold_for map]. destruct (H x (or_introl eq_refl)) as [Hx Hb].
    unfold spawn_body at 1.
    rewrite (vec_at_nth _ _ (0, 0)) by exact Hb.
    rewrite bind_ret_l. cbv zeta. rewrite Hx.
    rewrite bind_emit. cbn [outcome trace fst snd ret].
    rewrite bind_pair. cbn [outcome trace fst snd].
    rewrite IH by (intros t Ht; apply H; now right).
    cbn. now rewrite <- app_assoc.
Qed.

Lemma spawn_loop_fail (pre post : list Z) (k : Z) (tids0 : list pthread_t) :
  (forall t, In t pre -> ok t = true /\ in_bounds t) ->
  ok k = false -> in_bounds k ->
  fold_for (pre ++ k :: post) (spawn_body ok mk msg parts) tids0
  = (map cr pre ++ EvCreateFailed k :: map EvJoin (tids0 ++ pre),
     Throw (runtime_error msg)).
Proof.
  revert tids0. induction pre as [|x pre IH]; intros tids0 H Hk Hb.
  - cbn [app fold_for map]. unfold spawn_body at 1.
    rewrite (vec_at_nth _ _ (0, 0)) by exact Hb.
    rewrite bind_ret_l. cbv zeta. rewrite Hk.
    rewrite bind_emit, join_all_eq, bind_pair.
    cbn. now rewrite !app_nil_r.
  - cbn [app fold_for map]. destruct (H x (or_introl eq_refl)) as [Hx Hbx].
    unfold spawn_body at 1.
    rewrite (vec_at_nth _ _ (0, 0)) by exact Hbx.
    rewrite bind_ret_l. cbv zeta. rewrite Hx.
    rewrite bind_emit. cbn [outcome trace fst snd ret].
    rewrite bind_pair. cbn [outcome trace fst snd].
    rewrite IH; auto; [|intros t Ht; apply H; now right].
    cbn. now rewrite <- app_assoc.
Qed.
End SpawnLoop.

Lemma first_failure (ok : Z -> bool) (m : nat) :
  (forall t, 0 <= t < Z.of_nat m -> ok t = true)
  \/ (exists k, 0 <= k < Z.of_nat m /\ ok k = false
                /\ forall t, 0 <= t < k -> ok t = true).
Proof.
  induction m as [|m [IH | (k & Hk & Hf & Hp)]].
  - left. lia.
  - destruct (ok (Z.of_nat m)) eqn:E.
    + left. intros t Ht. destruct (Z.eq_dec t (Z.of_nat m)) as [->|]; auto.
      apply IH. lia.
    + right. exists (Z.of_nat m). repeat split; auto; lia.
  - right. exists k. repeat split; auto; lia.
Qed.

(** ** The shape of every run of the skeleton *)

Lemma fork_join_cases ok mk msg work line parts n :
  1 <= n <= INT_MAX -> List.length parts = Z.to_nat n ->
  let p := nth (Z.to_nat (n - 1)) parts (0, 0) in
  let main := for_int (fst p) (snd p) work in
  ((forall t, 0 <= t < n - 1 -> ok t = true) /\
   fork_join ok mk msg work line parts n
   = (create_events mk parts (n - 1) ++ trace main ++
        match outcome main with
        | Ok _ => map EvJoin (int_range 0 (n - 1)) ++ [EvPrint line]
        | _ => []
        end,
      outcome main))
  \/ (exists k, 0 <= k < n - 1 /\ ok k = false
        /\ (forall t, 0 <= t < k -> ok t = true)
        /\ fork_join ok mk msg work line parts n
           = (create_events mk parts k
                ++ EvCreateFailed k :: map EvJoin (int_range 0 k),
              Throw (runtime_error msg))).
Proof.
  intros Hn Hlen p main. unfold fork_join.
  assert (Hsub : int_sub n 1 = n - 1).
  { apply wrap_int_small. unfold is_int, INT_MIN, INT_MAX in *. lia. }
  rewrite Hsub.
  destruct (first_failure ok (Z.to_nat (n - 1))) as [Hall | (k & Hk & Hf & Hp)].
  - left. split; [intros t Ht; apply Hall; lia|].
    rewrite (spawn_loop_ok ok mk msg parts (int_range 0 (n - 1)) []).
    2:{ intros t Ht. apply int_range_In in Ht. split; [apply Hall|]; lia. }
    rewrite bind_pair. cbn [outcome trace fst snd app].
    rewrite (vec_at_nth _ _ (0, 0)) by lia. rewrite bind_ret_l.
    fold p. fold main. rewrite bind_pair.
    fold (create_events mk parts (n - 1)). clearbody main.
    destruct main as [trm [[]|e|f]]; cbn [outcome trace fst snd].
    + rewrite join_all_eq, bind_pair. cbn. reflexivity.
    + now rewrite app_nil_r.
    + now rewrite app_nil_r.
  - right. exists k. split; [lia|]. split; [exact Hf|]. split; [exact Hp|].
    rewrite <- (int_range_app 0 k (n - 1)) by lia.
    rewrite (int_range_cons k (n - 1)) by lia.
    rewrite (spawn_loop_fail ok mk msg parts); auto; try lia.
    intros t Ht. apply int_range_In in Ht. split; [apply Hp|]; lia.
Qed.

(** ** The index loops *)

Lemma call1_eq f i :
  call1 f i
  = ([EvCall1 i], match f i with Some e => Throw e | None => Ok tt end).
Proof. unfold call1. rewrite bind_emit. now destruct (f i). Qed.

Lemma call2_eq f i j :
  call2 f i j
  = ([EvCall2 i j], match f i j with Some e => Throw e | None => Ok tt end).
Proof. unfold call2. rewrite bind_emit. now destruct (f i j). Qed.

Lemma flat_body_eq f l1 l2 w flat :
  flat_body f l1 l2 w flat
  = if w =? 0 then trap DivByZero
    else if (flat =? INT_MIN) && (w =? -1) then trap DivOverflow
    else call2 f (fst (unflatten l1 l2 w flat)) (snd (unflatten l1 l2 w flat)).
Proof.
  unfold flat_body, int_div, int_mod, unflatten.
  destruct (w =? 0); [reflexivity|].
  destruct ((flat =? INT_MIN) && (w =? -1)); [reflexivity|].
  now rewrite !bind_ret_l.
Qed.

Lemma for_each_cons {X} (x : X) xs body :
  for_each (x :: xs) body
  = match outcome (body x) with
    | Ok _ => (trace (body x) ++ trace (for_each xs body),
               outcome (for_each xs body))
    | Throw e => (trace (body x), Throw e)
    | Fault f => (trace (body x), Fault f)
    end.
Proof. cbn [for_each]. apply bind_pair. Qed.

(** A loop whose callback never throws visits the whole range. *)
Lemma for_each_call1_ok f xs :
  (forall x, In x xs -> f x = None) ->
  for_each xs (call1 f) = (map EvCall1 xs, Ok tt).
Proof.
  induction xs as [|x xs IH]; intros H; [reflexivity|].
  rewrite for_each_cons, call1_eq, (H x (or_introl eq_refl)).
  cbn [outcome trace fst snd]. rewrite IH by (intros; apply H; now right).
  reflexivity.
Qed.

(** A loop stops at the first index on which the callback throws. *)
Lemma for_each_call1_throw f pre i post e :
  (forall x, In x pre -> f x = None) -> f i = Some e ->
  for_each (pre ++ i :: post) (call1 f)
  = (map EvCall1 (pre ++ [i]), Throw e).
Proof.
  induction pre as [|x pre IH]; intros H Hi; cbn [app].
  - now rewrite for_each_cons, call1_eq, Hi.
  - rewrite for_each_cons, call1_eq, (H x (or_introl eq_refl)).
    cbn [outcome trace fst snd]. rewrite IH; auto.
    intros; apply H; now right.
Qed.

(** In every case the visited indices are an initial segment of the
    range, in the order of the range. *)
Lemma for_each_call1_prefix f xs :
  exists m, trace (for_each xs (call1 f)) = map EvCall1 (firstn m xs).
Proof.
  induction xs as [|x xs [m IH]].
  - now exists O.
  - rewrite for_each_cons, call1_eq. destruct (f x); cbn [outcome trace fst snd].
    + now exists 1%nat.
    + exists (S m). now rewrite IH.
Qed.

Lemma for_each_call1_outcome f xs :
  match outcome (for_each xs (call1 f)) with
  | Ok _ => forall x, In x xs -> f x = None
  | Throw e => exists x, In x xs /\ f x = Some e
  | Fault _ => False
  end.
Proof.
  induction xs as [|x xs IH]; [cbn; tauto|].
  rewrite for_each_cons, call1_eq. destruct (f x) eqn:E; cbn [outcome trace fst snd].
  - exists x. split; [now left | exact E].
  - destruct (outcome (for_each xs (call1 f))) as [[]|e|ft].
    + intros y [<-|Hy]; auto.
    + destruct IH as (y & Hy & Hf). exists y. split; [now right | exact Hf].
    + exact IH.
Qed.

Lemma calls1_map_call xs : calls1 (map EvCall1 xs) = xs.
Proof. induction xs as [|x xs IH]; cbn; [reflexivity | now rewrite IH]. Qed.

Lemma calls2_map_call (g : Z -> Z * Z) xs :
  calls2 (map (fun x => EvCall2 (fst (g x)) (snd (g x))) xs) = map g xs.
Proof.
  induction xs as [|x xs IH]; cbn; [reflexivity|].
  rewrite IH. now destruct (g x).
Qed.

Lemma for_each_flat_ok f l1 l2 w xs :
  w <> 0 -> (forall x, In x xs -> x <> INT_MIN) ->
  (forall x, In x xs ->
     f (fst (unflatten l1 l2 w x)) (snd (unflatten l1 l2 w x)) = None) ->
  for_each xs (flat_body f l1 l2 w)
  = (map (fun x => EvCall2 (fst (unflatten l1 l2 w x))
                           (snd (unflatten l1 l2 w x))) xs, Ok tt).
Proof.
  intros Hw. induction xs as [|x xs IH]; intros Hx H; [reflexivity|].
  rewrite for_each_cons, flat_body_eq.
  destruct (Z.eqb_spec w 0); [contradiction|].
  destruct (Z.eqb_spec x INT_MIN) as [E|_];
    [exfalso; now apply (Hx x (or_introl eq_refl))|].
  cbn [andb]. rewrite call2_eq, (H x (or_introl eq_refl)).
  cbn [outcome trace fst snd]. rewrite IH; auto.
  - intros; apply Hx; now right.
  - intros; apply H; now right.
Qed.

Lemma for_each_flat_no_div0 f l1 l2 w xs :
  w <> 0 -> outcome (for_each xs (flat_body f l1 l2 w)) <> Fault DivByZero.
Proof.
  intros Hw. induction xs as [|x xs IH]; [discriminate|].
  rewrite for_each_cons, flat_body_eq.
  destruct (Z.eqb_spec w 0); [contradiction|].
  destruct ((x =? INT_MIN) && (w =? -1)); [discriminate|].
  rewrite call2_eq. destruct (f _ _); cbn [outcome trace fst snd];
    [discriminate | exact IH].
Qed.

(** [catch (...)] leaves the events alone and turns a throw into a
    normal return. *)
Lemma try_catch_all_trace m : trace (try_catch_all m) = trace m.
Proof. now destruct m as [tr [[]|e|f]]. Qed.

Lemma try_catch_all_outcome m :
  outcome (try_catch_all m)
  = match outcome m with Throw _ => Ok tt | r => r end.
Proof. now destruct m as [tr [[]|e|f]]. Qed.

(** ** List bookkeeping *)

Lemma firstn_snoc {A} (l : list A) (k : nat) (d : A) :
  (k < List.length l)%nat -> firstn (S k) l = firstn k l ++ [nth k l d].
Proof.
  revert k. induction l as [|a l IH]; intros k Hk; cbn in Hk; [lia|].
  destruct k as [|k]; [reflexivity|].
  cbn [firstn nth app]. f_equal. apply IH. lia.
Qed.

Lemma nth_range_firstn {A} (l : list A) (d : A) (k : nat) :
  (k <= List.length l)%nat ->
  map (fun t => nth (Z.to_nat t) l d) (int_range 0 (Z.of_nat k)) = firstn k l.
Proof.
  induction k as [|k IH]; intros Hk; [reflexivity|].
  replace (Z.of_nat (S k)) with (Z.of_nat k + 1) by lia.
  rewrite int_range_snoc, map_app, IH by lia. cbn [map].
  rewrite Nat2Z.id. symmetry. apply firstn_snoc. lia.
Qed.

Lemma split_last {A} (l : list A) (d : A) (k : nat) :
  List.length l = S k -> l = firstn k l ++ [nth k l d].
Proof.
  intros H. rewrite <- firstn_snoc by lia.
  symmetry. apply firstn_all2. lia.
Qed.

Lemma count_occ_int_range (s e i : Z) :
  count_occ Z.eq_dec (int_range s e) i
  = if (s <=? i) && (i <? e) then 1%nat else 0%nat.
Proof.
  destruct (Z.leb_spec s i), (Z.ltb_spec i e); cbn [andb];
    try (apply count_occ_not_In; rewrite int_range_In; lia).
  apply NoDup_count_occ'; [apply int_range_NoDup | apply int_range_In; lia].
Qed.

(** * Properties of the specification *)

(** ** C2: the partitioner *)

(** C2, as amended.  For all [int]s [low < high] whose extent
    [high - low] is itself representable as an [int], and every
    [n >= 1], [sm_split_range low high n] has exactly [n] entries; they
    lie end to end from [low] to [high], none reversed; every index is in
    exactly one of them when it is in [[low, high)] and in none otherwise;
    with [base = total / n] and [rem = total % n], the first [rem]
    entries have [base + 1] elements and the others [base]; so two sizes
    never differ by more than one. *)
Theorem sm_split_range_balanced (low high n : Z) :
  is_int low -> is_int high -> low < high -> high - low <= INT_MAX ->
  1 <= n ->
  let total := high - low in
  let base := total / n in
  let rem := total mod n in
  let parts := sm_split_range low high n in
  Z.of_nat (List.length parts) = n
  /\ contiguous_from low parts high
  /\ (forall i, List.length (covering i parts)
                = if (low <=? i) && (i <? high) then 1%nat else 0%nat)
  /\ (forall t, 0 <= t < n ->
        exists p, nth_error parts (Z.to_nat t) = Some p
                  /\ part_size p = if t <? rem then base + 1 else base)
  /\ (forall p q, In p parts -> In q parts ->
        Z.abs (part_size p - part_size q) <= 1).
Proof.
  intros Hlow Hhigh Hlt Hfit Hn total base rem parts.
  assert (Hlen : Z.of_nat (List.length parts) = n).
  { subst parts. rewrite sm_split_range_length by lia. lia. }
  assert (Hsize : forall t, 0 <= t < n ->
            exists p, nth_error parts (Z.to_nat t) = Some p
                      /\ part_size p = if t <? rem then base + 1 else base).
  { intros t Ht. eexists. split.
    - apply sm_split_range_nth; assumption.
    - unfold part_size. cbn [fst snd]. rewrite off_succ. fold total base rem.
      destruct (t <? rem); lia. }
  split; [exact Hlen|]. split; [now apply sm_split_range_contiguous|].
  split; [intros i; apply contiguous_from_cover;
          now apply sm_split_range_contiguous|].
  split; [exact Hsize|].
  assert (Hin : forall p, In p parts -> part_size p = base \/ part_size p = base + 1).
  { intros p Hp. apply In_nth_error in Hp as [k Hk].
    assert (Hk' : (k < List.length parts)%nat) by (apply nth_error_Some; congruence).
    destruct (Hsize (Z.of_nat k)) as (p' & Hp' & Hs); [lia|].
    rewrite Nat2Z.id, Hk in Hp'. injection Hp' as <-.
    destruct (Z.of_nat k <? rem); lia. }
  intros p q Hp Hq. destruct (Hin p Hp), (Hin q Hq); lia.
Qed.

(** The theorem applies to the example of the spec. *)
Lemma sm_split_range_balanced_witness :
  let parts := sm_split_range 0 10 3 in
  Z.of_nat (List.length parts) = 3
  /\ contiguous_from 0 parts 10
  /\ (forall i, List.length (covering i parts)
                = if (0 <=? i) && (i <? 10) then 1%nat else 0%nat)
  /\ (forall t, 0 <= t < 3 ->
        exists p, nth_error parts (Z.to_nat t) = Some p
                  /\ part_size p = if t <? 10 mod 3 then 10 / 3 + 1 else 10 / 3)
  /\ (forall p q, In p parts -> In q parts ->
        Z.abs (part_size p - part_size q) <= 1).
Proof.
  apply (sm_split_range_balanced 0 10 3);
    unfold is_int, INT_MIN, INT_MAX; lia.
Defined.

(** C2 as stated fails when the extent of the range does not fit an
    [int]: [high - low] wraps to [-1], every partition comes out empty
    and nothing is covered. *)
Lemma sm_split_range_wide_range :
  INT_MIN < INT_MAX /\ 1 <= 2
  /\ sm_split_range INT_MIN INT_MAX 2
     = [(INT_MIN, INT_MIN); (INT_MIN, INT_MIN)]
  /\ covering 0 (sm_split_range INT_MIN INT_MAX 2) = []
  /\ ~ contiguous_from INT_MIN (sm_split_range INT_MIN INT_MAX 2) INT_MAX.
Proof.
  split; [reflexivity|]. split; [lia|]. split; [reflexivity|].
  split; [reflexivity|].
  intros H. vm_compute in H. destruct H as (_ & _ & _ & _ & H). discriminate H.
Qed.

(** ** Runs in which every worker is created *)

Lemma fork_join_all_created ok mk msg work line parts n :
  1 <= n <= INT_MAX -> List.length parts = Z.to_nat n ->
  (forall t, 0 <= t < n - 1 -> ok t = true) ->
  let p := nth (Z.to_nat (n - 1)) parts (0, 0) in
  let main := for_int (fst p) (snd p) work in
  fork_join ok mk msg work line parts n
  = (create_events mk parts (n - 1) ++ trace main ++
       match outcome main with
       | Ok _ => map EvJoin (int_range 0 (n - 1)) ++ [EvPrint line]
       | _ => []
       end,
     outcome main).
Proof.
  intros Hn Hlen Hok p main.
  destruct (fork_join_cases ok mk msg work line parts n Hn Hlen)
    as [[_ H] | (k & Hk & Hf & _)]; [exact H|].
  rewrite Hok in Hf by lia. discriminate.
Qed.

Lemma create_events_firstn mk parts k :
  0 <= k <= Z.of_nat (List.length parts) ->
  created (create_events mk parts k) = map mk (firstn (Z.to_nat k) parts).
Proof.
  intros Hk. rewrite create_events_created.
  rewrite <- (nth_range_firstn parts (0, 0)) by lia.
  rewrite map_map, Z2Nat.id by lia. reflexivity.
Qed.

Lemma calls_created xs : created (map EvCall1 xs) = [].
Proof. induction xs; cbn; congruence. Qed.

Lemma calls_created_tids xs : created_tids (map EvCall1 xs) = [].
Proof. induction xs; cbn; congruence. Qed.

Lemma calls_no_join xs : joined_tids (map EvCall1 xs) = [].
Proof. induction xs; cbn; congruence. Qed.

Lemma calls2_created (g : Z -> Z * Z) xs :
  created (map (fun x => EvCall2 (fst (g x)) (snd (g x))) xs) = [].
Proof. induction xs; cbn; congruence. Qed.

Lemma sm_thread_entry_1d_ok f s e :
  (forall i, s <= i < e -> f i = None) ->
  sm_thread_entry_1d f (Some (mk_arg_1d (s, e)))
  = (map EvCall1 (int_range s e), Ok tt).
Proof.
  intros H. unfold sm_thread_entry_1d, mk_arg_1d, SM_ThreadArg_new, for_int.
  cbn [start_idx end_idx fst snd].
  rewrite for_each_call1_ok; [reflexivity|].
  intros x Hx. apply H. now apply int_range_In.
Qed.

Lemma workers_1d_calls f (ps : list (Z * Z)) :
  (forall p i, In p ps -> fst p <= i < snd p -> f i = None) ->
  flat_map (fun arg => calls1 (trace (sm_thread_entry_1d f (Some arg))))
           (map mk_arg_1d ps)
  = flat_map (fun p => int_range (fst p) (snd p)) ps.
Proof.
  induction ps as [|[s e] ps IH]; intros H; [reflexivity|].
  cbn [map flat_map]. rewrite sm_thread_entry_1d_ok.
  - cbn [trace fst snd]. rewrite calls1_map_call, IH; [reflexivity|].
    intros p i Hp. apply H. now right.
  - intros i Hi. apply (H (s, e)); [now left | exact Hi].
Qed.

(** The run of the 1-D entry point when nothing fails. *)
Lemma parallel_for_1d_normal ok low high f n :
  is_int low -> is_int high -> is_int n ->
  low < high -> high - low <= INT_MAX ->
  (forall t, ok t = true) -> (forall i, low <= i < high -> f i = None) ->
  let N := coerce n in
  let parts := sm_split_range low high N in
  let p := nth (Z.to_nat (N - 1)) parts (0, 0) in
  parallel_for_1d ok low high f n
  = (create_events mk_arg_1d parts (N - 1)
       ++ map EvCall1 (int_range (fst p) (snd p))
       ++ map EvJoin (int_range 0 (N - 1))
       ++ [EvPrint "[SimpleMultithreader] parallel_for(1D) time = "],
     Ok tt).
Proof.
  intros Hlow Hhigh Hn Hlt Hfit Hok Hf N parts p.
  rewrite parallel_for_1d_eq. destruct (Z.geb_spec low high); [lia|].
  pose proof (coerce_pos n) as HN. fold N in HN.
  assert (HNi : is_int N).
  { subst N. unfold coerce. destruct (n <=? 0); [|exact Hn].
    unfold is_int, INT_MIN, INT_MAX. lia. }
  destruct (fallback_shape low high N HN) as (Hb & Hlen & Hsame).
  destruct (Hsame HNi) as [E1 E2]. fold N. rewrite E1, E2. fold parts.
  assert (Hlen' : List.length parts = Z.to_nat N).
  { subst parts. now apply sm_split_range_length. }
  rewrite fork_join_all_created; auto; [|unfold is_int, INT_MAX in *; lia].
  fold p.
  assert (Hp : In p parts) by (apply nth_In; lia).
  pose proof (contiguous_from_bounds low parts high p
                (sm_split_range_contiguous low high N Hlow Hhigh Hlt Hfit HN) Hp)
    as Hbd.
  unfold for_int. rewrite for_each_call1_ok.
  - reflexivity.
  - intros x Hx. apply Hf. apply int_range_In in Hx. lia.
Qed.

(** ** C1: the 1-D entry point *)

(** C1, as amended.  For all [int]s [low < high] whose extent
    [high - low] is representable as an [int] and every [numThreads], a
    call in which every worker is created and the callback returns
    normally invokes the callback exactly once on each index of
    [[low, high)] and on no other index: the workers take the partitions
    [0 .. N-2] of [sm_split_range], the calling thread the last one.  In
    particular [parallel_for(0, 10, body, 3)] uses the partitions
    [[0,4)], [[4,7)], [[7,10)], of sizes 4, 3, 3, and invokes the callback
    once on each of [0..9]. *)
Theorem parallel_for_1d_each_index_once :
  (forall ok low high f n,
      is_int low -> is_int high -> is_int n ->
      low < high -> high - low <= INT_MAX ->
      (forall t, ok t = true) -> (forall i, low <= i < high -> f i = None) ->
      let run := parallel_for_1d ok low high f n in
      let N := coerce n in
      let parts := sm_split_range low high N in
      let last := nth (Z.to_nat (N - 1)) parts (0, 0) in
      outcome run = Ok tt
      /\ created (trace run) = map mk_arg_1d (firstn (Z.to_nat (N - 1)) parts)
      /\ calls1 (trace run) = int_range (fst last) (snd last)
      /\ all_calls1 f run = int_range low high
      /\ (forall i, count_occ Z.eq_dec (all_calls1 f run) i
                    = if (low <=? i) && (i <? high) then 1%nat else 0%nat))
  /\ (forall ok f,
         (forall t, ok t = true) -> (forall i, 0 <= i < 10 -> f i = None) ->
         let run := parallel_for_1d ok 0 10 f 3 in
         sm_split_range 0 10 3 = [(0, 4); (4, 7); (7, 10)]
         /\ map part_size (sm_split_range 0 10 3) = [4; 3; 3]
         /\ created (trace run) = [mk_arg_1d (0, 4); mk_arg_1d (4, 7)]
         /\ calls1 (trace run) = [7; 8; 9]
         /\ all_calls1 f run = [0; 1; 2; 3; 4; 5; 6; 7; 8; 9]).
Proof.
  match goal with |- ?G /\ _ => assert (General : G) end.
  { intros ok low high f n Hlow Hhigh Hn Hlt Hfit Hok Hf run N parts last.
    pose proof (coerce_pos n) as HN. fold N in HN.
    assert (Hlen : List.length parts = Z.to_nat N)
      by (subst parts; now apply sm_split_range_length).
    assert (Hcont : contiguous_from low parts high)
      by (now apply sm_split_range_contiguous).
    assert (Hrun : run = _)
      by (apply (parallel_for_1d_normal ok low high f n); assumption).
    fold N parts last in Hrun.
    assert (Hcr : created (trace run)
                  = map mk_arg_1d (firstn (Z.to_nat (N - 1)) parts)).
    { rewrite Hrun. cbn [trace fst].
      rewrite !created_app, calls_created, joins_created, !app_nil_r.
      apply create_events_firstn. lia. }
    assert (Hc : calls1 (trace run) = int_range (fst last) (snd last)).
    { rewrite Hrun. cbn [trace fst].
      rewrite !calls1_app, create_events_no_call1, joins_no_call1,
        calls1_map_call. cbn. now rewrite app_nil_r. }
    assert (Hall : all_calls1 f run = int_range low high).
    { unfold all_calls1. rewrite Hcr, Hc, workers_1d_calls.
      - rewrite <- (contiguous_from_flat low parts high Hcont).
        pose proof (split_last parts (0, 0) (Z.to_nat (N - 1))) as Hsp.
        fold last in Hsp. rewrite Hsp at 2 by lia.
        rewrite flat_map_app. cbn [flat_map]. now rewrite app_nil_r.
      - intros p i Hp Hi. apply Hf. apply firstn_In_l in Hp.
        pose proof (contiguous_from_bounds low parts high p Hcont Hp). lia. }
    split; [now rewrite Hrun|]. split; [exact Hcr|]. split; [exact Hc|].
    split; [exact Hall|]. intros i. rewrite Hall. apply count_occ_int_range. }
  split; [exact General|].
  intros ok f Hok Hf run.
  assert (Hint : is_int 0 /\ is_int 10 /\ is_int 3)
    by (unfold is_int, INT_MIN, INT_MAX; lia).
  destruct Hint as (H0 & H10 & H3).
  destruct (General ok 0 10 f 3 H0 H10 H3 ltac:(lia)
              ltac:(unfold INT_MAX; lia) Hok Hf) as (_ & Hcr & Hc & Hall & _).
  split; [reflexivity|]. split; [reflexivity|].
  split; [exact Hcr|]. split; [exact Hc|]. exact Hall.
Qed.

(** The theorem applies to a run with four threads over [[-3, 7)]. *)
Lemma parallel_for_1d_each_index_once_witness :
  let run := parallel_for_1d always_ok (-3) 7 never_throws1 4 in
  outcome run = Ok tt
  /\ all_calls1 never_throws1 run = int_range (-3) 7.
Proof.
  destruct (proj1 parallel_for_1d_each_index_once
              always_ok (-3) 7 never_throws1 4) as (H1 & _ & _ & H4 & _);
    try (unfold is_int, INT_MIN, INT_MAX; lia); try reflexivity.
  split; [exact H1 | exact H4].
Defined.

(** C1 as stated fails when the extent of the range does not fit an
    [int]: with two threads over [[INT_MIN, INT_MAX)] both partitions
    are empty, so the callback is never invoked, although every worker is
    created and the callback never throws. *)
Lemma parallel_for_1d_wide_range :
  INT_MIN < INT_MAX
  /\ INT_MIN <= 0 < INT_MAX
  /\ all_calls1 never_throws1
       (parallel_for_1d always_ok INT_MIN INT_MAX never_throws1 2) = []
  /\ outcome (parallel_for_1d always_ok INT_MIN INT_MAX never_throws1 2)
     = Ok tt.
Proof. repeat split; try reflexivity; unfold INT_MIN, INT_MAX; lia. Qed.

(** ** C4: the index mapper *)

Lemma unflatten_exact low1 high1 low2 high2 f :
  is_int low1 -> is_int high1 -> is_int low2 -> is_int high2 ->
  1 <= high2 - low2 ->
  0 <= f < (high1 - low1) * (high2 - low2) ->
  unflatten low1 low2 (high2 - low2) f
  = (f / (high2 - low2) + low1, f mod (high2 - low2) + low2)
  /\ 0 <= f / (high2 - low2) < high1 - low1
  /\ 0 <= f mod (high2 - low2) < high2 - low2.
Proof.
  intros H1 H2 H3 H4 Hc Hf.
  set (cols := high2 - low2) in *. set (rows := high1 - low1) in *.
  assert (Hq : 0 <= f / cols < rows).
  { split; [apply Z.div_pos; lia|].
    apply Z.div_lt_upper_bound; [lia|]. rewrite Z.mul_comm. lia. }
  assert (Hr : 0 <= f mod cols < cols) by (apply Z.mod_pos_bound; lia).
  split; [|split; assumption].
  unfold unflatten, int_add, int_quot, int_rem.
  rewrite Z.quot_div_nonneg, Z.rem_mod_nonneg by lia.
  rewrite !wrap_int_add_l.
  assert (Hi : forall z, INT_MIN <= z <= INT_MAX -> wrap_int z = z)
    by exact wrap_int_small.
  unfold is_int, INT_MIN, INT_MAX in *.
  rewrite !Hi by (subst rows cols; lia). reflexivity.
Qed.

Lemma unflatten_flatten low1 high1 low2 high2 i j :
  is_int low1 -> is_int high1 -> is_int low2 -> is_int high2 ->
  1 <= high2 - low2 ->
  low1 <= i < high1 -> low2 <= j < high2 ->
  0 <= flatten low1 low2 (high2 - low2) (i, j)
    < (high1 - low1) * (high2 - low2)
  /\ unflatten low1 low2 (high2 - low2)
       (flatten low1 low2 (high2 - low2) (i, j)) = (i, j).
Proof.
  intros H1 H2 H3 H4 Hc Hi Hj.
  set (cols := high2 - low2) in *. set (rows := high1 - low1) in *.
  set (f := flatten low1 low2 cols (i, j)).
  assert (Ef : f = (i - low1) * cols + (j - low2)) by reflexivity.
  assert (Hf : 0 <= f < rows * cols) by (subst rows cols; nia).
  split; [exact Hf|].
  destruct (unflatten_exact low1 high1 low2 high2 f H1 H2 H3 H4 Hc Hf)
    as (E & _). fold cols in E. rewrite E.
  assert (Hdiv : f / cols = i - low1).
  { rewrite Ef, Z.div_add_l by lia.
    rewrite Z.div_small by (subst cols; lia). lia. }
  assert (Hmod : f mod cols = j - low2).
  { rewrite Ef, Z.add_comm, Z.mod_add by lia.
    apply Z.mod_small. subst cols. lia. }
  rewrite Hdiv, Hmod. f_equal; lia.
Qed.

Lemma flatten_unflatten low1 high1 low2 high2 f :
  is_int low1 -> is_int high1 -> is_int low2 -> is_int high2 ->
  1 <= high2 - low2 ->
  0 <= f < (high1 - low1) * (high2 - low2) ->
  let c := unflatten low1 low2 (high2 - low2) f in
  low1 <= fst c < high1 /\ low2 <= snd c < high2
  /\ flatten low1 low2 (high2 - low2) c = f.
Proof.
  intros H1 H2 H3 H4 Hc Hf c.
  destruct (unflatten_exact low1 high1 low2 high2 f H1 H2 H3 H4 Hc Hf)
    as (E & Hq & Hr).
  subst c. rewrite E. cbn [fst snd]. split; [lia|]. split; [lia|].
  unfold flatten. cbn [fst snd].
  pose proof (Z.div_mod f (high2 - low2)). lia.
Qed.

(** C4.  With [cols = high2 - low2 >= 1], the mapping
    [f |-> (f / cols + low1, f % cols + low2)] executed by the 2-D loops
    is defined on every flat index of [[0, rows*cols)] (the loop body
    reaches the callback), lands in the grid, and [flatten] is its
    two-sided inverse; stepping the flat index by one moves to the next
    column and, at the end of a row, to the start of the next row. *)
Theorem index_mapping_bijection (low1 high1 low2 high2 : Z) :
  is_int low1 -> is_int high1 -> is_int low2 -> is_int high2 ->
  let rows := high1 - low1 in
  let cols := high2 - low2 in
  1 <= cols ->
  (forall f, 0 <= f < rows * cols ->
     let c := unflatten low1 low2 cols f in
     c = (f / cols + low1, f mod cols + low2)
     /\ (forall g, flat_body g low1 low2 cols f = call2 g (fst c) (snd c))
     /\ low1 <= fst c < high1 /\ low2 <= snd c < high2
     /\ flatten low1 low2 cols c = f)
  /\ (forall i j, low1 <= i < high1 -> low2 <= j < high2 ->
        let f := flatten low1 low2 cols (i, j) in
        0 <= f < rows * cols /\ unflatten low1 low2 cols f = (i, j))
  /\ (forall f, 0 <= f -> f + 1 < rows * cols ->
        let c := unflatten low1 low2 cols f in
        unflatten low1 low2 cols (f + 1)
        = if snd c + 1 <? high2 then (fst c, snd c + 1)
          else (fst c + 1, low2)).
Proof.
  intros H1 H2 H3 H4 rows cols Hc.
  assert (Fwd : forall f, 0 <= f < rows * cols ->
            unflatten low1 low2 cols f = (f / cols + low1, f mod cols + low2)
            /\ 0 <= f / cols < rows /\ 0 <= f mod cols < cols)
    by (intros f Hf; now apply unflatten_exact).
  split; [|split].
  - intros f Hf c. destruct (Fwd f Hf) as (E & Hq & Hr). subst c. rewrite E.
    cbn [fst snd]. split; [reflexivity|]. split.
    + intros g. rewrite flat_body_eq, E. cbn [fst snd].
      destruct (Z.eqb_spec cols 0); [lia|].
      destruct (Z.eqb_spec cols (-1)); [lia|]. now rewrite andb_false_r.
    + subst rows cols. split; [lia|]. split; [lia|].
      unfold flatten. cbn [fst snd].
      pose proof (Z.div_mod f (high2 - low2)). lia.
  - intros i j Hi Hj f. now apply unflatten_flatten.
  - intros f Hf0 Hf1 c.
    destruct (Fwd f ltac:(lia)) as (E & Hq & Hr).
    destruct (Fwd (f + 1) ltac:(lia)) as (E1 & Hq1 & Hr1).
    subst c. rewrite E, E1. cbn [fst snd].
    pose proof (Z.div_mod f cols ltac:(lia)) as Hd.
    pose proof (Z.div_mod (f + 1) cols ltac:(lia)) as Hd1.
    destruct (Z.ltb_spec (f mod cols + low2 + 1) high2) as [Hlt | Hge].
    + assert (f + 1 = cols * (f / cols) + (f mod cols + 1)) by lia.
      assert ((f + 1) / cols = f / cols)
        by (symmetry; apply (Z.div_unique (f + 1) cols (f / cols) (f mod cols + 1));
            subst cols; lia).
      f_equal; nia.
    + assert (Hm : f mod cols = cols - 1) by (subst cols; lia).
      assert (f + 1 = cols * (f / cols + 1) + 0) by lia.
      assert ((f + 1) / cols = f / cols + 1)
        by (symmetry; apply (Z.div_unique (f + 1) cols (f / cols + 1) 0); lia).
      f_equal; nia.
Qed.

(** The theorem applies to the 3 x 4 grid of the spec. *)
Lemma index_mapping_bijection_witness :
  (forall f, 0 <= f < (3 - 0) * (4 - 0) ->
     let c := unflatten 0 0 (4 - 0) f in
     c = (f / (4 - 0) + 0, f mod (4 - 0) + 0)
     /\ (forall g, flat_body g 0 0 (4 - 0) f = call2 g (fst c) (snd c))
     /\ 0 <= fst c < 3 /\ 0 <= snd c < 4
     /\ flatten 0 0 (4 - 0) c = f)
  /\ (forall i j, 0 <= i < 3 -> 0 <= j < 4 ->
        let f := flatten 0 0 (4 - 0) (i, j) in
        0 <= f < (3 - 0) * (4 - 0) /\ unflatten 0 0 (4 - 0) f = (i, j))
  /\ (forall f, 0 <= f -> f + 1 < (3 - 0) * (4 - 0) ->
        let c := unflatten 0 0 (4 - 0) f in
        unflatten 0 0 (4 - 0) (f + 1)
        = if snd c + 1 <? 4 then (fst c, snd c + 1) else (fst c + 1, 0)).
Proof.
  apply (index_mapping_bijection 0 3 0 4);
    unfold is_int, INT_MIN, INT_MAX; lia.
Defined.

(** ** C3, C5: the 2-D entry point *)

Lemma int_sub_exact low high :
  is_int low -> is_int high -> low < high -> high - low <= INT_MAX ->
  int_sub high low = high - low.
Proof.
  intros. apply wrap_int_small. unfold is_int, INT_MIN, INT_MAX in *. lia.
Qed.

Lemma ll_mul_exact a b :
  0 <= a <= INT_MAX -> 0 <= b <= INT_MAX -> ll_mul a b = a * b.
Proof.
  intros Ha Hb. apply wrap_ll_small. unfold INT_MAX, LLONG_MAX in *. nia.
Qed.

(** With both extents representable the guards see the true size. *)
Lemma parallel_for_2d_guards ok low1 high1 low2 high2 f n :
  is_int low1 -> is_int high1 -> is_int low2 -> is_int high2 ->
  low1 < high1 -> low2 < high2 ->
  high1 - low1 <= INT_MAX -> high2 - low2 <= INT_MAX ->
  let cols := high2 - low2 in
  let total := (high1 - low1) * cols in
  parallel_for_2d ok low1 high1 low2 high2 f n
  = if total >? INT_MAX then throw (runtime_error "2D range too large")
    else fork_join ok (mk_arg_2d low1 low2 cols)
           "pthread_create failed (2D)"
           (flat_body f low1 low2 cols)
           "[SimpleMultithreader] parallel_for(2D) time = "
           (fst (fallback 0 total (coerce n)))
           (snd (fallback 0 total (coerce n))).
Proof.
  intros H1 H2 H3 H4 Hr Hc Hfr Hfc cols total.
  rewrite parallel_for_2d_eq.
  destruct (Z.geb_spec low1 high1); [lia|].
  destruct (Z.geb_spec low2 high2); [lia|]. cbn [orb]. cbv zeta.
  rewrite !int_sub_exact by assumption.
  rewrite ll_mul_exact by lia. fold cols total.
  destruct (Z.leb_spec total 0); [subst total cols; nia|].
  destruct (Z.gtb_spec total INT_MAX); [reflexivity|].
  rewrite (wrap_int_small total), (wrap_int_small cols);
    [reflexivity | |]; unfold is_int, INT_MIN, INT_MAX in *; subst cols; lia.
Qed.

Lemma NoDup_map_inj_on {A B} (g : A -> B) (l : list A) :
  (forall x y, In x l -> In y l -> g x = g y -> x = y) ->
  NoDup l -> NoDup (map g l).
Proof.
  intros Hinj Hnd. induction Hnd as [|a l Ha Hnd IH]; cbn; constructor.
  - intros Hin. apply in_map_iff in Hin as (y & Hy & Hyl). apply Ha.
    rewrite (Hinj a y); auto; [now left | now right].
  - apply IH. intros x y Hx Hy. apply Hinj; now right.
Qed.

Lemma sm_thread_entry_2d_ok f l1 l2 w s e :
  w <> 0 -> 0 <= s ->
  (forall x, s <= x < e ->
     f (fst (unflatten l1 l2 w x)) (snd (unflatten l1 l2 w x)) = None) ->
  sm_thread_entry_2d f (Some (mk_arg_2d l1 l2 w (s, e)))
  = (map (fun x => EvCall2 (fst (unflatten l1 l2 w x))
                           (snd (unflatten l1 l2 w x))) (int_range s e),
     Ok tt).
Proof.
  intros Hw Hs H. unfold sm_thread_entry_2d, mk_arg_2d, for_int.
  cbn [start_idx end_idx low1 low2 width2 fst snd]. cbv zeta.
  rewrite for_each_flat_ok; auto.
  - intros x Hx. apply int_range_In in Hx. unfold INT_MIN. lia.
  - intros x Hx. apply H. now apply int_range_In.
Qed.

Lemma workers_2d_calls f l1 l2 w (ps : list (Z * Z)) :
  w <> 0 -> (forall p, In p ps -> 0 <= fst p) ->
  (forall p x, In p ps -> fst p <= x < snd p ->
     f (fst (unflatten l1 l2 w x)) (snd (unflatten l1 l2 w x)) = None) ->
  flat_map (fun arg => calls2 (trace (sm_thread_entry_2d f (Some arg))))
           (map (mk_arg_2d l1 l2 w) ps)
  = map (unflatten l1 l2 w)
        (flat_map (fun p => int_range (fst p) (snd p)) ps).
Proof.
  intros Hw. induction ps as [|[s e] ps IH]; intros Hs H; [reflexivity|].
  cbn [map flat_map]. rewrite sm_thread_entry_2d_ok; auto.
  - cbn [trace fst snd]. rewrite calls2_map_call, map_app, IH; auto.
    + intros p Hp. apply Hs. now right.
    + intros p x Hp. apply H. now right.
  - apply (Hs (s, e)). now left.
  - intros x Hx. apply (H (s, e)); [now left | exact Hx].
Qed.

(** The run of the 2-D entry point when nothing fails. *)
Lemma parallel_for_2d_normal ok low1 high1 low2 high2 f n :
  is_int low1 -> is_int high1 -> is_int low2 -> is_int high2 -> is_int n ->
  low1 < high1 -> low2 < high2 ->
  (high1 - low1) * (high2 - low2) <= INT_MAX ->
  (forall t, ok t = true) ->
  (forall i j, low1 <= i < high1 -> low2 <= j < high2 -> f i j = None) ->
  let cols := high2 - low2 in
  let total := (high1 - low1) * cols in
  let N := coerce n in
  let parts := sm_split_range 0 total N in
  let p := nth (Z.to_nat (N - 1)) parts (0, 0) in
  let ev := fun x => EvCall2 (fst (unflatten low1 low2 cols x))
                             (snd (unflatten low1 low2 cols x)) in
  contiguous_from 0 parts total
  /\ List.length parts = Z.to_nat N
  /\ parallel_for_2d ok low1 high1 low2 high2 f n
     = (create_events (mk_arg_2d low1 low2 cols) parts (N - 1)
          ++ map ev (int_range (fst p) (snd p))
          ++ map EvJoin (int_range 0 (N - 1))
          ++ [EvPrint "[SimpleMultithreader] parallel_for(2D) time = "],
        Ok tt).
Proof.
  intros H1 H2 H3 H4 Hn Hr Hc Hfit Hok Hf cols total N parts p ev.
  assert (Hcols : 1 <= cols <= INT_MAX) by (subst cols; nia).
  assert (Hrows : 1 <= high1 - low1 <= INT_MAX) by (subst cols; nia).
  assert (Htot : 1 <= total <= INT_MAX) by (subst total cols; nia).
  pose proof (coerce_pos n) as HN. fold N in HN.
  assert (HNi : is_int N).
  { subst N. unfold coerce. destruct (n <=? 0); [|exact Hn].
    unfold is_int, INT_MIN, INT_MAX. lia. }
  assert (H0 : is_int 0) by (unfold is_int, INT_MIN, INT_MAX; lia).
  assert (Hti : is_int total) by (unfold is_int, INT_MIN, INT_MAX in *; lia).
  assert (Hcont : contiguous_from 0 parts total).
  { subst parts. apply sm_split_range_contiguous; auto; lia. }
  assert (Hlen : List.length parts = Z.to_nat N)
    by (subst parts; now apply sm_split_range_length).
  split; [exact Hcont|]. split; [exact Hlen|].
  rewrite parallel_for_2d_guards by (auto; lia). fold cols total.
  destruct (Z.gtb_spec total INT_MAX); [lia|].
  destruct (fallback_shape 0 total N HN) as (Hb & _ & Hsame).
  destruct (Hsame HNi) as [E1 E2]. fold N. rewrite E1, E2. fold parts.
  rewrite fork_join_all_created; auto; [|unfold is_int, INT_MAX in *; lia].
  fold p.
  assert (Hp : In p parts) by (apply nth_In; lia).
  pose proof (contiguous_from_bounds 0 parts total p Hcont Hp) as Hbd.
  unfold for_int. rewrite for_each_flat_ok.
  - reflexivity.
  - lia.
  - intros x Hx. apply int_range_In in Hx. unfold INT_MIN. lia.
  - intros x Hx. apply int_range_In in Hx.
    destruct (flatten_unflatten low1 high1 low2 high2 x H1 H2 H3 H4)
      as (Hi & Hj & _); [lia | fold cols total; lia |].
    now apply Hf.
Qed.

(** C3.  For every 2-D range with [low1 < high1], [low2 < high2] and
    [rows * cols <= INT_MAX], a call in which every worker is created and
    the callback returns normally invokes the callback exactly once on
    every cell of the grid and on nothing else: the flat range
    [[0, rows*cols)] is split by [sm_split_range] and every flat index is
    mapped back by [unflatten].  In particular
    [parallel_for(0, 3, 0, 4, body, 2)] splits the 12 flat indices
    [f = i*4 + j] into [[0,6)] and [[6,12)] and visits each of the 12
    cells once. *)
Theorem parallel_for_2d_each_cell_once :
  (forall ok low1 high1 low2 high2 f n,
      is_int low1 -> is_int high1 -> is_int low2 -> is_int high2 ->
      is_int n -> low1 < high1 -> low2 < high2 ->
      (high1 - low1) * (high2 - low2) <= INT_MAX ->
      (forall t, ok t = true) ->
      (forall i j, low1 <= i < high1 -> low2 <= j < high2 -> f i j = None) ->
      let run := parallel_for_2d ok low1 high1 low2 high2 f n in
      let cols := high2 - low2 in
      let total := (high1 - low1) * cols in
      let N := coerce n in
      let parts := sm_split_range 0 total N in
      let last := nth (Z.to_nat (N - 1)) parts (0, 0) in
      outcome run = Ok tt
      /\ created (trace run)
         = map (mk_arg_2d low1 low2 cols) (firstn (Z.to_nat (N - 1)) parts)
      /\ calls2 (trace run)
         = map (unflatten low1 low2 cols) (int_range (fst last) (snd last))
      /\ all_calls2 f run
         = map (unflatten low1 low2 cols) (int_range 0 total)
      /\ NoDup (all_calls2 f run)
      /\ (forall i j, In (i, j) (all_calls2 f run)
                      <-> low1 <= i < high1 /\ low2 <= j < high2))
  /\ (forall ok f,
         (forall t, ok t = true) ->
         (forall i j, 0 <= i < 3 -> 0 <= j < 4 -> f i j = None) ->
         let run := parallel_for_2d ok 0 3 0 4 f 2 in
         sm_split_range 0 12 2 = [(0, 6); (6, 12)]
         /\ map part_size (sm_split_range 0 12 2) = [6; 6]
         /\ (forall i j, flatten 0 0 4 (i, j) = i * 4 + j)
         /\ all_calls2 f run
            = [(0, 0); (0, 1); (0, 2); (0, 3);
               (1, 0); (1, 1); (1, 2); (1, 3);
               (2, 0); (2, 1); (2, 2); (2, 3)]).
Proof.
  match goal with |- ?G /\ _ => assert (General : G) end.
  { intros ok low1 high1 low2 high2 f n H1 H2 H3 H4 Hn Hr Hc Hfit Hok Hf
           run cols total N parts last.
    destruct (parallel_for_2d_normal ok low1 high1 low2 high2 f n
                H1 H2 H3 H4 Hn Hr Hc Hfit Hok Hf) as (Hcont & Hlen & Hrun).
    fold run cols total N parts last in Hcont, Hlen, Hrun.
    pose proof (coerce_pos n) as HN. fold N in HN.
    assert (Hcols : 1 <= cols) by (subst cols; lia).
    set (U := unflatten low1 low2 cols) in *.
    assert (Hcr : created (trace run)
                  = map (mk_arg_2d low1 low2 cols)
                        (firstn (Z.to_nat (N - 1)) parts)).
    { rewrite Hrun. cbn [trace fst].
      rewrite !created_app, (calls2_created U), joins_created, !app_nil_r.
      apply create_events_firstn. lia. }
    assert (Hc2 : calls2 (trace run) = map U (int_range (fst last) (snd last))).
    { rewrite Hrun. cbn [trace fst].
      rewrite !calls2_app, create_events_no_call2, joins_no_call2,
        (calls2_map_call U). cbn. now rewrite app_nil_r. }
    assert (Hgrid : forall x, 0 <= x < total ->
              low1 <= fst (U x) < high1 /\ low2 <= snd (U x) < high2
              /\ flatten low1 low2 cols (U x) = x).
    { intros x Hx. apply (flatten_unflatten low1 high1 low2 high2 x); auto. }
    assert (Hall : all_calls2 f run = map U (int_range 0 total)).
    { unfold all_calls2. rewrite Hcr, Hc2, workers_2d_calls.
      - rewrite <- (contiguous_from_flat 0 parts total Hcont).
        pose proof (split_last parts (0, 0) (Z.to_nat (N - 1))) as Hsp.
        fold last in Hsp. rewrite Hsp at 2 by lia.
        rewrite flat_map_app, map_app. cbn [flat_map]. now rewrite app_nil_r.
      - lia.
      - intros p Hp. apply firstn_In_l in Hp.
        pose proof (contiguous_from_bounds 0 parts total p Hcont Hp). lia.
      - intros p x Hp Hx. apply firstn_In_l in Hp.
        pose proof (contiguous_from_bounds 0 parts total p Hcont Hp).
        destruct (Hgrid x) as (Hi & Hj & _); [lia|]. now apply Hf. }
    split; [now rewrite Hrun|]. split; [exact Hcr|]. split; [exact Hc2|].
    split; [exact Hall|]. rewrite Hall. split.
    - apply NoDup_map_inj_on; [|apply int_range_NoDup].
      intros x y Hx Hy E. apply int_range_In in Hx, Hy.
      destruct (Hgrid x Hx) as (_ & _ & Ex).
      destruct (Hgrid y Hy) as (_ & _ & Ey). congruence.
    - intros i j. rewrite in_map_iff. split.
      + intros (x & E & Hx). apply int_range_In in Hx.
        destruct (Hgrid x Hx) as (Hi & Hj & _). rewrite E in Hi, Hj.
        cbn [fst snd] in Hi, Hj. tauto.
      + intros [Hi Hj].
        destruct (unflatten_flatten low1 high1 low2 high2 i j) as (Hx & E); auto.
        exists (flatten low1 low2 cols (i, j)). split; [exact E|].
        now apply int_range_In. }
  split; [exact General|].
  intros ok f Hok Hf run.
  assert (Hint : is_int 0 /\ is_int 3 /\ is_int 4 /\ is_int 2)
    by (unfold is_int, INT_MIN, INT_MAX; lia).
  destruct Hint as (I0 & I3 & I4 & I2).
  destruct (General ok 0 3 0 4 f 2 I0 I3 I0 I4 I2 ltac:(lia) ltac:(lia)
              ltac:(unfold INT_MAX; lia) Hok Hf) as (_ & _ & _ & Hall & _).
  split; [reflexivity|]. split; [reflexivity|].
  split; [intros i j; unfold flatten; cbn [fst snd]; lia|].
  exact Hall.
Qed.

(** The theorem applies to a 2 x 3 grid with three threads. *)
Lemma parallel_for_2d_each_cell_once_witness :
  let run := parallel_for_2d always_ok 5 7 (-1) 2 never_throws2 3 in
  outcome run = Ok tt
  /\ all_calls2 never_throws2 run
     = map (unflatten 5 (-1) (2 - -1)) (int_range 0 ((7 - 5) * (2 - -1))).
Proof.
  destruct (proj1 parallel_for_2d_each_cell_once
              always_ok 5 7 (-1) 2 never_throws2 3) as (H1 & _ & _ & H4 & _);
    try (unfold is_int, INT_MIN, INT_MAX; lia); try reflexivity.
  split; [exact H1 | exact H4].
Defined.

(** ** Projections of the event lists that occur in runs *)

Lemma failed_app tr1 tr2 : failed (tr1 ++ tr2) = failed tr1 ++ failed tr2.
Proof. induction tr1 as [|[] tr1 IH]; cbn; congruence. Qed.

Lemma In_failed k tr : In (EvCreateFailed k) tr <-> In k (failed tr).
Proof.
  induction tr as [|ev tr IH]; [tauto|].
  destruct ev; cbn [In failed]; rewrite <- ?IH;
    try (split; [intros [H|H]; [discriminate H | exact H] | now right]).
  split; (intros [H|H]; [left; congruence | now right]).
Qed.

Lemma create_events_no_failed mk parts k : failed (create_events mk parts k) = [].
Proof.
  unfold create_events. induction (int_range 0 k) as [|x l IH]; cbn; congruence.
Qed.

Lemma joins_no_failed tids : failed (map EvJoin tids) = [].
Proof. induction tids; cbn; congruence. Qed.

Lemma calls_no_failed xs : failed (map EvCall1 xs) = [].
Proof. induction xs; cbn; congruence. Qed.

Lemma flats_no_failed l1 l2 w xs : failed (map (flat_event l1 l2 w) xs) = [].
Proof. induction xs; cbn; congruence. Qed.

Lemma flats_created l1 l2 w xs : created (map (flat_event l1 l2 w) xs) = [].
Proof. induction xs; cbn; congruence. Qed.

Lemma flats_created_tids l1 l2 w xs :
  created_tids (map (flat_event l1 l2 w) xs) = [].
Proof. induction xs; cbn; congruence. Qed.

Lemma flats_no_join l1 l2 w xs : joined_tids (map (flat_event l1 l2 w) xs) = [].
Proof. induction xs; cbn; congruence. Qed.

Lemma flats_calls2 l1 l2 w xs :
  calls2 (map (flat_event l1 l2 w) xs) = map (unflatten l1 l2 w) xs.
Proof. apply (calls2_map_call (unflatten l1 l2 w)). Qed.

Lemma calls_no_call2 xs : calls2 (map EvCall1 xs) = [].
Proof. induction xs; cbn; congruence. Qed.

Lemma flats_no_call1 l1 l2 w xs : calls1 (map (flat_event l1 l2 w) xs) = [].
Proof. induction xs; cbn; congruence. Qed.

(** The events of a flat loop are the calls on an initial segment of its
    range. *)
Lemma for_each_flat_trace f l1 l2 w xs :
  exists m,
    trace (for_each xs (flat_body f l1 l2 w))
    = map (flat_event l1 l2 w) (firstn m xs).
Proof.
  induction xs as [|x xs [m IH]].
  - now exists O.
  - rewrite for_each_cons, flat_body_eq.
    destruct (w =? 0); [now exists O|].
    destruct ((x =? INT_MIN) && (w =? -1)); [now exists O|].
    rewrite call2_eq.
    destruct (f _ _); cbn [outcome trace fst snd app].
    + now exists 1%nat.
    + exists (S m). now rewrite IH.
Qed.

Create Rewrite HintDb proj.
#[local] Hint Rewrite
  created_app created_tids_app joined_tids_app calls1_app calls2_app failed_app
  create_events_created create_events_tids create_events_no_join
  create_events_no_call1 create_events_no_call2 create_events_no_failed
  joins_created joins_created_tids joins_joined joins_no_call1 joins_no_call2
  joins_no_failed
  calls_created calls_created_tids calls_no_join calls1_map_call
  calls_no_call2 calls_no_failed
  flats_created flats_created_tids flats_no_join flats_calls2 flats_no_call1
  flats_no_failed
  app_nil_r app_nil_l : proj.

Ltac proj_simpl :=
  cbn [trace outcome fst snd];
  repeat progress
    (autorewrite with proj;
     cbn [created created_tids joined_tids calls1 calls2 failed app]).

(** ** C6: failure of a thread creation *)

Lemma fork_join_fails ok mk msg work line parts n k :
  1 <= n <= INT_MAX -> List.length parts = Z.to_nat n ->
  0 <= k < n - 1 -> ok k = false -> (forall t, 0 <= t < k -> ok t = true) ->
  fork_join ok mk msg work line parts n
  = (create_events mk parts k ++ EvCreateFailed k :: map EvJoin (int_range 0 k),
     Throw (runtime_error msg)).
Proof.
  intros Hn Hlen Hk Hf Hp.
  destruct (fork_join_cases ok mk msg work line parts n Hn Hlen)
    as [[Hall _] | (k' & Hk' & Hf' & Hp' & E)].
  - rewrite Hall in Hf by lia. discriminate.
  - assert (k' = k); [|now subst].
    destruct (Z.lt_trichotomy k' k) as [H|[H|H]]; [|exact H|].
    + rewrite Hp in Hf' by lia. discriminate.
    + rewrite Hp' in Hf by lia. discriminate.
Qed.

Lemma fork_join_failed ok mk msg work line parts n k :
  1 <= n <= INT_MAX -> List.length parts = Z.to_nat n ->
  (forall xs, failed (trace (for_each xs work)) = []) ->
  In (EvCreateFailed k) (trace (fork_join ok mk msg work line parts n)) ->
  0 <= k < n - 1 /\ ok k = false /\ (forall t, 0 <= t < k -> ok t = true).
Proof.
  intros Hn Hlen Hwork Hin. apply In_failed in Hin.
  destruct (fork_join_cases ok mk msg work line parts n Hn Hlen)
    as [[_ E] | (k' & Hk' & Hf' & Hp' & E)]; rewrite E in Hin.
  - exfalso. revert Hin. proj_simpl. unfold for_int. rewrite Hwork.
    cbn [app]. destruct (outcome _); proj_simpl; auto.
  - revert Hin. proj_simpl. intros [<-|[]]. auto.
Qed.

Lemma call1_loop_no_failed f xs : failed (trace (for_each xs (call1 f))) = [].
Proof.
  destruct (for_each_call1_prefix f xs) as [m ->]. apply calls_no_failed.
Qed.

Lemma flat_loop_no_failed f l1 l2 w xs :
  failed (trace (for_each xs (flat_body f l1 l2 w))) = [].
Proof.
  destruct (for_each_flat_trace f l1 l2 w xs) as [m ->]. apply flats_no_failed.
Qed.

(** Every call of the 2-D entry point either ends before the partitions
    are computed, without any event, or runs the skeleton on [N >= 1]
    partitions with a non-zero width. *)
Lemma parallel_for_2d_cases ok low1 high1 low2 high2 f n :
  let run := parallel_for_2d ok low1 high1 low2 high2 f n in
  let w := wrap_int (int_sub high2 low2) in
  (trace run = [] /\ (outcome run = Ok tt
                      \/ outcome run = Throw (runtime_error "2D range too large")))
  \/ (exists parts N,
        1 <= N <= INT_MAX /\ List.length parts = Z.to_nat N /\ w <> 0
        /\ low1 < high1 /\ low2 < high2
        /\ (is_int n ->
            N = coerce n
            /\ parts = sm_split_range 0 (total_int low1 high1 low2 high2) N)
        /\ 0 < total_int low1 high1 low2 high2
        /\ run = fork_join ok (mk_arg_2d low1 low2 w)
                   "pthread_create failed (2D)" (flat_body f low1 low2 w)
                   "[SimpleMultithreader] parallel_for(2D) time = " parts N).
Proof.
  intros run w. subst run. rewrite parallel_for_2d_eq. cbv zeta.
  destruct (Z.geb_spec low1 high1); [left; cbn; auto|].
  destruct (Z.geb_spec low2 high2); [left; cbn; auto|]. cbn [orb].
  destruct (Z.leb_spec (ll_mul (int_sub high1 low1) (int_sub high2 low2)) 0)
    as [|Hpos]; [left; cbn; auto|].
  destruct (Z.gtb_spec (ll_mul (int_sub high1 low1) (int_sub high2 low2)) INT_MAX)
    as [|Hle]; [left; cbn; auto|].
  right. fold (total_int low1 high1 low2 high2).
  set (total := total_int low1 high1 low2 high2).
  assert (Htot : 0 < total).
  { subst total. unfold total_int. rewrite wrap_int_small; [exact Hpos|].
    unfold is_int, INT_MIN, INT_MAX in *. lia. }
  destruct (fallback_shape 0 total (coerce n) (coerce_pos n)) as (Hb & Hlen & Hs).
  eexists _, _. split; [exact Hb|]. split; [exact Hlen|].
  split; [|split; [lia|split; [lia|split; [|split; [exact Htot|reflexivity]]]]].
  - subst w. rewrite wrap_int_small by apply wrap_int_is_int.
    intros E. rewrite E in Hpos. unfold ll_mul in Hpos.
    rewrite Z.mul_0_r in Hpos. cbv in Hpos. discriminate Hpos.
  - intros Hn. assert (Hc : is_int (coerce n)).
    { unfold coerce. destruct (n <=? 0); [|exact Hn].
      unfold is_int, INT_MIN, INT_MAX. lia. }
    destruct (Hs Hc) as [E1 E2]. split; [exact E1|]. now rewrite E1.
Qed.

Lemma parallel_for_1d_cases ok low high f n :
  let run := parallel_for_1d ok low high f n in
  (run = ret tt /\ low >= high)
  \/ (exists parts N,
        1 <= N <= INT_MAX /\ List.length parts = Z.to_nat N /\ low < high
        /\ (is_int n -> N = coerce n /\ parts = sm_split_range low high N)
        /\ run = fork_join ok mk_arg_1d "pthread_create failed (1D)"
                   (call1 f)
                   "[SimpleMultithreader] parallel_for(1D) time = " parts N).
Proof.
  intros run. subst run. rewrite parallel_for_1d_eq.
  destruct (Z.geb_spec low high); [left; split; [reflexivity | lia]|].
  right.
  destruct (fallback_shape low high (coerce n) (coerce_pos n)) as (Hb & Hlen & Hs).
  eexists _, _. split; [exact Hb|]. split; [exact Hlen|]. split; [lia|].
  split; [|reflexivity].
  intros Hn. assert (Hc : is_int (coerce n)).
  { unfold coerce. destruct (n <=? 0); [|exact Hn].
    unfold is_int, INT_MIN, INT_MAX. lia. }
  destruct (Hs Hc) as [E1 E2]. split; [exact E1|]. now rewrite E1.
Qed.

(** C6.  In every call of either entry point, if the creation of worker
    number [k] (counting from 0, so [k] workers were spawned before) fails,
    the calling thread has created exactly the workers [0 .. k-1], then
    joins exactly those, in order, invokes the callback on nothing, and
    only then throws the start-up error: the events of the call are the
    [k] creations, the failure, the [k] joins, and nothing else.  Such a
    failure event occurs whenever [pthread_create] fails first at a
    counter [k] below [numThreads - 1] on a non-empty range. *)
Theorem startup_failure_joins_spawned_workers :
  (forall ok low high f n k,
      is_int n ->
      let run := parallel_for_1d ok low high f n in
      let parts := sm_split_range low high (coerce n) in
      In (EvCreateFailed k) (trace run) ->
      0 <= k < coerce n - 1 /\ ok k = false
      /\ (forall t, 0 <= t < k -> ok t = true)
      /\ trace run = create_events mk_arg_1d parts k
                     ++ EvCreateFailed k :: map EvJoin (int_range 0 k)
      /\ created_tids (trace run) = int_range 0 k
      /\ joined_tids (trace run) = int_range 0 k
      /\ calls1 (trace run) = []
      /\ outcome run = Throw (runtime_error "pthread_create failed (1D)"))
  /\ (forall ok low high f n k,
         is_int n -> low < high ->
         0 <= k < coerce n - 1 -> ok k = false ->
         (forall t, 0 <= t < k -> ok t = true) ->
         In (EvCreateFailed k) (trace (parallel_for_1d ok low high f n)))
  /\ (forall ok low1 high1 low2 high2 f n k,
         is_int n ->
         let run := parallel_for_2d ok low1 high1 low2 high2 f n in
         let parts :=
           sm_split_range 0 (total_int low1 high1 low2 high2) (coerce n) in
         let w := wrap_int (int_sub high2 low2) in
         In (EvCreateFailed k) (trace run) ->
         0 <= k < coerce n - 1 /\ ok k = false
         /\ (forall t, 0 <= t < k -> ok t = true)
         /\ trace run = create_events (mk_arg_2d low1 low2 w) parts k
                        ++ EvCreateFailed k :: map EvJoin (int_range 0 k)
         /\ created_tids (trace run) = int_range 0 k
         /\ joined_tids (trace run) = int_range 0 k
         /\ calls2 (trace run) = []
         /\ outcome run = Throw (runtime_error "pthread_create failed (2D)"))
  /\ (forall ok low1 high1 low2 high2 f n k,
         is_int low1 -> is_int high1 -> is_int low2 -> is_int high2 ->
         is_int n -> low1 < high1 -> low2 < high2 ->
         (high1 - low1) * (high2 - low2) <= INT_MAX ->
         0 <= k < coerce n - 1 -> ok k = false ->
         (forall t, 0 <= t < k -> ok t = true) ->
         In (EvCreateFailed k)
            (trace (parallel_for_2d ok low1 high1 low2 high2 f n))).
Proof.
  split; [|split; [|split]].
  - intros ok low high f n k Hn run parts Hin.
    destruct (parallel_for_1d_cases ok low high f n)
      as [[E _] | (ps & N & HN & Hlen & _ & Hs & E)]; fold run in E.
    { rewrite E in Hin. destruct Hin. }
    destruct (Hs Hn) as [-> ->]. fold parts in Hlen, E. rewrite E in Hin.
    destruct (fork_join_failed _ _ _ _ _ _ _ _ HN Hlen
                (call1_loop_no_failed f) Hin) as (Hk & Hf & Hp).
    rewrite (fork_join_fails _ _ _ _ _ _ _ k HN Hlen Hk Hf Hp) in E.
    rewrite E. split; [exact Hk|]. split; [exact Hf|]. split; [exact Hp|].
    split; [reflexivity|]. proj_simpl. auto.
  - intros ok low high f n k Hn Hlt Hk Hf Hp.
    destruct (parallel_for_1d_cases ok low high f n)
      as [[_ Hge] | (ps & N & HN & Hlen & _ & Hs & E)]; [lia|].
    destruct (Hs Hn) as [-> ->].
    rewrite (fork_join_fails _ _ _ _ _ _ _ k HN Hlen Hk Hf Hp) in E.
    cbv zeta in E. rewrite E. cbn [trace fst]. apply in_or_app. right. now left.
  - intros ok low1 high1 low2 high2 f n k Hn run parts w Hin.
    destruct (parallel_for_2d_cases ok low1 high1 low2 high2 f n)
      as [[E _] | (ps & N & HN & Hlen & _ & _ & _ & Hs & _ & E)];
      fold run in E; fold w in E.
    { rewrite E in Hin. destruct Hin. }
    destruct (Hs Hn) as [-> ->]. fold parts in Hlen, E. rewrite E in Hin.
    destruct (fork_join_failed _ _ _ _ _ _ _ _ HN Hlen
                (flat_loop_no_failed f low1 low2 w) Hin) as (Hk & Hf & Hp).
    rewrite (fork_join_fails _ _ _ _ _ _ _ k HN Hlen Hk Hf Hp) in E.
    rewrite E. split; [exact Hk|]. split; [exact Hf|]. split; [exact Hp|].
    split; [reflexivity|]. proj_simpl. auto.
  - intros ok low1 high1 low2 high2 f n k H1 H2 H3 H4 Hn Hr Hc Hfit Hk Hf Hp.
    destruct (parallel_for_2d_cases ok low1 high1 low2 high2 f n)
      as [[E Ho] | (ps & N & HN & Hlen & _ & _ & _ & Hs & _ & E)].
    + exfalso. revert E Ho. rewrite parallel_for_2d_guards by (auto; nia).
      destruct (Z.gtb_spec ((high1 - low1) * (high2 - low2)) INT_MAX); [lia|].
      destruct (fallback_shape 0 ((high1 - low1) * (high2 - low2)) (coerce n)
                  (coerce_pos n)) as (Hb & Hl & Hsame).
      assert (Hci : is_int (coerce n)).
      { unfold coerce. destruct (n <=? 0); [|exact Hn].
        unfold is_int, INT_MIN, INT_MAX. lia. }
      destruct (Hsame Hci) as [E1 E2]. rewrite E1 in Hb, Hl.
      rewrite E1. rewrite (fork_join_fails _ _ _ _ _ _ _ k Hb Hl Hk Hf Hp).
      cbn [trace fst]. intros E. apply app_eq_nil in E as [_ E]. discriminate E.
    + destruct (Hs Hn) as [-> ->].
      rewrite (fork_join_fails _ _ _ _ _ _ _ k HN Hlen Hk Hf Hp) in E.
      cbv zeta in E. rewrite E. cbn [trace fst].
      apply in_or_app. right. now left.
Qed.

(** The theorem applies to a four-thread call whose third creation
    fails. *)
Lemma startup_failure_joins_spawned_workers_witness :
  let ok := fun t => negb (t =? 2) in
  let run := parallel_for_1d ok 0 10 never_throws1 4 in
  In (EvCreateFailed 2) (trace run)
  /\ joined_tids (trace run) = int_range 0 2
  /\ outcome run = Throw (runtime_error "pthread_create failed (1D)").
Proof.
  intros ok run.
  assert (Hin : In (EvCreateFailed 2) (trace run))
    by (right; right; left; reflexivity).
  split; [exact Hin|].
  destruct (proj1 startup_failure_joins_spawned_workers
              ok 0 10 never_throws1 4 2) as (_ & _ & _ & _ & _ & Hj & _ & Ho).
  - unfold is_int, INT_MIN, INT_MAX. lia.
  - exact Hin.
  - split; [exact Hj | exact Ho].
Defined.

(** ** C7: errors of the callback *)

Lemma for_each_ext {X} (xs : list X) (b1 b2 : X -> M unit) :
  (forall x, In x xs -> b1 x = b2 x) -> for_each xs b1 = for_each xs b2.
Proof.
  induction xs as [|x xs IH]; intros H; [reflexivity|].
  rewrite !for_each_cons, (H x (or_introl eq_refl)), IH; [reflexivity|].
  intros y Hy. apply H. now right.
Qed.

Lemma fork_join_work_ext ok mk msg work1 work2 line parts n :
  1 <= n <= INT_MAX -> List.length parts = Z.to_nat n ->
  (let p := nth (Z.to_nat (n - 1)) parts (0, 0) in
   for_int (fst p) (snd p) work1 = for_int (fst p) (snd p) work2) ->
  fork_join ok mk msg work1 line parts n
  = fork_join ok mk msg work2 line parts n.
Proof.
  intros Hn Hlen Hext. cbv zeta in Hext.
  destruct (fork_join_cases ok mk msg work1 line parts n Hn Hlen)
    as [[Hall E] | (k & Hk & Hf & Hp & E)]; rewrite E.
  - rewrite (fork_join_all_created ok mk msg work2) by assumption.
    now rewrite Hext.
  - now rewrite (fork_join_fails ok mk msg work2 line parts n k).
Qed.

Lemma for_each_flat_throw f l1 l2 w pre x post e :
  w <> 0 -> (forall y, In y (pre ++ [x]) -> y <> INT_MIN) ->
  (forall y, In y pre ->
     f (fst (unflatten l1 l2 w y)) (snd (unflatten l1 l2 w y)) = None) ->
  f (fst (unflatten l1 l2 w x)) (snd (unflatten l1 l2 w x)) = Some e ->
  for_each (pre ++ x :: post) (flat_body f l1 l2 w)
  = (map (flat_event l1 l2 w) (pre ++ [x]), Throw e).
Proof.
  intros Hw. induction pre as [|y pre IH]; intros Hmin H Hx; cbn [app].
  - rewrite for_each_cons, flat_body_eq.
    destruct (Z.eqb_spec w 0); [contradiction|].
    destruct (Z.eqb_spec x INT_MIN) as [E|_];
      [exfalso; apply (Hmin x); [now left | exact E]|].
    cbn [andb]. now rewrite call2_eq, Hx.
  - rewrite for_each_cons, flat_body_eq.
    destruct (Z.eqb_spec w 0); [contradiction|].
    destruct (Z.eqb_spec y INT_MIN) as [E|_];
      [exfalso; apply (Hmin y); [now left | exact E]|].
    cbn [andb]. rewrite call2_eq, (H y (or_introl eq_refl)).
    cbn [outcome trace fst snd]. rewrite IH; auto.
    + intros z Hz. apply Hmin. now right.
    + intros z Hz. apply H. now right.
Qed.

Lemma int_range_split_at s e i :
  s <= i < e -> int_range s e = int_range s i ++ i :: int_range (i + 1) e.
Proof.
  intros H. rewrite <- (int_range_app s i e) by lia.
  now rewrite (int_range_cons i e) by lia.
Qed.

(** C7.  A worker never lets an error of the callback out: its entry
    function never ends with an exception, whatever the callback throws,
    and stops at the throwing index; and the run of the calling thread,
    its result included, does not depend on what the callback does
    outside the calling thread's own partition (the last one).  An error
    thrown by the callback on that partition ends the call with that very
    error, right after the throwing invocation and without any join.
    This holds for both overloads. *)
Theorem callback_errors_swallowed_or_propagated :
  (forall f arg, outcome (sm_thread_entry_1d f (Some arg)) = Ok tt)
  /\ (forall f arg e, outcome (sm_thread_entry_2d f (Some arg)) <> Throw e)
  /\ (forall f s e i x,
         s <= i < e -> f i = Some x ->
         (forall i', s <= i' < i -> f i' = None) ->
         sm_thread_entry_1d f (Some (mk_arg_1d (s, e)))
         = (map EvCall1 (int_range s (i + 1)), Ok tt))
  /\ (forall ok low high f g n,
         is_int n ->
         let parts := sm_split_range low high (coerce n) in
         let own := nth (Z.to_nat (coerce n - 1)) parts (0, 0) in
         (forall i, fst own <= i < snd own -> f i = g i) ->
         parallel_for_1d ok low high f n = parallel_for_1d ok low high g n)
  /\ (forall ok low high f n i x,
         is_int n -> low < high ->
         let parts := sm_split_range low high (coerce n) in
         let own := nth (Z.to_nat (coerce n - 1)) parts (0, 0) in
         let run := parallel_for_1d ok low high f n in
         (forall t, 0 <= t < coerce n - 1 -> ok t = true) ->
         fst own <= i < snd own -> f i = Some x ->
         (forall i', fst own <= i' < i -> f i' = None) ->
         outcome run = Throw x
         /\ calls1 (trace run) = int_range (fst own) (i + 1)
         /\ joined_tids (trace run) = [])
  /\ (forall ok low1 high1 low2 high2 f n fl x,
         is_int low1 -> is_int high1 -> is_int low2 -> is_int high2 ->
         is_int n -> low1 < high1 -> low2 < high2 ->
         (high1 - low1) * (high2 - low2) <= INT_MAX ->
         let cols := high2 - low2 in
         let parts := sm_split_range 0 ((high1 - low1) * cols) (coerce n) in
         let own := nth (Z.to_nat (coerce n - 1)) parts (0, 0) in
         let run := parallel_for_2d ok low1 high1 low2 high2 f n in
         let U := unflatten low1 low2 cols in
         (forall t, 0 <= t < coerce n - 1 -> ok t = true) ->
         fst own <= fl < snd own -> f (fst (U fl)) (snd (U fl)) = Some x ->
         (forall fl', fst own <= fl' < fl ->
            f (fst (U fl')) (snd (U fl')) = None) ->
         outcome run = Throw x
         /\ calls2 (trace run) = map U (int_range (fst own) (fl + 1))
         /\ joined_tids (trace run) = [])
  /\ (forall ok low1 high1 low2 high2 f g n,
         is_int n ->
         let parts :=
           sm_split_range 0 (total_int low1 high1 low2 high2) (coerce n) in
         let own := nth (Z.to_nat (coerce n - 1)) parts (0, 0) in
         let U := unflatten low1 low2 (wrap_int (int_sub high2 low2)) in
         (forall fl, fst own <= fl < snd own ->
            f (fst (U fl)) (snd (U fl)) = g (fst (U fl)) (snd (U fl))) ->
         parallel_for_2d ok low1 high1 low2 high2 f n
         = parallel_for_2d ok low1 high1 low2 high2 g n).
Proof.
  split; [|split; [|split; [|split; [|split; [|split]]]]].
  - intros f arg. unfold sm_thread_entry_1d. rewrite try_catch_all_outcome.
    pose proof (for_each_call1_outcome f
                  (int_range (start_idx arg) (end_idx arg))) as H.
    unfold for_int. destruct (outcome _) as [[]|e|ft]; try reflexivity.
    destruct H.
  - intros f arg e. unfold sm_thread_entry_2d. rewrite try_catch_all_outcome.
    cbv zeta. destruct (outcome _); discriminate.
  - intros f s e i x Hi Hf Hbefore.
    unfold sm_thread_entry_1d, mk_arg_1d, SM_ThreadArg_new, for_int.
    cbn [start_idx end_idx fst snd].
    rewrite (int_range_split_at s e i Hi).
    rewrite (for_each_call1_throw f _ i _ x); auto.
    + cbn [try_catch_all]. now rewrite int_range_snoc by lia.
    + intros y Hy. apply Hbefore. now apply int_range_In.
  - intros ok low high f g n Hn parts own Hext.
    destruct (parallel_for_1d_cases ok low high f n)
      as [[E Hge] | (ps & N & HN & Hlen & Hlt & Hs & E)].
    + cbv zeta in E. rewrite E. rewrite parallel_for_1d_eq.
      destruct (Z.geb_spec low high); [reflexivity | lia].
    + destruct (parallel_for_1d_cases ok low high g n)
        as [[_ Hge] | (ps' & N' & _ & _ & _ & Hs' & E')]; [lia|].
      destruct (Hs Hn) as [-> ->]. destruct (Hs' Hn) as [-> ->].
      cbv zeta in E, E'. rewrite E, E'.
      apply fork_join_work_ext; auto. cbv zeta. unfold for_int.
      apply for_each_ext. intros y Hy. apply int_range_In in Hy.
      fold parts own in Hy. unfold call1. now rewrite (Hext y Hy).
  - intros ok low high f n i x Hn Hlt parts own run Hok Hi Hf Hbefore.
    destruct (parallel_for_1d_cases ok low high f n)
      as [[_ Hge] | (ps & N & HN & Hlen & _ & Hs & E)]; [lia|].
    destruct (Hs Hn) as [-> ->]. fold run parts in E, Hlen.
    rewrite fork_join_all_created in E by assumption. fold own in E.
    assert (Hmain : for_int (fst own) (snd own) (call1 f)
                    = (map EvCall1 (int_range (fst own) (i + 1)), Throw x)).
    { unfold for_int. rewrite (int_range_split_at _ _ i Hi).
      rewrite (for_each_call1_throw f _ i _ x); auto.
      - now rewrite int_range_snoc by lia.
      - intros y Hy. apply Hbefore. now apply int_range_In. }
    rewrite Hmain in E. rewrite E. proj_simpl. auto.
  - intros ok low1 high1 low2 high2 f n fl x H1 H2 H3 H4 Hn Hr Hc Hfit
           cols parts own run U Hok Hi Hf Hbefore.
    assert (Hcols : 1 <= cols <= INT_MAX) by (subst cols; nia).
    assert (Htot : 1 <= (high1 - low1) * cols <= INT_MAX) by (subst cols; nia).
    pose proof (coerce_pos n) as HN.
    assert (HNi : is_int (coerce n)).
    { unfold coerce. destruct (n <=? 0); [|exact Hn].
      unfold is_int, INT_MIN, INT_MAX. lia. }
    assert (Hcont : contiguous_from 0 parts ((high1 - low1) * cols)).
    { subst parts. apply sm_split_range_contiguous; auto;
        unfold is_int, INT_MIN, INT_MAX in *; lia. }
    assert (Hlen : List.length parts = Z.to_nat (coerce n))
      by (subst parts; now apply sm_split_range_length).
    assert (Hown : In own parts) by (apply nth_In; lia).
    pose proof (contiguous_from_bounds 0 parts _ own Hcont Hown) as Hbd.
    assert (E : run = _)
      by (apply (parallel_for_2d_guards ok low1 high1 low2 high2 f n);
          auto; nia).
    fold cols in E.
    destruct (Z.gtb_spec ((high1 - low1) * cols) INT_MAX); [lia|].
    destruct (fallback_shape 0 ((high1 - low1) * cols) (coerce n) HN)
      as (Hb & _ & Hsame).
    destruct (Hsame HNi) as [E1 E2]. rewrite E1, E2 in E. fold parts in E.
    rewrite fork_join_all_created in E by (auto; lia). fold own in E.
    assert (Hmain : for_int (fst own) (snd own) (flat_body f low1 low2 cols)
                    = (map (flat_event low1 low2 cols)
                           (int_range (fst own) (fl + 1)), Throw x)).
    { unfold for_int. rewrite (int_range_split_at _ _ fl Hi).
      rewrite (for_each_flat_throw f low1 low2 cols _ fl _ x); auto.
      - now rewrite int_range_snoc by lia.
      - lia.
      - intros y Hy. rewrite <- int_range_snoc in Hy by lia.
        apply int_range_In in Hy. unfold INT_MIN. lia.
      - intros y Hy. apply Hbefore. now apply int_range_In. }
    rewrite Hmain in E. rewrite E. proj_simpl. auto.
  - intros ok low1 high1 low2 high2 f g n Hn parts own U Hext.
    rewrite !parallel_for_2d_eq. cbv zeta.
    destruct (_ || _); [reflexivity|].
    destruct (_ <=? 0); [reflexivity|].
    destruct (_ >? INT_MAX); [reflexivity|].
    fold (total_int low1 high1 low2 high2).
    destruct (fallback_shape 0 (total_int low1 high1 low2 high2) (coerce n)
                (coerce_pos n)) as (Hb & Hlen & Hs).
    assert (Hc : is_int (coerce n)).
    { unfold coerce. destruct (n <=? 0); [|exact Hn].
      unfold is_int, INT_MIN, INT_MAX. lia. }
    destruct (Hs Hc) as [E1 E2].
    apply fork_join_work_ext; auto. cbv zeta. rewrite E1, E2.
    fold parts own. unfold for_int.
    apply for_each_ext. intros y Hy. apply int_range_In in Hy.
    rewrite !flat_body_eq. fold U. unfold call2. now rewrite (Hext y Hy).
Qed.

(** The theorem applies to a three-thread call whose callback throws on
    index 8, which belongs to the calling thread. *)
Lemma callback_errors_swallowed_or_propagated_witness :
  let f := fun i => if i =? 8 then Some (other_exn 7) else None in
  let run := parallel_for_1d always_ok 0 10 f 3 in
  outcome run = Throw (other_exn 7)
  /\ calls1 (trace run) = int_range 7 (8 + 1)
  /\ joined_tids (trace run) = [].
Proof.
  intros f run.
  destruct callback_errors_swallowed_or_propagated
    as (_ & _ & _ & _ & H & _).
  apply (H always_ok 0 10 f 3 8 (other_exn 7)).
  - unfold is_int, INT_MIN, INT_MAX. lia.
  - lia.
  - reflexivity.
  - change (7 <= 8 < 10). lia.
  - reflexivity.
  - change (forall i', 7 <= i' < 8 -> f i' = None). intros i' Hi'. unfold f.
    destruct (Z.eqb_spec i' 8); [lia | reflexivity].
Defined.

(** ** C8: a non-positive thread count *)

(** One piece is always the whole range, even when the extent wraps. *)
Lemma sm_split_range_one low high :
  is_int high -> low < high -> sm_split_range low high 1 = [(low, high)].
Proof.
  intros Hh Hlt. unfold sm_split_range.
  destruct (Z.leb_spec 1 0); [lia|].
  destruct (Z.geb_spec low high); [lia|].
  change (int_range 0 1) with [0]. cbn [fold_left split_step snd app].
  unfold int_quot, int_rem, int_sub, int_add.
  rewrite Z.quot_1_r, Z.rem_1_r, wrap_int_idem. cbn [Z.ltb Z.compare].
  rewrite Z.add_0_r, wrap_int_idem, Z.add_comm, wrap_int_add_l.
  replace (high - low + low) with high by lia.
  now rewrite (wrap_int_small high).
Qed.

Lemma fork_join_single ok mk msg work line parts :
  List.length parts = 1%nat ->
  let p := nth 0 parts (0, 0) in
  let main := for_int (fst p) (snd p) work in
  fork_join ok mk msg work line parts 1
  = (trace main ++ match outcome main with
                   | Ok _ => [EvPrint line]
                   | _ => []
                   end,
     outcome main).
Proof.
  intros Hlen p main.
  rewrite fork_join_all_created;
    [reflexivity | unfold INT_MAX; lia | exact Hlen | intros t Ht; lia].
Qed.

(** C8.  For [numThreads <= 0] either entry point performs exactly the
    run it performs for [numThreads = 1]: the same events of the calling
    thread in the same order and the same result.  That run creates no
    worker, so every invocation of the callback is made by the calling
    thread, in increasing order over the one partition [[low, high)]
    (over the flat range in the 2-D case). *)
Theorem nonpositive_thread_count_is_one (ok : Z -> bool) (n : Z) :
  n <= 0 ->
  (forall low high f,
      let run := parallel_for_1d ok low high f n in
      run = parallel_for_1d ok low high f 1
      /\ created (trace run) = []
      /\ all_calls1 f run = calls1 (trace run)
      /\ (is_int high -> is_prefix (calls1 (trace run)) (int_range low high)))
  /\ (forall low1 high1 low2 high2 f,
         let run := parallel_for_2d ok low1 high1 low2 high2 f n in
         run = parallel_for_2d ok low1 high1 low2 high2 f 1
         /\ created (trace run) = []
         /\ all_calls2 f run = calls2 (trace run)
         /\ is_prefix (calls2 (trace run))
              (map (unflatten low1 low2 (wrap_int (int_sub high2 low2)))
                   (int_range 0 (total_int low1 high1 low2 high2)))).
Proof.
  intros Hn.
  assert (I1 : is_int 1) by (unfold is_int, INT_MIN, INT_MAX; lia).
  assert (C1 : coerce 1 = 1) by reflexivity.
  assert (Cn : coerce n = 1).
  { unfold coerce. destruct (Z.leb_spec n 0); [reflexivity | lia]. }
  split.
  - intros low high f run.
    assert (E : run = parallel_for_1d ok low high f 1).
    { subst run. rewrite !parallel_for_1d_eq. now rewrite Cn, C1. }
    split; [exact E|]. rewrite E. clear E run.
    destruct (parallel_for_1d_cases ok low high f 1)
      as [[E _] | (ps & N & _ & _ & Hlt & Hs & E)]; cbv zeta in E; rewrite E.
    { repeat split; try reflexivity. intros _. now exists O. }
    destruct (Hs I1) as [-> ->]. rewrite C1.
    rewrite fork_join_single by (now rewrite sm_split_range_length).
    destruct (for_each_call1_prefix f
                (int_range (fst (nth 0 (sm_split_range low high 1) (0, 0)))
                           (snd (nth 0 (sm_split_range low high 1) (0, 0)))))
      as [m Hm].
    unfold for_int. unfold all_calls1. proj_simpl. rewrite Hm.
    assert (Htail : forall (r : result unit),
              created (match r with
                       | Ok _ => [EvPrint "[SimpleMultithreader] parallel_for(1D) time = "]
                       | _ => []
                       end) = []
              /\ calls1 (match r with
                         | Ok _ => [EvPrint "[SimpleMultithreader] parallel_for(1D) time = "]
                         | _ => []
                         end) = [])
      by (intros [[]|e|ft]; split; reflexivity).
    destruct (Htail (outcome (for_each
                (int_range (fst (nth 0 (sm_split_range low high 1) (0, 0)))
                           (snd (nth 0 (sm_split_range low high 1) (0, 0))))
                (call1 f)))) as [Ht1 Ht2].
    rewrite Ht1, Ht2. proj_simpl.
    split; [reflexivity|]. split; [reflexivity|].
    intros Hh. rewrite sm_split_range_one by assumption. cbn [nth fst snd].
    now exists m.
  - intros low1 high1 low2 high2 f run.
    set (w := wrap_int (int_sub high2 low2)).
    assert (E : run = parallel_for_2d ok low1 high1 low2 high2 f 1).
    { subst run. rewrite !parallel_for_2d_eq. now rewrite Cn, C1. }
    split; [exact E|]. rewrite E. clear E run.
    destruct (parallel_for_2d_cases ok low1 high1 low2 high2 f 1)
      as [[E _] | (ps & N & _ & _ & _ & _ & _ & Hs & Htot & E)].
    { unfold all_calls2. rewrite E. repeat split; try reflexivity. now exists O. }
    fold w in E. cbv zeta in E. rewrite E.
    destruct (Hs I1) as [-> ->]. rewrite C1.
    rewrite fork_join_single by (now rewrite sm_split_range_length).
    rewrite sm_split_range_one; [|apply wrap_int_is_int | exact Htot].
    cbn [nth fst snd].
    destruct (for_each_flat_trace f low1 low2 w
                (int_range 0 (total_int low1 high1 low2 high2))) as [m Hm].
    unfold for_int. unfold all_calls2. proj_simpl. rewrite Hm.
    assert (Htail : forall (r : result unit),
              created (match r with
                       | Ok _ => [EvPrint "[SimpleMultithreader] parallel_for(2D) time = "]
                       | _ => []
                       end) = []
              /\ calls2 (match r with
                         | Ok _ => [EvPrint "[SimpleMultithreader] parallel_for(2D) time = "]
                         | _ => []
                         end) = [])
      by (intros [[]|e|ft]; split; reflexivity).
    destruct (Htail (outcome (for_each
                (int_range 0 (total_int low1 high1 low2 high2))
                (flat_body f low1 low2 w)))) as [Ht1 Ht2].
    rewrite Ht1, Ht2. proj_simpl.
    split; [reflexivity|]. split; [reflexivity|].
    exists m. now rewrite firstn_map.
Qed.

(** The theorem applies to [numThreads = -4]. *)
Lemma nonpositive_thread_count_is_one_witness :
  parallel_for_1d always_ok 0 10 never_throws1 (-4)
  = parallel_for_1d always_ok 0 10 never_throws1 1
  /\ parallel_for_2d always_ok 0 3 0 4 never_throws2 (-4)
     = parallel_for_2d always_ok 0 3 0 4 never_throws2 1.
Proof.
  destruct (nonpositive_thread_count_is_one always_ok (-4)) as [H1 H2]; [lia|].
  split.
  - exact (proj1 (H1 0 10 never_throws1)).
  - exact (proj1 (H2 0 3 0 4 never_throws2)).
Defined.

(** ** C9: order of the visits inside a partition *)

Lemma sm_thread_entry_1d_eq f arg :
  sm_thread_entry_1d f (Some arg)
  = try_catch_all
      (for_each (int_range (start_idx arg) (end_idx arg)) (call1 f)).
Proof. reflexivity. Qed.

Lemma sm_thread_entry_2d_eq f arg :
  sm_thread_entry_2d f (Some arg)
  = try_catch_all
      (for_each (int_range (start_idx arg) (end_idx arg))
                (flat_body f (low1 arg) (low2 arg) (width2 arg))).
Proof. reflexivity. Qed.

Lemma tail_projections (line : string) (k : Z) (r : result unit) :
  let tail := match r with
              | Ok _ => map EvJoin (int_range 0 k) ++ [EvPrint line]
              | _ => []
              end in
  created tail = [] /\ calls1 tail = [] /\ calls2 tail = [] /\ failed tail = [].
Proof. destruct r as [[]|e|ft]; cbn zeta; proj_simpl; auto. Qed.

Lemma is_prefix_nil {A} (l : list A) : is_prefix [] l.
Proof. now exists O. Qed.

Lemma prefix_range_sorted (l : list Z) s e :
  is_prefix l (int_range s e) -> StronglySorted Z.lt l.
Proof. intros [m ->]. apply firstn_sorted, int_range_sorted. Qed.

(** C9.  Whatever the inputs, the oracle and the callback do, a worker
    invokes the callback on an initial segment of
    [start_idx, start_idx + 1, ..., end_idx - 1] in that order, and so does
    the calling thread on its own partition; for the 2-D overload the same
    holds of the flat indices whose images under [unflatten] are passed to
    the callback.  The indices visited inside a partition are therefore
    strictly increasing. *)
Theorem partition_visited_in_increasing_order :
  (forall f arg,
      let visited := calls1 (trace (sm_thread_entry_1d f (Some arg))) in
      is_prefix visited (int_range (start_idx arg) (end_idx arg))
      /\ StronglySorted Z.lt visited)
  /\ (forall f arg,
         exists flats,
           is_prefix flats (int_range (start_idx arg) (end_idx arg))
           /\ StronglySorted Z.lt flats
           /\ calls2 (trace (sm_thread_entry_2d f (Some arg)))
              = map (unflatten (low1 arg) (low2 arg) (width2 arg)) flats)
  /\ (forall ok low high f n,
         let visited := calls1 (trace (parallel_for_1d ok low high f n)) in
         (exists p, is_prefix visited (int_range (fst p) (snd p)))
         /\ StronglySorted Z.lt visited)
  /\ (forall ok low1 high1 low2 high2 f n,
         exists p flats,
           is_prefix flats (int_range (fst p) (snd p))
           /\ StronglySorted Z.lt flats
           /\ calls2 (trace (parallel_for_2d ok low1 high1 low2 high2 f n))
              = map (unflatten low1 low2 (wrap_int (int_sub high2 low2)))
                    flats).
Proof.
  split; [|split; [|split]].
  - intros f arg visited.
    assert (H : is_prefix visited (int_range (start_idx arg) (end_idx arg))).
    { subst visited. rewrite sm_thread_entry_1d_eq, try_catch_all_trace.
      destruct (for_each_call1_prefix f
                  (int_range (start_idx arg) (end_idx arg))) as [m ->].
      exists m. apply calls1_map_call. }
    split; [exact H | exact (prefix_range_sorted _ _ _ H)].
  - intros f arg. rewrite sm_thread_entry_2d_eq, try_catch_all_trace.
    destruct (for_each_flat_trace f (low1 arg) (low2 arg) (width2 arg)
                (int_range (start_idx arg) (end_idx arg))) as [m ->].
    exists (firstn m (int_range (start_idx arg) (end_idx arg))).
    split; [now exists m|].
    split; [apply firstn_sorted, int_range_sorted | apply flats_calls2].
  - intros ok low high f n visited.
    assert (H : exists p, is_prefix visited (int_range (fst p) (snd p))).
    { subst visited.
      destruct (parallel_for_1d_cases ok low high f n)
        as [[E _] | (ps & N & HN & Hlen & _ & _ & E)]; cbv zeta in E; rewrite E.
      { exists (0, 0). apply is_prefix_nil. }
      destruct (fork_join_cases ok mk_arg_1d "pthread_create failed (1D)"
                  (call1 f) "[SimpleMultithreader] parallel_for(1D) time = "
                  ps N HN Hlen) as [[_ E'] | (k & _ & _ & _ & E')]; rewrite E'.
      - exists (nth (Z.to_nat (N - 1)) ps (0, 0)). unfold for_int.
        destruct (for_each_call1_prefix f
                    (int_range (fst (nth (Z.to_nat (N - 1)) ps (0, 0)))
                               (snd (nth (Z.to_nat (N - 1)) ps (0, 0)))))
          as [m Hm].
        rewrite Hm. cbn [trace fst]. rewrite !calls1_app.
        destruct (tail_projections
                    "[SimpleMultithreader] parallel_for(1D) time = " (N - 1)
                    (outcome (for_each
                       (int_range (fst (nth (Z.to_nat (N - 1)) ps (0, 0)))
                                  (snd (nth (Z.to_nat (N - 1)) ps (0, 0))))
                       (call1 f)))) as (_ & Ht & _).
        cbv zeta in Ht. rewrite Ht. proj_simpl. now exists m.
      - exists (0, 0). proj_simpl. apply is_prefix_nil. }
    split; [exact H|]. destruct H as [p H].
    exact (prefix_range_sorted _ _ _ H).
  - intros ok low1 high1 low2 high2 f n.
    set (w := wrap_int (int_sub high2 low2)).
    destruct (parallel_for_2d_cases ok low1 high1 low2 high2 f n)
      as [[E _] | (ps & N & HN & Hlen & _ & _ & _ & _ & _ & E)].
    { exists (0, 0), []. rewrite E.
      split; [apply is_prefix_nil|]. split; [constructor | reflexivity]. }
    fold w in E. cbv zeta in E. rewrite E.
    destruct (fork_join_cases ok (mk_arg_2d low1 low2 w)
                "pthread_create failed (2D)" (flat_body f low1 low2 w)
                "[SimpleMultithreader] parallel_for(2D) time = "
                ps N HN Hlen) as [[_ E'] | (k & _ & _ & _ & E')]; rewrite E'.
    + set (p := nth (Z.to_nat (N - 1)) ps (0, 0)). unfold for_int.
      destruct (for_each_flat_trace f low1 low2 w
                  (int_range (fst p) (snd p))) as [m Hm].
      exists p, (firstn m (int_range (fst p) (snd p))).
      split; [now exists m|].
      split; [apply firstn_sorted, int_range_sorted|].
      rewrite Hm. cbn [trace fst]. rewrite !calls2_app.
      destruct (tail_projections
                  "[SimpleMultithreader] parallel_for(2D) time = " (N - 1)
                  (outcome (for_each (int_range (fst p) (snd p))
                              (flat_body f low1 low2 w)))) as (_ & _ & Ht & _).
      cbv zeta in Ht. rewrite Ht. now proj_simpl.
    + exists (0, 0), []. proj_simpl.
      split; [apply is_prefix_nil|]. split; [constructor | reflexivity].
Qed.

(** ** C10: the divisions by the column width *)

Lemma fork_join_created_args ok mk msg work line parts n arg :
  1 <= n <= INT_MAX -> List.length parts = Z.to_nat n ->
  (forall xs, created (trace (for_each xs work)) = []) ->
  In arg (created (trace (fork_join ok mk msg work line parts n))) ->
  exists p, In p parts /\ arg = mk p.
Proof.
  intros Hn Hlen Hwork Hin.
  assert (Hk : forall k, 0 <= k <= n - 1 ->
            In arg (created (create_events mk parts k)) ->
            exists p, In p parts /\ arg = mk p).
  { intros k Hk H. rewrite create_events_firstn in H by lia.
    apply in_map_iff in H as (p & <- & Hp). exists p.
    split; [now apply firstn_In_l in Hp | reflexivity]. }
  destruct (fork_join_cases ok mk msg work line parts n Hn Hlen)
    as [[_ E] | (k & Hk' & _ & _ & E)]; rewrite E in Hin.
  - revert Hin. cbn [trace fst]. rewrite !created_app. unfold for_int.
    rewrite Hwork.
    destruct (tail_projections line (n - 1)
                (outcome (for_each
                   (int_range (fst (nth (Z.to_nat (n - 1)) parts (0, 0)))
                              (snd (nth (Z.to_nat (n - 1)) parts (0, 0))))
                   work))) as (Ht & _).
    cbv zeta in Ht. rewrite Ht, !app_nil_r. apply Hk. lia.
  - revert Hin. cbn [trace fst]. rewrite created_app. cbn [created].
    rewrite joins_created, app_nil_r. apply Hk. lia.
Qed.

Lemma flat_loop_no_created f l1 l2 w xs :
  created (trace (for_each xs (flat_body f l1 l2 w))) = [].
Proof.
  destruct (for_each_flat_trace f l1 l2 w xs) as [m ->]. apply flats_created.
Qed.

Lemma sm_thread_entry_2d_no_div0 f l1 l2 w p :
  w <> 0 ->
  outcome (sm_thread_entry_2d f (Some (mk_arg_2d l1 l2 w p)))
  <> Fault DivByZero.
Proof.
  intros Hw. rewrite sm_thread_entry_2d_eq, try_catch_all_outcome.
  cbn [mk_arg_2d start_idx end_idx low1 low2 width2].
  pose proof (for_each_flat_no_div0 f l1 l2 w
                (int_range (fst p) (snd p)) Hw) as Hnz.
  destruct (outcome _) as [[]|e|ft]; [discriminate | discriminate | exact Hnz].
Qed.

(** What the guards do guarantee.  The 2-D entry point returns without
    any event when [low2 >= high2].  Whenever it does anything at all,
    the width [w] by which the calling thread and every created worker
    divide is not zero, so no thread of the call ends in a division by
    zero; and [w] is the column count [high2 - low2 >= 1] whenever that
    count is representable as an [int]. *)
Theorem column_width_never_zero ok low1 high1 low2 high2 f n :
  let run := parallel_for_2d ok low1 high1 low2 high2 f n in
  let w := wrap_int (int_sub high2 low2) in
  (low2 >= high2 -> run = ret tt)
  /\ (trace run <> [] -> low2 < high2 /\ w <> 0)
  /\ outcome run <> Fault DivByZero
  /\ (forall arg, In arg (created (trace run)) ->
        width2 arg = w /\ w <> 0
        /\ outcome (sm_thread_entry_2d f (Some arg)) <> Fault DivByZero)
  /\ (is_int low2 -> is_int high2 -> low2 < high2 ->
      high2 - low2 <= INT_MAX -> w = high2 - low2 /\ 1 <= w).
Proof.
  intros run w.
  split; [|split; [|split; [|split]]].
  - intros Hge. subst run. rewrite parallel_for_2d_eq.
    destruct (Z.geb_spec low2 high2); [|lia]. now rewrite orb_true_r.
  - intros Hne.
    destruct (parallel_for_2d_cases ok low1 high1 low2 high2 f n)
      as [[E _] | (ps & N & _ & _ & Hw & _ & Hc & _)];
      [contradiction | split; assumption].
  - destruct (parallel_for_2d_cases ok low1 high1 low2 high2 f n)
      as [[_ [E|E]] | (ps & N & HN & Hlen & Hw & _ & _ & _ & _ & E)];
      fold run in E; try (rewrite E; discriminate).
    fold w in E. rewrite E.
    destruct (fork_join_cases ok (mk_arg_2d low1 low2 w)
                "pthread_create failed (2D)" (flat_body f low1 low2 w)
                "[SimpleMultithreader] parallel_for(2D) time = "
                ps N HN Hlen) as [[_ E'] | (k & _ & _ & _ & E')]; rewrite E'.
    + cbn [outcome snd]. unfold for_int. now apply for_each_flat_no_div0.
    + discriminate.
  - intros arg Hin.
    destruct (parallel_for_2d_cases ok low1 high1 low2 high2 f n)
      as [[E _] | (ps & N & HN & Hlen & Hw & _ & _ & _ & _ & E)];
      fold run in E.
    { rewrite E in Hin. destruct Hin. }
    fold w in E, Hw. rewrite E in Hin.
    destruct (fork_join_created_args _ _ _ _ _ _ _ _ HN Hlen
                (flat_loop_no_created f low1 low2 w) Hin) as (p & _ & ->).
    split; [reflexivity|]. split; [exact Hw|].
    now apply sm_thread_entry_2d_no_div0.
  - intros Hl Hh Hlt Hfit. subst w.
    rewrite int_sub_exact by assumption.
    rewrite wrap_int_small; [lia|]. unfold is_int, INT_MIN, INT_MAX in *. lia.
Qed.

(** The guarantee applies to the 3 x 4 call of the spec. *)
Lemma column_width_never_zero_witness :
  let run := parallel_for_2d always_ok 0 3 0 4 never_throws2 2 in
  trace run <> []
  /\ wrap_int (int_sub 4 0) = 4 - 0
  /\ 1 <= wrap_int (int_sub 4 0)
  /\ outcome run <> Fault DivByZero.
Proof.
  intros run.
  destruct (column_width_never_zero always_ok 0 3 0 4 never_throws2 2)
    as (_ & _ & Ho & _ & Hw).
  destruct Hw as [Hw1 Hw2]; try (unfold is_int, INT_MIN, INT_MAX; lia).
  split; [discriminate|]. split; [exact Hw1|]. split; [exact Hw2 | exact Ho].
Defined.

(** A width below one is met only on a range that the size guard was
    meant to reject: the column extent then exceeds [INT_MAX], and so
    does the true size [rows * cols]. *)
Lemma column_width_below_one_only_when_oversized low1 high1 low2 high2 :
  is_int low2 -> is_int high2 -> low1 < high1 -> low2 < high2 ->
  wrap_int (int_sub high2 low2) < 1 ->
  INT_MAX < high2 - low2
  /\ INT_MAX < (high1 - low1) * (high2 - low2).
Proof.
  intros H3 H4 Hr Hc Hw.
  assert (Hbig : INT_MAX < high2 - low2).
  { destruct (Z_lt_le_dec INT_MAX (high2 - low2)) as [H|H]; [exact H|].
    rewrite int_sub_exact in Hw by assumption.
    rewrite wrap_int_small in Hw; [lia|].
    unfold is_int, INT_MIN, INT_MAX in *. lia. }
  split; [exact Hbig|]. unfold INT_MAX in *. nia.
Qed.

(** C10 fails on the code where the size guard misses an oversized
    range.  On [[INT_MIN, INT_MAX) x [INT_MIN, INT_MAX)], whose true size
    exceeds [INT_MAX], the column extent is computed in [int] and wraps
    to [-1]; the guards [low2 >= high2], [total <= 0] and
    [total > INT_MAX] all let the call through, and the calling thread
    executes the mapping with the width [-1], which is not [>= 1]. *)
Theorem column_width_can_be_negative :
  INT_MIN < INT_MAX
  /\ INT_MAX < (INT_MAX - INT_MIN) * (INT_MAX - INT_MIN)
  /\ parallel_for_2d always_ok INT_MIN INT_MAX INT_MIN INT_MAX never_throws2 1
     = ([EvCall2 INT_MIN INT_MIN;
         EvPrint "[SimpleMultithreader] parallel_for(2D) time = "], Ok tt)
  /\ calls2 (trace (parallel_for_2d always_ok INT_MIN INT_MAX INT_MIN INT_MAX
                      never_throws2 1))
     = [(INT_MIN, INT_MIN)]
  /\ wrap_int (int_sub INT_MAX INT_MIN) = -1
  /\ ~ 1 <= wrap_int (int_sub INT_MAX INT_MIN).
Proof.
  split; [reflexivity|]. split; [reflexivity|]. split; [reflexivity|].
  split; [reflexivity|]. split; [reflexivity|].
  intros H. vm_compute in H. now apply H.
Qed.

(** ** C5: the size guard of the 2-D entry point *)

(** When both extents are representable, a flattened size above
    [INT_MAX] is rejected before anything happens. *)
Lemma parallel_for_2d_too_large ok low1 high1 low2 high2 f n :
  is_int low1 -> is_int high1 -> is_int low2 -> is_int high2 ->
  low1 < high1 -> low2 < high2 ->
  high1 - low1 <= INT_MAX -> high2 - low2 <= INT_MAX ->
  INT_MAX < (high1 - low1) * (high2 - low2) ->
  parallel_for_2d ok low1 high1 low2 high2 f n
  = ([], Throw (runtime_error "2D range too large")).
Proof.
  intros H1 H2 H3 H4 Hr Hc Hfr Hfc Hbig.
  rewrite parallel_for_2d_guards by assumption.
  destruct (Z.gtb_spec ((high1 - low1) * (high2 - low2)) INT_MAX);
    [reflexivity | lia].
Qed.

(** C5 fails on the code when an extent itself exceeds [INT_MAX]: the
    subtraction [high1 - low1] is done in [int] and wraps before it is
    widened.  On [[INT_MIN, INT_MAX) x [INT_MIN, INT_MAX)] both extents
    wrap to [-1], the product is [1], the call is accepted, invokes the
    callback on [(INT_MIN, INT_MIN)] and returns normally; on
    [[INT_MIN, INT_MAX) x [0, 1)] the product is [-1] and the call returns
    silently.  In both cases the true size exceeds [INT_MAX]. *)
Theorem parallel_for_2d_wide_extent_not_rejected :
  INT_MAX < (INT_MAX - INT_MIN) * (INT_MAX - INT_MIN)
  /\ parallel_for_2d always_ok INT_MIN INT_MAX INT_MIN INT_MAX never_throws2 1
     = ([EvCall2 INT_MIN INT_MIN;
         EvPrint "[SimpleMultithreader] parallel_for(2D) time = "], Ok tt)
  /\ INT_MAX < (INT_MAX - INT_MIN) * (1 - 0)
  /\ parallel_for_2d always_ok INT_MIN INT_MAX 0 1 never_throws2 1
     = ([], Ok tt).
Proof. repeat split; reflexivity. Qed.

(** ** The namespaced twin behaves like the first copy *)

Lemma simple_mt_split_range_same low high n :
  simple_mt.split_range low high n = sm_split_range low high n.
Proof. reflexivity. Qed.

Lemma simple_mt_thread_entry_1d_same f arg :
  simple_mt.thread_entry_1d f arg = sm_thread_entry_1d f arg.
Proof. reflexivity. Qed.

Lemma simple_mt_thread_entry_2d_same f arg :
  simple_mt.thread_entry_2d f arg = sm_thread_entry_2d f arg.
Proof. reflexivity. Qed.

Lemma simple_mt_parallel_for_1d_eq ok low high f n :
  simple_mt.parallel_for_1d ok low high f n
  = if low >=? high then ret tt
    else fork_join ok mk_arg_1d "pthread_create failed in parallel_for (1D)"
           (call1 f)
           "[SimpleMultithreader] parallel_for(1D) time = "
           (fst (fallback low high (coerce n)))
           (snd (fallback low high (coerce n))).
Proof.
  unfold simple_mt.parallel_for_1d, fallback, coerce.
  change simple_mt.split_range with sm_split_range.
  destruct (low >=? high); [reflexivity|].
  destruct (negb _); reflexivity.
Qed.

Lemma simple_mt_parallel_for_2d_eq ok low1 high1 low2 high2 f n :
  simple_mt.parallel_for_2d ok low1 high1 low2 high2 f n
  = if (low1 >=? high1) || (low2 >=? high2) then ret tt
    else
      let cols := int_sub high2 low2 in
      let total := ll_mul (int_sub high1 low1) cols in
      if total <=? 0 then ret tt
      else if total >? INT_MAX then
        throw (runtime_error
          "2D range too large to handle (exceeds INT_MAX flattened size).")
      else fork_join ok (mk_arg_2d low1 low2 (wrap_int cols))
             "pthread_create failed in parallel_for (2D)"
             (flat_body f low1 low2 (wrap_int cols))
             "[SimpleMultithreader] parallel_for(2D) time = "
             (fst (fallback 0 (wrap_int total) (coerce n)))
             (snd (fallback 0 (wrap_int total) (coerce n))).
Proof.
  unfold simple_mt.parallel_for_2d, fallback, coerce.
  change simple_mt.split_range with sm_split_range. cbv zeta.
  destruct (_ || _); [reflexivity|].
  destruct (_ <=? 0); [reflexivity|].
  destruct (_ >? INT_MAX); [reflexivity|].
  destruct (negb _); reflexivity.
Qed.

Lemma fork_join_message ok mk msg1 msg2 work line parts n :
  1 <= n <= INT_MAX -> List.length parts = Z.to_nat n ->
  trace (fork_join ok mk msg1 work line parts n)
  = trace (fork_join ok mk msg2 work line parts n)
  /\ same_up_to_message (outcome (fork_join ok mk msg1 work line parts n))
                        (outcome (fork_join ok mk msg2 work line parts n)).
Proof.
  intros Hn Hlen.
  destruct (fork_join_cases ok mk msg1 work line parts n Hn Hlen)
    as [[Hall E] | (k & Hk & Hf & Hp & E)]; rewrite E.
  - rewrite (fork_join_all_created ok mk msg2) by assumption.
    split; [reflexivity | now left].
  - rewrite (fork_join_fails ok mk msg2 work line parts n k) by assumption.
    split; [reflexivity|]. right. now eexists _, _.
Qed.

(** The two copies of each entry point produce the same events and the
    same result, up to the text of the error message. *)
Lemma simple_mt_parallel_for_1d_same ok low high f n :
  trace (simple_mt.parallel_for_1d ok low high f n)
  = trace (parallel_for_1d ok low high f n)
  /\ same_up_to_message (outcome (simple_mt.parallel_for_1d ok low high f n))
                        (outcome (parallel_for_1d ok low high f n)).
Proof.
  rewrite simple_mt_parallel_for_1d_eq, parallel_for_1d_eq.
  destruct (low >=? high); [split; [reflexivity | now left]|].
  destruct (fallback_shape low high (coerce n) (coerce_pos n)) as (Hb & Hlen & _).
  now apply fork_join_message.
Qed.

Lemma simple_mt_parallel_for_2d_same ok low1 high1 low2 high2 f n :
  trace (simple_mt.parallel_for_2d ok low1 high1 low2 high2 f n)
  = trace (parallel_for_2d ok low1 high1 low2 high2 f n)
  /\ same_up_to_message
       (outcome (simple_mt.parallel_for_2d ok low1 high1 low2 high2 f n))
       (outcome (parallel_for_2d ok low1 high1 low2 high2 f n)).
Proof.
  rewrite simple_mt_parallel_for_2d_eq, parallel_for_2d_eq. cbv zeta.
  destruct (_ || _); [split; [reflexivity | now left]|].
  destruct (_ <=? 0); [split; [reflexivity | now left]|].
  destruct (_ >? INT_MAX).
  - split; [reflexivity|]. right. now eexists _, _.
  - destruct (fallback_shape 0
                (wrap_int (ll_mul (int_sub high1 low1) (int_sub high2 low2)))
                (coerce n) (coerce_pos n)) as (Hb & Hlen & _).
    now apply fork_join_message.
Qed.

(** * Further properties of the code *)

(** ** The vector of partitions *)

Lemma map_const_repeat {A B} (c : B) (l : list A) :
  map (fun _ => c) l = repeat c (List.length l).
Proof. induction l as [|a l IH]; cbn; [reflexivity | now rewrite IH]. Qed.

(** X1.  [sm_split_range] returns no partition when [numPieces <= 0] and
    exactly [numPieces] partitions when [numPieces >= 1], whatever [low]
    and [high] are, also when [high - low] wraps; on an empty range they
    all are [[low, low)].  For a thread count that is an [int] the test
    [(int)parts.size() != numThreads] of the entry points is therefore
    never true. *)
Theorem sm_split_range_entry_count (low high n : Z) :
  (n <= 0 -> sm_split_range low high n = [])
  /\ (1 <= n -> List.length (sm_split_range low high n) = Z.to_nat n)
  /\ (1 <= n -> low >= high ->
      sm_split_range low high n = repeat (low, low) (Z.to_nat n))
  /\ (is_int n ->
      negb (vec_size (sm_split_range low high (coerce n)) =? coerce n)
      = false).
Proof.
  split; [|split; [|split]].
  - intros Hn. unfold sm_split_range.
    destruct (Z.leb_spec n 0); [reflexivity | lia].
  - apply sm_split_range_length.
  - intros Hn Hge. unfold sm_split_range.
    destruct (Z.leb_spec n 0); [lia|].
    destruct (Z.geb_spec low high); [|lia].
    rewrite map_const_repeat, int_range_length. f_equal. lia.
  - intros Hn. pose proof (coerce_pos n) as Hc.
    assert (Hi : is_int (coerce n)).
    { unfold coerce. destruct (n <=? 0); [|exact Hn].
      unfold is_int, INT_MIN, INT_MAX. lia. }
    unfold vec_size. rewrite sm_split_range_length by lia.
    rewrite Z2Nat.id by lia. rewrite wrap_int_small by exact Hi.
    now rewrite Z.eqb_refl.
Qed.

(** X1 applies to five pieces over a range whose extent wraps. *)
Lemma sm_split_range_entry_count_witness :
  List.length (sm_split_range INT_MIN INT_MAX 5) = Z.to_nat 5
  /\ sm_split_range 7 7 5 = repeat (7, 7) (Z.to_nat 5)
  /\ negb (vec_size (sm_split_range INT_MIN INT_MAX (coerce 5)) =? coerce 5)
     = false.
Proof.
  destruct (sm_split_range_entry_count INT_MIN INT_MAX 5) as (_ & H2 & _ & H4).
  destruct (sm_split_range_entry_count 7 7 5) as (_ & _ & H3 & _).
  split; [apply H2; lia|].
  split; [apply H3; lia|].
  apply H4. unfold is_int, INT_MIN, INT_MAX. lia.
Defined.

(** ** Calls with a single thread *)

Lemma coerce_le_1 n : n <= 1 -> coerce n = 1.
Proof. intros H. unfold coerce. destruct (Z.leb_spec n 0); lia. Qed.

(** X2.  With [numThreads <= 1] the 1-D entry point is the sequential
    loop: whenever the callback returns normally on [[low, high)], the
    calling thread invokes it on [low, low+1, ..., high-1] in that order,
    creates no worker, reports the time and returns.  This holds for
    every [int] range, also when [high - low] does not fit an [int]. *)
Theorem parallel_for_1d_single_thread_is_sequential ok low high f n :
  n <= 1 -> is_int high -> low < high ->
  (forall i, low <= i < high -> f i = None) ->
  parallel_for_1d ok low high f n
  = (map EvCall1 (int_range low high)
       ++ [EvPrint "[SimpleMultithreader] parallel_for(1D) time = "],
     Ok tt).
Proof.
  intros Hn Hh Hlt Hf. rewrite parallel_for_1d_eq.
  destruct (Z.geb_spec low high); [lia|].
  rewrite (coerce_le_1 n Hn).
  assert (I1 : is_int 1) by (unfold is_int, INT_MIN, INT_MAX; lia).
  destruct (fallback_shape low high 1 ltac:(lia)) as (_ & _ & Hs).
  destruct (Hs I1) as [E1 E2]. rewrite E1, E2.
  rewrite fork_join_single by (now rewrite sm_split_range_length).
  rewrite sm_split_range_one by assumption. cbn [nth fst snd].
  unfold for_int. rewrite for_each_call1_ok.
  - reflexivity.
  - intros x Hx. apply Hf. now apply int_range_In.
Qed.

(** X2 applies to the widest range ending at [INT_MAX]. *)
Lemma parallel_for_1d_single_thread_is_sequential_witness :
  parallel_for_1d always_ok INT_MIN INT_MAX never_throws1 0
  = (map EvCall1 (int_range INT_MIN INT_MAX)
       ++ [EvPrint "[SimpleMultithreader] parallel_for(1D) time = "],
     Ok tt).
Proof.
  apply parallel_for_1d_single_thread_is_sequential;
    unfold is_int, INT_MIN, INT_MAX; try lia; reflexivity.
Defined.

(** ** The 2-D entry point and the nested sequential loops *)

Lemma int_range_shift (s e d : Z) :
  map (fun x => x + d) (int_range s e) = int_range (s + d) (e + d).
Proof.
  unfold int_range. rewrite map_map.
  replace (e + d - (s + d)) with (e - s) by lia.
  apply map_ext. intros k. lia.
Qed.

Lemma unflatten_rows low1 high1 low2 high2 (r : nat) :
  is_int low1 -> is_int high1 -> is_int low2 -> is_int high2 ->
  1 <= high2 - low2 -> low1 + Z.of_nat r <= high1 ->
  map (unflatten low1 low2 (high2 - low2))
      (int_range 0 (Z.of_nat r * (high2 - low2)))
  = grid low1 (low1 + Z.of_nat r) low2 high2.
Proof.
  intros H1 H2 H3 H4 Hc. set (cols := high2 - low2) in *.
  induction r as [|r IH]; intros Hr.
  - unfold grid. cbn [Z.of_nat]. rewrite Z.mul_0_l, Z.add_0_r.
    now rewrite (int_range_nil 0 0), (int_range_nil low1 low1) by lia.
  - replace (Z.of_nat (S r) * cols)
      with (Z.of_nat r * cols + cols) by lia.
    replace (low1 + Z.of_nat (S r)) with (low1 + Z.of_nat r + 1) by lia.
    rewrite <- (int_range_app 0 (Z.of_nat r * cols)) by nia.
    unfold grid. rewrite int_range_snoc by lia.
    rewrite map_app, flat_map_app, IH by lia. unfold grid. f_equal.
    cbn [flat_map]. rewrite app_nil_r.
    set (d := Z.of_nat r * cols - low2).
    replace (Z.of_nat r * cols) with (low2 + d) by (subst d; lia).
    replace (low2 + d + cols) with (high2 + d) by (subst d cols; lia).
    rewrite <- int_range_shift, map_map.
    apply map_ext_in. intros j Hj. apply int_range_In in Hj.
    destruct (unflatten_flatten low1 high1 low2 high2
                (low1 + Z.of_nat r) j H1 H2 H3 H4 Hc ltac:(lia) Hj) as [_ E].
    fold cols in E. rewrite <- E. f_equal.
    unfold flatten. cbn [fst snd]. subst d. lia.
Qed.

Lemma parallel_for_2d_all_calls ok low1 high1 low2 high2 f n :
  is_int low1 -> is_int high1 -> is_int low2 -> is_int high2 -> is_int n ->
  low1 < high1 -> low2 < high2 ->
  (high1 - low1) * (high2 - low2) <= INT_MAX ->
  (forall t, ok t = true) ->
  (forall i j, low1 <= i < high1 -> low2 <= j < high2 -> f i j = None) ->
  all_calls2 f (parallel_for_2d ok low1 high1 low2 high2 f n)
  = map (unflatten low1 low2 (high2 - low2))
        (int_range 0 ((high1 - low1) * (high2 - low2))).
Proof.
  intros H1 H2 H3 H4 Hn Hr Hc Hfit Hok Hf.
  destruct (parallel_for_2d_normal ok low1 high1 low2 high2 f n
              H1 H2 H3 H4 Hn Hr Hc Hfit Hok Hf) as (Hcont & Hlen & Hrun).
  set (cols := high2 - low2) in *. set (total := (high1 - low1) * cols) in *.
  set (N := coerce n) in *. set (parts := sm_split_range 0 total N) in *.
  set (last := nth (Z.to_nat (N - 1)) parts (0, 0)) in *.
  pose proof (coerce_pos n) as HN. fold N in HN.
  unfold all_calls2. rewrite Hrun. cbn [trace fst].
  rewrite !created_app, !calls2_app.
  rewrite (calls2_created (unflatten low1 low2 cols)), joins_created,
    create_events_no_call2, joins_no_call2,
    (calls2_map_call (unflatten low1 low2 cols)).
  cbn [created calls2 app]. rewrite !app_nil_r.
  rewrite create_events_firstn by lia.
  rewrite workers_2d_calls.
  - rewrite <- (contiguous_from_flat 0 parts total Hcont).
    pose proof (split_last parts (0, 0) (Z.to_nat (N - 1))) as Hsp.
    fold last in Hsp. rewrite Hsp at 2 by lia.
    rewrite flat_map_app, map_app. cbn [flat_map]. now rewrite app_nil_r.
  - subst cols. lia.
  - intros p Hp. apply firstn_In_l in Hp.
    pose proof (contiguous_from_bounds 0 parts total p Hcont Hp). lia.
  - intros p x Hp Hx. apply firstn_In_l in Hp.
    pose proof (contiguous_from_bounds 0 parts total p Hcont Hp).
    destruct (flatten_unflatten low1 high1 low2 high2 x H1 H2 H3 H4)
      as (Hi & Hj & _); [subst cols; lia | fold cols total; lia |].
    now apply Hf.
Qed.

(** X3.  When nothing fails, the invocations of the 2-D entry point,
    taken partition by partition (workers in creation order, then the
    calling thread), are the cells in the order of the nested loops
    [for i in [low1, high1) for j in [low2, high2)]; with
    [numThreads <= 1] all of them are made by the calling thread, so the
    call is that nested loop. *)
Theorem parallel_for_2d_is_row_major ok low1 high1 low2 high2 f n :
  is_int low1 -> is_int high1 -> is_int low2 -> is_int high2 -> is_int n ->
  low1 < high1 -> low2 < high2 ->
  (high1 - low1) * (high2 - low2) <= INT_MAX ->
  (forall t, ok t = true) ->
  (forall i j, low1 <= i < high1 -> low2 <= j < high2 -> f i j = None) ->
  let run := parallel_for_2d ok low1 high1 low2 high2 f n in
  all_calls2 f run = grid low1 high1 low2 high2
  /\ (n <= 1 ->
      created (trace run) = []
      /\ calls2 (trace run) = grid low1 high1 low2 high2).
Proof.
  intros H1 H2 H3 H4 Hn Hr Hc Hfit Hok Hf run.
  assert (Hall : all_calls2 f run = grid low1 high1 low2 high2).
  { subst run. rewrite parallel_for_2d_all_calls by assumption.
    pose proof (unflatten_rows low1 high1 low2 high2
                  (Z.to_nat (high1 - low1)) H1 H2 H3 H4 ltac:(lia) ltac:(lia))
      as E.
    rewrite Z2Nat.id in E by lia.
    replace (low1 + (high1 - low1)) with high1 in E by lia. exact E. }
  split; [exact Hall|]. intros Hn1.
  destruct (parallel_for_2d_normal ok low1 high1 low2 high2 f n
              H1 H2 H3 H4 Hn Hr Hc Hfit Hok Hf) as (_ & _ & Hrun).
  fold run in Hrun. rewrite (coerce_le_1 n Hn1) in Hrun.
  assert (Hcr : created (trace run) = []).
  { rewrite Hrun. cbn [trace fst].
    rewrite !created_app,
      (calls2_created (unflatten low1 low2 (high2 - low2))), joins_created.
    reflexivity. }
  split; [exact Hcr|].
  rewrite <- Hall. unfold all_calls2. now rewrite Hcr.
Qed.

(** X3 applies to a 2 x 3 grid run by one thread. *)
Lemma parallel_for_2d_is_row_major_witness :
  let run := parallel_for_2d always_ok 5 7 (-1) 2 never_throws2 1 in
  all_calls2 never_throws2 run = grid 5 7 (-1) 2
  /\ calls2 (trace run) = grid 5 7 (-1) 2.
Proof.
  intros run.
  destruct (parallel_for_2d_is_row_major always_ok 5 7 (-1) 2 never_throws2 1)
    as [Ha Hs];
    try (unfold is_int, INT_MIN, INT_MAX; lia); try reflexivity.
  split; [exact Ha|]. apply Hs. lia.
Defined.

(** ** At most once, whatever fails *)

Lemma sorted_app_lt (l1 l2 : list Z) :
  StronglySorted Z.lt l1 -> StronglySorted Z.lt l2 ->
  (forall a b, In a l1 -> In b l2 -> a < b) ->
  StronglySorted Z.lt (l1 ++ l2).
Proof.
  intros H1 H2 H. induction H1 as [|a l1 Hl IH Ha]; [exact H2|].
  cbn [app]. constructor.
  - apply IH. intros x y Hx Hy. apply H; [now right | exact Hy].
  - apply Forall_app. split; [exact Ha|].
    apply Forall_forall. intros y Hy. apply H; [now left | exact Hy].
Qed.

Lemma contiguous_from_app_inv cur (a b : list (Z * Z)) high :
  contiguous_from cur (a ++ b) high ->
  exists mid, contiguous_from cur a mid /\ contiguous_from mid b high.
Proof.
  revert cur. induction a as [|[s e] a IH]; intros cur H.
  - exists cur. split; [reflexivity | exact H].
  - cbn in H. destruct H as (-> & Hle & H).
    destruct (IH _ H) as (mid & Ha & Hb).
    exists mid. split; [cbn; auto | exact Hb].
Qed.

Lemma flat_map_map_l {A B C} (g : B -> list C) (h : A -> B) (l : list A) :
  flat_map g (map h l) = flat_map (fun a => g (h a)) l.
Proof. induction l as [|a l IH]; cbn; [reflexivity | now rewrite IH]. Qed.

(** Initial segments of partitions that lie end to end, put one after the
    other, form a strictly increasing list inside the chain. *)
Lemma prefixes_of_chain {B} (U : Z -> B) (G : Z * Z -> list B) ps cur high :
  contiguous_from cur ps high ->
  (forall p, In p ps ->
     exists l, is_prefix l (int_range (fst p) (snd p)) /\ G p = map U l) ->
  exists L, StronglySorted Z.lt L /\ (forall x, In x L -> cur <= x < high)
            /\ flat_map G ps = map U L.
Proof.
  revert cur. induction ps as [|[s e] ps IH]; intros cur Hc HG.
  - exists []. split; [constructor|]. split; [intros x []|reflexivity].
  - cbn in Hc. destruct Hc as (-> & Hle & Hc).
    pose proof (contiguous_from_le _ _ _ Hc) as Hh.
    destruct (HG (cur, e) (or_introl eq_refl)) as (l & [m Hl] & El).
    destruct (IH e Hc) as (L & HsL & HbL & EL);
      [intros p Hp; apply HG; now right|].
    cbn [fst snd] in Hl.
    assert (Hin : forall x, In x l -> cur <= x < e).
    { intros x Hx. rewrite Hl in Hx. apply firstn_In_l in Hx.
      now apply int_range_In in Hx. }
    exists (l ++ L). split; [|split].
    + apply sorted_app_lt; auto.
      * rewrite Hl. apply firstn_sorted, int_range_sorted.
      * intros a b Ha Hb. specialize (Hin a Ha). specialize (HbL b Hb). lia.
    + intros x Hx. apply in_app_or in Hx as [Hx|Hx].
      * specialize (Hin x Hx). lia.
      * specialize (HbL x Hx). lia.
    + cbn [flat_map]. now rewrite El, EL, map_app.
Qed.

(** The events of any run of the skeleton: the creations of workers
    [0 .. k-1], the calls of the calling thread on an initial segment of
    the last partition, and then only failure, join and print events. *)
Lemma fork_join_trace_shape ok mk msg work line parts n (ev : Z -> event) :
  1 <= n <= INT_MAX -> List.length parts = Z.to_nat n ->
  (forall xs, exists m, trace (for_each xs work) = map ev (firstn m xs)) ->
  let own := nth (Z.to_nat (n - 1)) parts (0, 0) in
  exists k lm tail,
    0 <= k <= n - 1
    /\ is_prefix lm (int_range (fst own) (snd own))
    /\ trace (fork_join ok mk msg work line parts n)
       = create_events mk parts k ++ map ev lm ++ tail
    /\ created tail = [] /\ calls1 tail = [] /\ calls2 tail = [].
Proof.
  intros Hn Hlen Hwork own.
  destruct (fork_join_cases ok mk msg work line parts n Hn Hlen)
    as [[_ E] | (k & Hk & _ & _ & E)]; rewrite E; cbn [trace fst].
  - fold own. unfold for_int.
    destruct (Hwork (int_range (fst own) (snd own))) as [m Hm].
    exists (n - 1), (firstn m (int_range (fst own) (snd own))).
    eexists. split; [lia|]. split; [now exists m|].
    rewrite Hm. split; [reflexivity|].
    destruct (tail_projections line (n - 1)
                (outcome (for_each (int_range (fst own) (snd own)) work)))
      as (Ht1 & Ht2 & Ht3 & _).
    cbv zeta in Ht1, Ht2, Ht3. auto.
  - exists k, [], (EvCreateFailed k :: map EvJoin (int_range 0 k)).
    split; [lia|]. split; [apply is_prefix_nil|]. split; [reflexivity|].
    cbn [created calls1 calls2].
    now rewrite joins_created, joins_no_call1, joins_no_call2.
Qed.

Lemma call1_loop_trace f xs :
  exists m, trace (for_each xs (call1 f)) = map EvCall1 (firstn m xs).
Proof. apply for_each_call1_prefix. Qed.

Lemma worker_1d_prefix f p :
  exists l, is_prefix l (int_range (fst p) (snd p))
            /\ calls1 (trace (sm_thread_entry_1d f (Some (mk_arg_1d p))))
               = map (fun x => x) l.
Proof.
  rewrite sm_thread_entry_1d_eq, try_catch_all_trace.
  unfold mk_arg_1d, SM_ThreadArg_new. cbn [start_idx end_idx].
  destruct (for_each_call1_prefix f (int_range (fst p) (snd p))) as [m ->].
  exists (firstn m (int_range (fst p) (snd p))).
  split; [now exists m|]. now rewrite calls1_map_call, map_id.
Qed.

Lemma worker_2d_prefix f l1 l2 w p :
  exists l, is_prefix l (int_range (fst p) (snd p))
            /\ calls2 (trace (sm_thread_entry_2d f (Some (mk_arg_2d l1 l2 w p))))
               = map (unflatten l1 l2 w) l.
Proof.
  rewrite sm_thread_entry_2d_eq, try_catch_all_trace.
  unfold mk_arg_2d. cbn [start_idx end_idx low1 low2 width2].
  destruct (for_each_flat_trace f l1 l2 w (int_range (fst p) (snd p)))
    as [m ->].
  exists (firstn m (int_range (fst p) (snd p))).
  split; [now exists m | apply flats_calls2].
Qed.

(** The positions visited by all threads of a run of the skeleton over a
    chain of partitions. *)
Lemma fork_join_positions {B} (U : Z -> B) (G : Z * Z -> list B)
    (lm : list Z) (k : Z) parts n cur high :
  1 <= n -> List.length parts = Z.to_nat n -> 0 <= k <= n - 1 ->
  contiguous_from cur parts high ->
  (forall p, exists l, is_prefix l (int_range (fst p) (snd p))
                       /\ G p = map U l) ->
  is_prefix lm (int_range (fst (nth (Z.to_nat (n - 1)) parts (0, 0)))
                          (snd (nth (Z.to_nat (n - 1)) parts (0, 0)))) ->
  exists L, StronglySorted Z.lt L /\ (forall x, In x L -> cur <= x < high)
            /\ flat_map G (firstn (Z.to_nat k) parts) ++ map U lm = map U L.
Proof.
  intros Hn Hlen Hk Hc HG Hlm.
  set (own := nth (Z.to_nat (n - 1)) parts (0, 0)) in *.
  set (A := firstn (Z.to_nat (n - 1)) parts).
  assert (Hparts : parts = A ++ [own])
    by (apply split_last; lia).
  rewrite Hparts in Hc.
  destruct (contiguous_from_app_inv _ _ _ _ Hc) as (mid1 & HA & Hown).
  cbn in Hown. destruct own as [so eo] eqn:Eown.
  destruct Hown as (-> & Hle & ->). cbn [fst snd] in Hlm.
  assert (HkA : firstn (Z.to_nat k) parts = firstn (Z.to_nat k) A).
  { subst A. rewrite firstn_firstn. f_equal. lia. }
  rewrite HkA.
  rewrite <- (firstn_skipn (Z.to_nat k) A) in HA.
  destruct (contiguous_from_app_inv _ _ _ _ HA) as (mid & Hpre & Hpost).
  pose proof (contiguous_from_le _ _ _ Hpost) as Hmid.
  pose proof (contiguous_from_le _ _ _ Hpre) as Hcur.
  destruct (prefixes_of_chain U G _ _ _ Hpre (fun p _ => HG p))
    as (L & HsL & HbL & EL).
  destruct Hlm as [m Hm].
  assert (Hin : forall x, In x lm -> mid1 <= x < high).
  { intros x Hx. rewrite Hm in Hx. apply firstn_In_l in Hx.
    now apply int_range_In in Hx. }
  exists (L ++ lm). split; [|split].
  - apply sorted_app_lt; auto.
    + rewrite Hm. apply firstn_sorted, int_range_sorted.
    + intros a b Ha Hb. specialize (HbL a Ha). specialize (Hin b Hb). lia.
  - intros x Hx. apply in_app_or in Hx as [Hx|Hx].
    + specialize (HbL x Hx). lia.
    + specialize (Hin x Hx). lia.
  - now rewrite EL, map_app.
Qed.

(** X4.  Whatever [pthread_create] and the callback do (failed
    creations, exceptions in workers or in the calling thread), the 1-D
    entry point never invokes the callback on an index outside
    [[low, high)] and never invokes it twice on the same index, provided
    the extent [high - low] fits an [int]: taken partition by partition,
    the invoked indices are strictly increasing. *)
Theorem parallel_for_1d_at_most_once ok low high f n :
  is_int low -> is_int high -> is_int n -> high - low <= INT_MAX ->
  let visited := all_calls1 f (parallel_for_1d ok low high f n) in
  StronglySorted Z.lt visited
  /\ NoDup visited
  /\ (forall i, In i visited -> low <= i < high).
Proof.
  intros Hlow Hhigh Hn Hfit visited.
  assert (H : StronglySorted Z.lt visited
              /\ (forall i, In i visited -> low <= i < high)).
  { subst visited.
    destruct (parallel_for_1d_cases ok low high f n)
      as [[E _] | (ps & N & HN & Hlen & Hlt & Hs & E)];
      cbv zeta in E; rewrite E.
    { split; [constructor | intros i []]. }
    destruct (Hs Hn) as [EN Eps].
    assert (Hc : contiguous_from low ps high).
    { rewrite Eps. apply sm_split_range_contiguous; auto; lia. }
    destruct (fork_join_trace_shape ok mk_arg_1d "pthread_create failed (1D)"
                (call1 f) "[SimpleMultithreader] parallel_for(1D) time = "
                ps N EvCall1 HN Hlen (call1_loop_trace f))
      as (k & lm & tail & Hk & Hlm & Et & Ht1 & Ht2 & _).
    unfold all_calls1. rewrite Et.
    rewrite !created_app, !calls1_app, Ht1, Ht2, calls_created,
      create_events_no_call1, calls1_map_call, !app_nil_r.
    cbn [app]. rewrite create_events_firstn by lia.
    rewrite flat_map_map_l.
    destruct (fork_join_positions (fun x => x)
                (fun p => calls1 (trace (sm_thread_entry_1d f
                                           (Some (mk_arg_1d p)))))
                lm k ps N low high ltac:(lia) Hlen Hk Hc
                (worker_1d_prefix f) Hlm) as (L & HsL & HbL & EL).
    rewrite !map_id in EL. rewrite EL. split; assumption. }
  destruct H as [Hs Hb]. split; [exact Hs|].
  split; [now apply sorted_lt_NoDup | exact Hb].
Qed.

(** X4 applies to a call whose second creation fails and whose callback
    throws on index 1. *)
Lemma parallel_for_1d_at_most_once_witness :
  let f := fun i => if i =? 1 then Some (other_exn 3) else None in
  let visited :=
    all_calls1 f (parallel_for_1d (fun t => t =? 0) 0 10 f 4) in
  NoDup visited /\ (forall i, In i visited -> 0 <= i < 10).
Proof.
  intros f visited.
  destruct (parallel_for_1d_at_most_once (fun t => t =? 0) 0 10 f 4)
    as (_ & Hn & Hb); try (unfold is_int, INT_MIN, INT_MAX; lia).
  split; [exact Hn | exact Hb].
Defined.

(** X5.  Whatever [pthread_create] and the callback do, the 2-D entry
    point never invokes the callback on a cell outside the grid and never
    invokes it twice on the same cell, provided the size [rows * cols]
    fits an [int]. *)
Theorem parallel_for_2d_at_most_once ok low1 high1 low2 high2 f n :
  is_int low1 -> is_int high1 -> is_int low2 -> is_int high2 -> is_int n ->
  low1 < high1 -> low2 < high2 ->
  (high1 - low1) * (high2 - low2) <= INT_MAX ->
  let visited := all_calls2 f (parallel_for_2d ok low1 high1 low2 high2 f n) in
  NoDup visited
  /\ (forall i j, In (i, j) visited ->
        low1 <= i < high1 /\ low2 <= j < high2).
Proof.
  intros H1 H2 H3 H4 Hn Hr Hc Hfit visited.
  set (cols := high2 - low2). set (total := (high1 - low1) * cols).
  assert (Hcols : 1 <= cols <= INT_MAX) by (subst cols; nia).
  assert (Htot : 1 <= total <= INT_MAX) by (subst total cols; nia).
  pose proof (coerce_pos n) as HN.
  assert (HNi : is_int (coerce n)).
  { unfold coerce. destruct (n <=? 0); [|exact Hn].
    unfold is_int, INT_MIN, INT_MAX. lia. }
  set (parts := sm_split_range 0 total (coerce n)).
  assert (Hcont : contiguous_from 0 parts total).
  { subst parts. apply sm_split_range_contiguous; auto;
      unfold is_int, INT_MIN, INT_MAX in *; lia. }
  assert (Hlen : List.length parts = Z.to_nat (coerce n))
    by (subst parts; now apply sm_split_range_length).
  assert (E : parallel_for_2d ok low1 high1 low2 high2 f n = _)
    by (apply (parallel_for_2d_guards ok low1 high1 low2 high2 f n);
        auto; nia).
  fold cols total in E.
  destruct (Z.gtb_spec total INT_MAX); [lia|].
  destruct (fallback_shape 0 total (coerce n) HN) as (Hb & _ & Hsame).
  destruct (Hsame HNi) as [E1 E2]. rewrite E1, E2 in E. fold parts in E.
  rewrite E1 in Hb.
  destruct (fork_join_trace_shape ok (mk_arg_2d low1 low2 cols)
              "pthread_create failed (2D)" (flat_body f low1 low2 cols)
              "[SimpleMultithreader] parallel_for(2D) time = "
              parts (coerce n) (flat_event low1 low2 cols) Hb Hlen
              (for_each_flat_trace f low1 low2 cols))
    as (k & lm & tail & Hk & Hlm & Et & Ht1 & _ & Ht3).
  assert (Hv : exists L, StronglySorted Z.lt L
                 /\ (forall x, In x L -> 0 <= x < total)
                 /\ visited = map (unflatten low1 low2 cols) L).
  { subst visited. unfold all_calls2. rewrite E, Et.
    rewrite !created_app, !calls2_app, Ht1, Ht3, flats_created,
      create_events_no_call2, flats_calls2, !app_nil_r.
    cbn [app]. rewrite create_events_firstn by lia.
    rewrite flat_map_map_l.
    apply (fork_join_positions (unflatten low1 low2 cols)
             (fun p => calls2 (trace (sm_thread_entry_2d f
                                        (Some (mk_arg_2d low1 low2 cols p)))))
             lm k parts (coerce n) 0 total); auto.
    intros p. apply worker_2d_prefix. }
  destruct Hv as (L & HsL & HbL & ->).
  assert (Hgrid : forall x, In x L ->
            let c := unflatten low1 low2 cols x in
            low1 <= fst c < high1 /\ low2 <= snd c < high2
            /\ flatten low1 low2 cols c = x).
  { intros x Hx.
    apply (flatten_unflatten low1 high1 low2 high2 x H1 H2 H3 H4);
      [subst cols; lia | fold cols total; now apply HbL]. }
  split.
  - apply NoDup_map_inj_on; [|now apply sorted_lt_NoDup].
    intros x y Hx Hy Exy.
    destruct (Hgrid x Hx) as (_ & _ & Ex).
    destruct (Hgrid y Hy) as (_ & _ & Ey). congruence.
  - intros i j Hin. apply in_map_iff in Hin as (x & Ex & Hx).
    destruct (Hgrid x Hx) as (Hi & Hj & _). rewrite Ex in Hi, Hj.
    cbn [fst snd] in Hi, Hj. tauto.
Qed.

(** X5 applies to a 3 x 4 call whose only creation fails. *)
Lemma parallel_for_2d_at_most_once_witness :
  let visited :=
    all_calls2 never_throws2
      (parallel_for_2d (fun _ => false) 0 3 0 4 never_throws2 2) in
  NoDup visited
  /\ (forall i j, In (i, j) visited -> 0 <= i < 3 /\ 0 <= j < 4).
Proof.
  apply (parallel_for_2d_at_most_once (fun _ => false) 0 3 0 4 never_throws2 2);
    unfold is_int, INT_MIN, INT_MAX; lia.
Defined.

(** ** What has run when a creation fails *)

Lemma contiguous_from_firstn cur ps high (k : nat) :
  contiguous_from cur ps high -> (k < List.length ps)%nat ->
  contiguous_from cur (firstn k ps) (fst (nth k ps (0, 0))).
Proof.
  revert cur k. induction ps as [|[s e] ps IH]; intros cur k Hc Hk.
  - cbn in Hk. lia.
  - cbn in Hc. destruct Hc as (-> & Hle & Hc). destruct k as [|k].
    + reflexivity.
    + cbn [firstn nth contiguous_from]. split; [reflexivity|].
      split; [exact Hle|]. apply IH; [exact Hc | cbn in Hk; lia].
Qed.

(** X6.  On a non-empty range whose extent [high - low] fits an [int]:
    when the creation of worker [k] fails, the workers [0 .. k-1] that
    were already started still run: if the callback returns normally, it
    has been invoked exactly on the indices of the first [k] partitions,
    that is on [[low, low + k*base + min(k, rem))], and on no index of the
    calling thread's or of any later partition. *)
Theorem startup_failure_runs_first_partitions ok low high f n k :
  is_int low -> is_int high -> is_int n ->
  low < high -> high - low <= INT_MAX ->
  0 <= k < coerce n - 1 -> ok k = false ->
  (forall t, 0 <= t < k -> ok t = true) ->
  (forall i, low <= i < high -> f i = None) ->
  let run := parallel_for_1d ok low high f n in
  let N := coerce n in
  let stop := part_offset low ((high - low) / N) ((high - low) mod N) k in
  outcome run = Throw (runtime_error "pthread_create failed (1D)")
  /\ calls1 (trace run) = []
  /\ all_calls1 f run = int_range low stop
  /\ low <= stop <= high.
Proof.
  intros Hlow Hhigh Hn Hlt Hfit Hk Hfail Hbefore Hf run N stop.
  pose proof (coerce_pos n) as HN. fold N in HN, Hk.
  set (parts := sm_split_range low high N).
  assert (Hc : contiguous_from low parts high)
    by (subst parts; now apply sm_split_range_contiguous).
  assert (Hlen : List.length parts = Z.to_nat N)
    by (subst parts; now apply sm_split_range_length).
  assert (Hstop : fst (nth (Z.to_nat k) parts (0, 0)) = stop).
  { subst parts stop.
    pose proof (sm_split_range_nth low high N Hlow Hhigh Hlt Hfit HN k
                  ltac:(lia)) as Hnth.
    now rewrite (nth_error_nth _ _ (0, 0) Hnth). }
  destruct (parallel_for_1d_cases ok low high f n)
    as [[_ Hge] | (ps & N' & HN' & Hlen' & _ & Hs & E)]; [lia|].
  destruct (Hs Hn) as [-> ->]. fold run N parts in E, HN', Hlen'.
  rewrite (fork_join_fails _ _ _ _ _ _ _ k HN' Hlen' Hk Hfail Hbefore) in E.
  assert (Hpre : contiguous_from low (firstn (Z.to_nat k) parts) stop).
  { rewrite <- Hstop.
    apply (contiguous_from_firstn low parts high); [exact Hc | lia]. }
  split; [now rewrite E|]. split; [rewrite E; now proj_simpl|].
  split.
  - unfold all_calls1. rewrite E. proj_simpl.
    rewrite <- create_events_created, create_events_firstn by lia.
    rewrite workers_1d_calls.
    + exact (contiguous_from_flat low _ stop Hpre).
    + intros p i Hp Hi. apply Hf. apply firstn_In_l in Hp.
      pose proof (contiguous_from_bounds low parts high p Hc Hp). lia.
  - pose proof (contiguous_from_le _ _ _ Hpre).
    assert (Hin : In (nth (Z.to_nat k) parts (0, 0)) parts)
      by (apply nth_In; lia).
    pose proof (contiguous_from_bounds low parts high _ Hc Hin). lia.
Qed.

(** X6 applies to a four-thread call over [[0, 10)] whose third creation
    fails: the indices [0 .. 5] of the first two partitions have run. *)
Lemma startup_failure_runs_first_partitions_witness :
  let ok := fun t => negb (t =? 2) in
  let run := parallel_for_1d ok 0 10 never_throws1 4 in
  outcome run = Throw (runtime_error "pthread_create failed (1D)")
  /\ all_calls1 never_throws1 run
     = int_range 0 (part_offset 0 ((10 - 0) / coerce 4)
                                ((10 - 0) mod coerce 4) 2).
Proof.
  intros ok run.
  destruct (startup_failure_runs_first_partitions ok 0 10 never_throws1 4 2)
    as (Ho & _ & Ha & _);
    try (unfold is_int, INT_MIN, INT_MAX; lia); try reflexivity.
  - change (0 <= 2 < 4 - 1). lia.
  - intros t Ht. unfold ok. destruct (Z.eqb_spec t 2); [lia | reflexivity].
  - split; [exact Ho | exact Ha].
Defined.

(** ** Joins and the timing line *)

Lemma printed_app tr1 tr2 : printed (tr1 ++ tr2) = printed tr1 ++ printed tr2.
Proof. induction tr1 as [|[] tr1 IH]; cbn; congruence. Qed.

Lemma create_events_no_print mk parts k : printed (create_events mk parts k) = [].
Proof.
  unfold create_events. induction (int_range 0 k) as [|x l IH]; cbn; congruence.
Qed.

Lemma joins_no_print tids : printed (map EvJoin tids) = [].
Proof. induction tids; cbn; congruence. Qed.

Lemma calls_quiet xs :
  created_tids (map EvCall1 xs) = [] /\ joined_tids (map EvCall1 xs) = []
  /\ printed (map EvCall1 xs) = [].
Proof. induction xs; cbn; auto. Qed.

Lemma flats_quiet l1 l2 w xs :
  created_tids (map (flat_event l1 l2 w) xs) = []
  /\ joined_tids (map (flat_event l1 l2 w) xs) = []
  /\ printed (map (flat_event l1 l2 w) xs) = [].
Proof. induction xs; cbn; auto. Qed.

Lemma fork_join_joins_and_print ok mk msg work line parts n (ev : Z -> event) :
  1 <= n <= INT_MAX -> List.length parts = Z.to_nat n ->
  (forall xs, exists m, trace (for_each xs work) = map ev (firstn m xs)) ->
  (forall xs, created_tids (map ev xs) = [] /\ joined_tids (map ev xs) = []
              /\ printed (map ev xs) = []) ->
  let run := fork_join ok mk msg work line parts n in
  (outcome run = Ok tt ->
     exists pre, trace run = pre ++ map EvJoin (created_tids pre) ++ [EvPrint line]
                 /\ joined_tids pre = [] /\ printed pre = [])
  /\ (outcome run <> Ok tt -> printed (trace run) = [])
  /\ (joined_tids (trace run) = created_tids (trace run)
      \/ joined_tids (trace run) = [])
  /\ NoDup (created_tids (trace run)).
Proof.
  intros Hn Hlen Hwork Hev run. subst run.
  destruct (fork_join_cases ok mk msg work line parts n Hn Hlen)
    as [[_ E] | (k & Hk & _ & _ & E)]; rewrite E; cbn [trace outcome fst snd].
  - set (own := nth (Z.to_nat (n - 1)) parts (0, 0)). unfold for_int.
    destruct (Hwork (int_range (fst own) (snd own))) as [m Hm]. rewrite Hm.
    destruct (Hev (firstn m (int_range (fst own) (snd own))))
      as (Hq1 & Hq2 & Hq3).
    destruct (outcome (for_each (int_range (fst own) (snd own)) work))
      as [[]|e|ft].
    + split; [|split; [|split]].
      * intros _. exists (create_events mk parts (n - 1)
                          ++ map ev (firstn m (int_range (fst own) (snd own)))).
        rewrite created_tids_app, joined_tids_app, printed_app, Hq1, Hq2, Hq3,
          create_events_tids, create_events_no_join, create_events_no_print,
          !app_nil_r.
        split; [now rewrite <- app_assoc | auto].
      * intros H. now contradiction H.
      * left. rewrite !joined_tids_app, !created_tids_app, Hq1, Hq2,
          create_events_tids, create_events_no_join, joins_joined,
          joins_created_tids. cbn. now rewrite !app_nil_r.
      * rewrite !created_tids_app, Hq1, create_events_tids,
          joins_created_tids. cbn. rewrite !app_nil_r. apply int_range_NoDup.
    + split; [discriminate|]. split; [|split].
      * intros _. rewrite !printed_app, Hq3, create_events_no_print.
        reflexivity.
      * right. rewrite !joined_tids_app, Hq2, create_events_no_join.
        reflexivity.
      * rewrite !created_tids_app, Hq1, create_events_tids. cbn.
        rewrite !app_nil_r. apply int_range_NoDup.
    + split; [discriminate|]. split; [|split].
      * intros _. rewrite !printed_app, Hq3, create_events_no_print.
        reflexivity.
      * right. rewrite !joined_tids_app, Hq2, create_events_no_join.
        reflexivity.
      * rewrite !created_tids_app, Hq1, create_events_tids. cbn.
        rewrite !app_nil_r. apply int_range_NoDup.
  - split; [discriminate|]. split; [|split].
    + intros _. rewrite printed_app, create_events_no_print. cbn.
      apply joins_no_print.
    + left. rewrite joined_tids_app, created_tids_app, create_events_tids,
        create_events_no_join. cbn.
      now rewrite joins_joined, joins_created_tids, app_nil_r.
    + rewrite created_tids_app, create_events_tids. cbn.
      rewrite joins_created_tids, app_nil_r. apply int_range_NoDup.
Qed.



(** ** No faulting operation *)

Lemma for_each_flat_no_fault f l1 l2 w xs :
  w <> 0 -> (forall x, In x xs -> x <> INT_MIN) ->
  ~ is_fault (outcome (for_each xs (flat_body f l1 l2 w))).
Proof.
  intros Hw. induction xs as [|x xs IH]; intros Hx; [cbn; tauto|].
  rewrite for_each_cons, flat_body_eq.
  destruct (Z.eqb_spec w 0); [contradiction|].
  destruct (Z.eqb_spec x INT_MIN) as [E|_];
    [exfalso; now apply (Hx x (or_introl eq_refl))|].
  cbn [andb]. rewrite call2_eq.
  destruct (f _ _); cbn [outcome trace fst snd is_fault]; [tauto|].
  apply IH. intros y Hy. apply Hx. now right.
Qed.

Lemma for_each_call1_no_fault f xs :
  ~ is_fault (outcome (for_each xs (call1 f))).
Proof.
  pose proof (for_each_call1_outcome f xs) as H.
  destruct (outcome _); cbn; tauto.
Qed.

Lemma fork_join_no_fault ok mk msg work line parts n :
  1 <= n <= INT_MAX -> List.length parts = Z.to_nat n ->
  (let own := nth (Z.to_nat (n - 1)) parts (0, 0) in
   ~ is_fault (outcome (for_int (fst own) (snd own) work))) ->
  ~ is_fault (outcome (fork_join ok mk msg work line parts n)).
Proof.
  intros Hn Hlen Hmain.
  destruct (fork_join_cases ok mk msg work line parts n Hn Hlen)
    as [[_ E] | (k & _ & _ & _ & E)]; rewrite E; cbn [outcome snd].
  - exact Hmain.
  - cbn. tauto.
Qed.

Lemma fallback_parts low high n :
  fst (fallback low high n) = sm_split_range low high (snd (fallback low high n)).
Proof. unfold fallback. destruct (negb _); reflexivity. Qed.

(** The flat partitions of a 2-D call that gets past its guards. *)
Lemma parallel_for_2d_chain ok low1 high1 low2 high2 f n :
  let run := parallel_for_2d ok low1 high1 low2 high2 f n in
  let w := wrap_int (int_sub high2 low2) in
  (trace run = [] /\ ~ is_fault (outcome run))
  \/ (exists parts N total,
        1 <= N <= INT_MAX /\ List.length parts = Z.to_nat N /\ w <> 0
        /\ 1 <= total <= INT_MAX /\ contiguous_from 0 parts total
        /\ run = fork_join ok (mk_arg_2d low1 low2 w)
                   "pthread_create failed (2D)" (flat_body f low1 low2 w)
                   "[SimpleMultithreader] parallel_for(2D) time = " parts N).
Proof.
  intros run w. subst run. rewrite parallel_for_2d_eq. cbv zeta.
  destruct (_ || _); [left; cbn; tauto|].
  destruct (Z.leb_spec (ll_mul (int_sub high1 low1) (int_sub high2 low2)) 0)
    as [|Hpos]; [left; cbn; tauto|].
  destruct (Z.gtb_spec (ll_mul (int_sub high1 low1) (int_sub high2 low2)) INT_MAX)
    as [|Hle]; [left; cbn; tauto|].
  right.
  set (tl := ll_mul (int_sub high1 low1) (int_sub high2 low2)) in *.
  assert (Ht : wrap_int tl = tl)
    by (apply wrap_int_small; unfold is_int, INT_MIN, INT_MAX in *; lia).
  rewrite Ht.
  destruct (fallback_shape 0 tl (coerce n) (coerce_pos n)) as (Hb & Hlen & _).
  exists (fst (fallback 0 tl (coerce n))), (snd (fallback 0 tl (coerce n))), tl.
  split; [exact Hb|]. split; [exact Hlen|]. split; [|split; [lia|split]].
  - subst w. rewrite wrap_int_small by apply wrap_int_is_int.
    intros E. subst tl. rewrite E in Hpos. unfold ll_mul in Hpos.
    rewrite Z.mul_0_r in Hpos. cbv in Hpos. discriminate Hpos.
  - rewrite fallback_parts. apply sm_split_range_contiguous;
      unfold is_int, INT_MIN, INT_MAX in *; lia.
  - reflexivity.
Qed.

Lemma sm_thread_entry_2d_no_fault f l1 l2 w p :
  w <> 0 -> (forall x, In x (int_range (fst p) (snd p)) -> x <> INT_MIN) ->
  ~ is_fault (outcome (sm_thread_entry_2d f (Some (mk_arg_2d l1 l2 w p)))).
Proof.
  intros Hw Hx. rewrite sm_thread_entry_2d_eq, try_catch_all_outcome.
  cbn [mk_arg_2d start_idx end_idx low1 low2 width2].
  pose proof (for_each_flat_no_fault f l1 l2 w
                (int_range (fst p) (snd p)) Hw Hx) as H.
  destruct (outcome _); cbn in *; tauto.
Qed.

(** X8.  No call of either overload, whatever its arguments, the outcome
    of the thread creations and the callback, ever indexes the vector of
    partitions out of bounds, divides by zero or computes
    [INT_MIN / -1]: neither the calling thread nor any worker it creates
    ends in such a fault. *)
Theorem no_thread_faults :
  (forall ok low high f n,
      let run := parallel_for_1d ok low high f n in
      ~ is_fault (outcome run)
      /\ (forall arg, In arg (created (trace run)) ->
            ~ is_fault (outcome (sm_thread_entry_1d f (Some arg)))))
  /\ (forall ok low1 high1 low2 high2 f n,
         let run := parallel_for_2d ok low1 high1 low2 high2 f n in
         ~ is_fault (outcome run)
         /\ (forall arg, In arg (created (trace run)) ->
               ~ is_fault (outcome (sm_thread_entry_2d f (Some arg))))).
Proof.
  split.
  - intros ok low high f n run. split.
    + destruct (parallel_for_1d_cases ok low high f n)
        as [[E _] | (ps & N & HN & Hlen & _ & _ & E)]; fold run in E;
        rewrite E; [cbn; tauto|].
      apply fork_join_no_fault; auto. cbv zeta. unfold for_int.
      apply for_each_call1_no_fault.
    + intros arg _. rewrite sm_thread_entry_1d_eq, try_catch_all_outcome.
      pose proof (for_each_call1_no_fault f
                    (int_range (start_idx arg) (end_idx arg))) as H.
      destruct (outcome _); cbn in *; tauto.
  - intros ok low1 high1 low2 high2 f n run.
    destruct (parallel_for_2d_chain ok low1 high1 low2 high2 f n)
      as [[E Ho] | (ps & N & total & HN & Hlen & Hw & Ht & Hc & E)];
      fold run in E.
    { fold run in Ho. split; [exact Ho|]. intros arg Hin.
      rewrite E in Hin. destruct Hin. }
    set (w := wrap_int (int_sub high2 low2)) in *.
    assert (Hpos : forall p x, In p ps -> In x (int_range (fst p) (snd p)) ->
                     x <> INT_MIN).
    { intros p x Hp Hx. apply int_range_In in Hx.
      pose proof (contiguous_from_bounds 0 ps total p Hc Hp).
      unfold INT_MIN. lia. }
    split.
    + rewrite E. apply fork_join_no_fault; auto. cbv zeta. unfold for_int.
      apply for_each_flat_no_fault; [exact Hw|].
      intros x Hx.
      apply (Hpos (nth (Z.to_nat (N - 1)) ps (0, 0)) x);
        [apply nth_In; lia | exact Hx].
    + intros arg Hin. rewrite E in Hin.
      destruct (fork_join_created_args _ _ _ _ _ _ _ _ HN Hlen
                  (flat_loop_no_created f low1 low2 w) Hin) as (p & Hp & ->).
      apply sm_thread_entry_2d_no_fault; [exact Hw|].
      intros x Hx. exact (Hpos p x Hp Hx).
Qed.

(** X8 applies to the worker of the 3 x 4 call of the spec. *)
Lemma no_thread_faults_witness :
  let run := parallel_for_2d always_ok 0 3 0 4 never_throws2 2 in
  ~ is_fault (outcome run)
  /\ ~ is_fault (outcome (sm_thread_entry_2d never_throws2
                            (Some (mkArg 0 6 0 0 4)))).
Proof.
  intros run.
  destruct (proj2 no_thread_faults always_ok 0 3 0 4 never_throws2 2)
    as [Ho Hw].
  split; [exact Ho|]. apply Hw. left. reflexivity.
Defined.

(** ** More threads than indices *)

(** X9.  On a non-empty range [low < high] whose extent fits an [int]:
    when [numThreads] exceeds the number of indices [high - low], the
    first [high - low] partitions hold one index each and all later ones
    are empty, the calling thread's included: the calling thread invokes
    the callback on nothing, while a worker is still created for every
    partition but the last when every creation succeeds. *)
Theorem more_threads_than_indices ok low high f n :
  is_int low -> is_int high -> is_int n ->
  low < high -> high - low <= INT_MAX -> high - low < n ->
  let run := parallel_for_1d ok low high f n in
  let parts := sm_split_range low high n in
  (forall t, 0 <= t < n ->
     nth (Z.to_nat t) parts (0, 0)
     = if t <? high - low then (low + t, low + t + 1) else (high, high))
  /\ calls1 (trace run) = []
  /\ ((forall t, ok t = true) ->
      Z.of_nat (List.length (created (trace run))) = n - 1).
Proof.
  intros Hlow Hhigh Hn Hlt Hfit Hmore run parts.
  assert (Hn1 : 1 <= n) by lia.
  assert (Hc : coerce n = n) by (unfold coerce; destruct (Z.leb_spec n 0); lia).
  assert (Hnth : forall t, 0 <= t < n ->
            nth (Z.to_nat t) parts (0, 0)
            = if t <? high - low then (low + t, low + t + 1) else (high, high)).
  { intros t Ht. subst parts.
    pose proof (sm_split_range_nth low high n Hlow Hhigh Hlt Hfit Hn1 t Ht) as E.
    rewrite (nth_error_nth _ _ (0, 0) E).
    unfold part_offset. rewrite Z.div_small, Z.mod_small by lia.
    destruct (Z.ltb_spec t (high - low)); f_equal; lia. }
  assert (Hlen : List.length parts = Z.to_nat n)
    by (subst parts; now apply sm_split_range_length).
  destruct (parallel_for_1d_cases ok low high f n)
    as [[_ Hge] | (ps & N & HN & Hlen' & _ & Hs & E)]; [lia|].
  destruct (Hs Hn) as [-> ->]. rewrite Hc in *. fold run parts in E, Hlen'.
  assert (Hown : nth (Z.to_nat (n - 1)) parts (0, 0) = (high, high)).
  { rewrite Hnth by lia. destruct (Z.ltb_spec (n - 1) (high - low)); [lia|].
    reflexivity. }
  split; [exact Hnth|]. split.
  - destruct (fork_join_cases ok mk_arg_1d "pthread_create failed (1D)"
                (call1 f) "[SimpleMultithreader] parallel_for(1D) time = "
                parts n HN Hlen) as [[_ E'] | (k & _ & _ & _ & E')];
      rewrite E, E'; [|now proj_simpl].
    rewrite Hown. cbn [fst snd]. unfold for_int.
    rewrite int_range_nil by lia. cbn [for_each ret trace outcome fst snd].
    now proj_simpl.
  - intros Hok. rewrite E.
    rewrite fork_join_all_created by auto.
    rewrite Hown. cbn [fst snd]. unfold for_int.
    rewrite int_range_nil by lia. cbn [for_each ret trace outcome fst snd].
    proj_simpl. rewrite length_map, int_range_length. lia.
Qed.

(** X9 applies to eight threads over three indices. *)
Lemma more_threads_than_indices_witness :
  calls1 (trace (parallel_for_1d always_ok 0 3 never_throws1 8)) = []
  /\ Z.of_nat (List.length
       (created (trace (parallel_for_1d always_ok 0 3 never_throws1 8))))
     = 8 - 1.
Proof.
  destruct (more_threads_than_indices always_ok 0 3 never_throws1 8)
    as (_ & Hc & Hw); try (unfold is_int, INT_MIN, INT_MAX; lia).
  split; [exact Hc | apply Hw; reflexivity].
Defined.

(** ** The second copy and its forwarding overloads *)

Lemma fork_join_messages ok mk msg1 msg2 work line parts n :
  1 <= n <= INT_MAX -> List.length parts = Z.to_nat n ->
  let r1 := fork_join ok mk msg1 work line parts n in
  let r2 := fork_join ok mk msg2 work line parts n in
  trace r2 = trace r1
  /\ (outcome r2 = outcome r1
      \/ (outcome r1 = Throw (runtime_error msg1)
          /\ outcome r2 = Throw (runtime_error msg2))).
Proof.
  intros Hn Hlen r1 r2. subst r1 r2.
  destruct (fork_join_cases ok mk msg1 work line parts n Hn Hlen)
    as [[Hall E] | (k & Hk & Hf & Hp & E)]; rewrite E.
  - rewrite (fork_join_all_created ok mk msg2) by assumption.
    split; [reflexivity | now left].
  - rewrite (fork_join_fails ok mk msg2 work line parts n k) by assumption.
    split; [reflexivity | now right].
Qed.

(** X10.  The second copy of the library, reached through its
    unqualified forwarding overloads, splits ranges and runs workers
    exactly like the first copy, and every call produces the same events
    of the calling thread; the results are equal too, except that the
    start-up error and the size error carry the longer message texts of
    the second copy. *)
Theorem second_copy_same_behaviour :
  (forall low high n,
      simple_mt.split_range low high n = sm_split_range low high n)
  /\ (forall f arg,
         simple_mt.thread_entry_1d f arg = sm_thread_entry_1d f arg)
  /\ (forall f arg,
         simple_mt.thread_entry_2d f arg = sm_thread_entry_2d f arg)
  /\ (forall ok low high f n,
         let r1 := parallel_for_1d ok low high f n in
         let r2 := forward_parallel_for_1d ok low high f n in
         trace r2 = trace r1
         /\ (outcome r2 = outcome r1
             \/ (outcome r1 = Throw (runtime_error "pthread_create failed (1D)")
                 /\ outcome r2
                    = Throw (runtime_error
                               "pthread_create failed in parallel_for (1D)"))))
  /\ (forall ok low1 high1 low2 high2 f n,
         let r1 := parallel_for_2d ok low1 high1 low2 high2 f n in
         let r2 := forward_parallel_for_2d ok low1 high1 low2 high2 f n in
         trace r2 = trace r1
         /\ (outcome r2 = outcome r1
             \/ (outcome r1 = Throw (runtime_error "pthread_create failed (2D)")
                 /\ outcome r2
                    = Throw (runtime_error
                               "pthread_create failed in parallel_for (2D)"))
             \/ (outcome r1 = Throw (runtime_error "2D range too large")
                 /\ outcome r2
                    = Throw (runtime_error
                        "2D range too large to handle (exceeds INT_MAX flattened size).")))).
Proof.
  split; [reflexivity|]. split; [reflexivity|]. split; [reflexivity|].
  split.
  - intros ok low high f n r1 r2. subst r1 r2.
    unfold forward_parallel_for_1d.
    rewrite simple_mt_parallel_for_1d_eq, parallel_for_1d_eq.
    destruct (low >=? high); [split; [reflexivity | now left]|].
    destruct (fallback_shape low high (coerce n) (coerce_pos n))
      as (Hb & Hlen & _).
    exact (fork_join_messages ok mk_arg_1d _ _ _ _ _ _ Hb Hlen).
  - intros ok low1 high1 low2 high2 f n r1 r2. subst r1 r2.
    unfold forward_parallel_for_2d.
    rewrite simple_mt_parallel_for_2d_eq, parallel_for_2d_eq. cbv zeta.
    destruct (_ || _); [split; [reflexivity | now left]|].
    destruct (_ <=? 0); [split; [reflexivity | now left]|].
    destruct (_ >? INT_MAX).
    + split; [reflexivity|]. right. right. split; reflexivity.
    + destruct (fallback_shape 0
                  (wrap_int (ll_mul (int_sub high1 low1) (int_sub high2 low2)))
                  (coerce n) (coerce_pos n)) as (Hb & Hlen & _).
      destruct (fork_join_messages ok
                  (mk_arg_2d low1 low2 (wrap_int (int_sub high2 low2)))
                  "pthread_create failed in parallel_for (2D)"
                  "pthread_create failed (2D)"
                  (flat_body f low1 low2 (wrap_int (int_sub high2 low2)))
                  "[SimpleMultithreader] parallel_for(2D) time = "
                  _ _ Hb Hlen) as [Ht Ho].
      cbv zeta in Ht, Ho. split; [now rewrite Ht|].
      destruct Ho as [Ho | [Ho1 Ho2]]; [left; now rewrite Ho|].
      right. left. split; assumption.
Qed.

(** ** The work lost to an exception in a worker *)

Lemma nth_firstn_lt {A} (l : list A) (k t : nat) (d : A) :
  (t < k)%nat -> nth t (firstn k l) d = nth t l d.
Proof.
  revert k t. induction l as [|a l IH]; intros k t Ht.
  - rewrite firstn_nil. reflexivity.
  - destruct k as [|k]; [lia|]. destruct t as [|t]; [reflexivity|].
    cbn [firstn nth]. apply IH. lia.
Qed.

Lemma split_at {A} (l : list A) (t : nat) (d : A) :
  (t < List.length l)%nat -> l = firstn t l ++ nth t l d :: skipn (S t) l.
Proof.
  revert t. induction l as [|a l IH]; intros t Ht; cbn in Ht; [lia|].
  destruct t as [|t]; [reflexivity|].
  cbn [firstn nth skipn app]. f_equal. apply IH. lia.
Qed.

Lemma sm_thread_entry_1d_throw f s e i x :
  s <= i < e -> f i = Some x -> (forall j, s <= j < i -> f j = None) ->
  sm_thread_entry_1d f (Some (mk_arg_1d (s, e)))
  = (map EvCall1 (int_range s (i + 1)), Ok tt).
Proof.
  intros Hi Hf Hbefore. rewrite sm_thread_entry_1d_eq.
  unfold mk_arg_1d, SM_ThreadArg_new. cbn [start_idx end_idx fst snd].
  rewrite (int_range_split_at s e i Hi).
  rewrite (for_each_call1_throw f _ i _ x); auto.
  - cbn [try_catch_all]. now rewrite int_range_snoc by lia.
  - intros y Hy. apply Hbefore. now apply int_range_In.
Qed.

(** X11.  On a non-empty range whose extent [high - low] fits an [int],
    an exception thrown by the callback inside a worker's partition is
    invisible to the caller and costs exactly the rest of that
    partition: if every creation succeeds and the callback throws on
    the single index [i] of partition [t < numThreads - 1] and nowhere
    else, the call still returns normally and
    joins every worker, and the callback has been invoked exactly on
    [[low, i]] and on the indices from the end of partition [t] up to
    [high]. *)
Theorem worker_exception_loses_rest_of_partition ok low high f n t i x :
  is_int low -> is_int high -> is_int n ->
  low < high -> high - low <= INT_MAX ->
  (forall c, ok c = true) ->
  0 <= t < coerce n - 1 ->
  let parts := sm_split_range low high (coerce n) in
  let p := nth (Z.to_nat t) parts (0, 0) in
  let run := parallel_for_1d ok low high f n in
  fst p <= i < snd p -> f i = Some x ->
  (forall j, low <= j < high -> j <> i -> f j = None) ->
  outcome run = Ok tt
  /\ joined_tids (trace run) = int_range 0 (coerce n - 1)
  /\ all_calls1 f run = int_range low (i + 1) ++ int_range (snd p) high.
Proof.
  intros Hlow Hhigh Hn Hlt Hfit Hok Ht parts p run Hi Hfi Hother.
  set (N := coerce n) in *.
  pose proof (coerce_pos n) as HN. fold N in HN.
  assert (Hc : contiguous_from low parts high)
    by (subst parts; now apply sm_split_range_contiguous).
  assert (Hlen : List.length parts = Z.to_nat N)
    by (subst parts; now apply sm_split_range_length).
  set (WL := firstn (Z.to_nat (N - 1)) parts).
  set (own := nth (Z.to_nat (N - 1)) parts (0, 0)).
  assert (Hparts : parts = WL ++ [own]) by (apply split_last; lia).
  assert (HWLlen : List.length WL = Z.to_nat (N - 1))
    by (subst WL; rewrite firstn_length_le; lia).
  assert (Hp : nth (Z.to_nat t) WL (0, 0) = p)
    by (subst WL p; apply nth_firstn_lt; lia).
  pose proof (split_at WL (Z.to_nat t) (0, 0) ltac:(lia)) as HWL.
  rewrite Hp in HWL.
  set (A := firstn (Z.to_nat t) WL) in *.
  set (R := skipn (S (Z.to_nat t)) WL) in *.
  assert (Hchain : contiguous_from low (A ++ (p :: R ++ [own])) high).
  { replace (A ++ p :: R ++ [own]) with parts; [exact Hc|].
    rewrite Hparts, HWL, <- app_assoc. reflexivity. }
  destruct (contiguous_from_app_inv _ _ _ _ Hchain) as (mid & HA & Hrest).
  destruct p as [sp ep] eqn:Ep. cbn [fst snd] in Hi |- *.
  cbn [contiguous_from] in Hrest. destruct Hrest as (-> & Hle & HR).
  pose proof (contiguous_from_le _ _ _ HA) as HlowA.
  pose proof (contiguous_from_le _ _ _ HR) as HRhigh.
  assert (HfA : forall q j, In q A -> fst q <= j < snd q -> f j = None).
  { intros q j Hq Hj.
    pose proof (contiguous_from_bounds _ _ _ q HA Hq). apply Hother; lia. }
  assert (HfR : forall q j, In q (R ++ [own]) -> fst q <= j < snd q ->
                  f j = None).
  { intros q j Hq Hj.
    pose proof (contiguous_from_bounds _ _ _ q HR Hq). apply Hother; lia. }
  assert (HNi : is_int N).
  { subst N. unfold coerce. destruct (n <=? 0); [|exact Hn].
    unfold is_int, INT_MIN, INT_MAX. lia. }
  destruct (parallel_for_1d_cases ok low high f n)
    as [[_ Hge] | (ps & N' & HN' & Hlen' & _ & Hs & E)]; [lia|].
  destruct (Hs Hn) as [-> ->]. fold run N parts in E, HN', Hlen'.
  rewrite fork_join_all_created in E by auto. fold own in E.
  assert (Hmain : for_int (fst own) (snd own) (call1 f)
                  = (map EvCall1 (int_range (fst own) (snd own)), Ok tt)).
  { unfold for_int. apply for_each_call1_ok. intros y Hy.
    apply int_range_In in Hy. apply (HfR own); [|exact Hy].
    apply in_or_app. right. now left. }
  rewrite Hmain in E. cbn [trace outcome fst snd] in E.
  split; [now rewrite E|]. split; [rewrite E; now proj_simpl|].
  unfold all_calls1. rewrite E. proj_simpl.
  rewrite <- create_events_created, create_events_firstn by lia.
  fold WL. rewrite HWL, map_app, flat_map_app. cbn [map flat_map].
  rewrite (sm_thread_entry_1d_throw f mid ep i x); auto;
    [|intros j Hj; apply Hother; lia].
  cbn [trace fst]. rewrite calls1_map_call.
  rewrite !workers_1d_calls.
  - rewrite (contiguous_from_flat _ _ _ HA).
    rewrite <- (contiguous_from_flat _ _ _ HR), flat_map_app.
    cbn [flat_map]. rewrite app_nil_r, <- !app_assoc.
    rewrite app_assoc. rewrite int_range_app by lia. reflexivity.
  - intros q j Hq. apply HfR. apply in_or_app. now left.
  - exact HfA.
Qed.

(** X11 applies to a three-thread call over [[0, 10)] whose callback
    throws on index 1: indices 2 and 3 of the first partition are lost. *)
Lemma worker_exception_loses_rest_of_partition_witness :
  let f := fun i => if i =? 1 then Some (other_exn 7) else None in
  let run := parallel_for_1d always_ok 0 10 f 3 in
  outcome run = Ok tt
  /\ all_calls1 f run
     = int_range 0 (1 + 1)
       ++ int_range (snd (nth (Z.to_nat 0) (sm_split_range 0 10 (coerce 3))
                              (0, 0))) 10.
Proof.
  intros f run.
  destruct (worker_exception_loses_rest_of_partition
              always_ok 0 10 f 3 0 1 (other_exn 7)) as (Ho & _ & Ha);
    try (unfold is_int, INT_MIN, INT_MAX; lia); try reflexivity.
  - change (0 <= 0 < 3 - 1). lia.
  - change (0 <= 1 < 4). lia.
  - intros j Hj Hne. unfold f. destruct (Z.eqb_spec j 1); [lia | reflexivity].
  - split; [exact Ho | exact Ha].
Defined.

(** ** The size guard on representable extents *)

(** X12.  For a 2-D range whose two extents are non-empty and fit an
    [int], the size guard rejects exactly the oversized ranges: if
    [rows * cols > INT_MAX] the call throws ["2D range too large"]
    without any event (no worker, no invocation, no timing line);
    otherwise the call is accepted and does something. *)
Theorem size_guard_rejects_exactly_oversized ok low1 high1 low2 high2 f n :
  is_int low1 -> is_int high1 -> is_int low2 -> is_int high2 ->
  low1 < high1 -> low2 < high2 ->
  high1 - low1 <= INT_MAX -> high2 - low2 <= INT_MAX ->
  let run := parallel_for_2d ok low1 high1 low2 high2 f n in
  let size := (high1 - low1) * (high2 - low2) in
  (INT_MAX < size -> run = ([], Throw (runtime_error "2D range too large")))
  /\ (size <= INT_MAX -> trace run <> []).
Proof.
  intros H1 H2 H3 H4 Hr Hc Hfr Hfc run size.
  assert (E : run = _)
    by (apply (parallel_for_2d_guards ok low1 high1 low2 high2 f n);
        assumption).
  fold size in E. split.
  - intros Hbig. rewrite E.
    destruct (Z.gtb_spec size INT_MAX); [reflexivity | lia].
  - intros Hsmall. rewrite E.
    destruct (Z.gtb_spec size INT_MAX); [lia|].
    set (cols := high2 - low2) in *.
    assert (Hsize : 1 <= size) by (subst size cols; nia).
    destruct (fallback_shape 0 size (coerce n) (coerce_pos n))
      as (Hb & Hlen & _).
    pose proof (fallback_parts 0 size (coerce n)) as Hparts.
    set (parts := fst (fallback 0 size (coerce n))) in *.
    set (N := snd (fallback 0 size (coerce n))) in *.
    destruct (fork_join_cases ok (mk_arg_2d low1 low2 cols)
                "pthread_create failed (2D)" (flat_body f low1 low2 cols)
                "[SimpleMultithreader] parallel_for(2D) time = "
                parts N Hb Hlen) as [[_ E'] | (k & _ & _ & _ & E')];
      rewrite E'; cbn [trace fst].
    + destruct (Z.eq_dec N 1) as [EN|NN].
      * rewrite EN in *. rewrite Hparts.
        rewrite sm_split_range_one;
          [|unfold is_int, INT_MIN, INT_MAX in *; lia | lia].
        change (Z.to_nat (1 - 1)) with 0%nat. cbn [nth fst snd].
        unfold create_events, for_int.
        rewrite (int_range_nil 0 (1 - 1)) by lia.
        rewrite (int_range_cons 0 size) by lia. cbn [map app].
        rewrite for_each_cons, flat_body_eq.
        destruct (Z.eqb_spec cols 0); [lia|]. cbn [Z.eqb andb].
        rewrite call2_eq.
        destruct (f _ _); cbn [outcome trace fst snd app]; discriminate.
      * unfold create_events. rewrite (int_range_cons 0 (N - 1)) by lia.
        cbn [map app]. discriminate.
    + intros Hnil. apply app_eq_nil in Hnil as [_ Hnil]. discriminate Hnil.
Qed.

(** X12 applies to a 65536 x 65536 range and to the 3 x 4 range. *)
Lemma size_guard_rejects_exactly_oversized_witness :
  parallel_for_2d always_ok 0 65536 0 65536 never_throws2 4
  = ([], Throw (runtime_error "2D range too large"))
  /\ trace (parallel_for_2d always_ok 0 3 0 4 never_throws2 2) <> [].
Proof.
  destruct (size_guard_rejects_exactly_oversized
              always_ok 0 65536 0 65536 never_throws2 4) as [Hbig _];
    try (unfold is_int, INT_MIN, INT_MAX; lia).
  destruct (size_guard_rejects_exactly_oversized
              always_ok 0 3 0 4 never_throws2 2) as [_ Hsmall];
    try (unfold is_int, INT_MIN, INT_MAX; lia).
  split; [apply Hbig | apply Hsmall]; unfold INT_MAX; lia.
Defined.

(** ** Empty ranges *)

(** X13.  The 1-D entry point does nothing at all (no worker, no
    invocation, no timing line, normal return) exactly when the range is
    empty: for [low >= high] the run has no event, and for [low < high]
    it always has one, whatever the thread count, the creations and the
    callback do. *)
Theorem parallel_for_1d_idle_iff_empty ok low high f n :
  is_int high -> is_int n ->
  let run := parallel_for_1d ok low high f n in
  (low >= high -> run = ([], Ok tt))
  /\ (low < high -> trace run <> []).
Proof.
  intros Hh Hn run. split.
  - intros Hge. subst run. rewrite parallel_for_1d_eq.
    destruct (Z.geb_spec low high); [reflexivity | lia].
  - intros Hlt.
    destruct (parallel_for_1d_cases ok low high f n)
      as [[_ Hge] | (ps & N & HN & Hlen & _ & Hs & E)]; [lia|].
    destruct (Hs Hn) as [EN Eps]. fold run in E. rewrite E.
    destruct (fork_join_cases ok mk_arg_1d "pthread_create failed (1D)"
                (call1 f) "[SimpleMultithreader] parallel_for(1D) time = "
                ps N HN Hlen) as [[_ E'] | (k & _ & _ & _ & E')];
      rewrite E'; cbn [trace fst].
    + destruct (Z.eq_dec N 1) as [E1|NN].
      * rewrite E1 in *. rewrite Eps.
        rewrite sm_split_range_one by assumption.
        change (Z.to_nat (1 - 1)) with 0%nat. cbn [nth fst snd].
        unfold create_events, for_int.
        rewrite (int_range_nil 0 (1 - 1)) by lia.
        rewrite (int_range_cons low high) by lia. cbn [map app].
        rewrite for_each_cons, call1_eq.
        destruct (f low); cbn [outcome trace fst snd app]; discriminate.
      * unfold create_events. rewrite (int_range_cons 0 (N - 1)) by lia.
        cbn [map app]. discriminate.
    + intros Hnil. apply app_eq_nil in Hnil as [_ Hnil]. discriminate Hnil.
Qed.

(** X13 applies to an empty and to a one-index range. *)
Lemma parallel_for_1d_idle_iff_empty_witness :
  parallel_for_1d always_ok 4 4 never_throws1 4 = ([], Ok tt)
  /\ trace (parallel_for_1d always_ok 4 5 never_throws1 4) <> [].
Proof.
  destruct (parallel_for_1d_idle_iff_empty always_ok 4 4 never_throws1 4)
    as [Hidle _]; try (unfold is_int, INT_MIN, INT_MAX; lia).
  destruct (parallel_for_1d_idle_iff_empty always_ok 4 5 never_throws1 4)
    as [_ Hbusy]; try (unfold is_int, INT_MIN, INT_MAX; lia).
  split; [apply Hidle | apply Hbusy]; lia.
Defined.
